(** * DeterministicLinePlot: the data preparation of the results chart

    A shallow embedding of the data-preparation code of
    [src/components/Main/Results/DeterministicLinePlot.tsx] and the
    properties of the merged series, of the rolling new-case window, of the
    axis domain and of the mitigation overlay.

    Conventions of the embedding.
    - A JavaScript number that holds a count or an epoch-millisecond
      timestamp is a [Z]; a compartment total, which [Math.round] is applied
      to, is a [Q].  [NaN] and the infinities are outside the model.
    - A plot datum is a JavaScript object: its own properties are a
      [gmap string val], where [VUndef] is a property that is present and
      holds [undefined] (an object literal writes such properties, and an
      object spread copies them).  The [time] property, present on every
      datum and always a number, is kept beside the map: [get] reads the
      properties of the map, [prop] reads any property, [time] included.
    - An expression that may dereference [undefined] lives in the [outcome]
      monad; [Threw] is the uncaught [TypeError]. *)

From Stdlib Require Import ZArith QArith Qround Lia List Sorting.Permutation.
From Stdlib Require Import DecimalString.
From stdpp Require Import base option list gmap strings sorting.

Local Open Scope string_scope.
Local Open Scope Z_scope.

(** ** Outcomes *)

Inductive outcome (A : Type) : Type :=
| Threw : outcome A
| Returned : A → outcome A.
Arguments Threw {A}.
Arguments Returned {A} _.

Definition obind {A B} (m : outcome A) (k : A → outcome B) : outcome B :=
  match m with
  | Threw => Threw
  | Returned a => k a
  end.

Notation "'let!' x ':=' m 'in' k" := (obind m (fun x => k))
  (at level 10, x name, m at level 100, k at level 200).

(** [xs[i].f...]: reading a property of an element that is not there throws. *)
Definition deref {A} (xs : list A) (i : nat) : outcome A :=
  match xs !! i with
  | Some x => Returned x
  | None => Threw
  end.

(** [Array.prototype.map] with a callback that may throw; the callback
    receives the element and its index. *)
Fixpoint mapFrom {A B} (f : A → nat → outcome B) (i : nat) (xs : list A)
  : outcome (list B) :=
  match xs with
  | [] => Returned []
  | x :: xs' =>
      let! y := f x i in
      let! ys := mapFrom f (S i) xs' in
      Returned (y :: ys)
  end.

Definition mapIdx {A B} (f : A → nat → outcome B) (xs : list A) : outcome (list B) :=
  mapFrom f 0%nat xs.

(** ** Values and plot data *)

Inductive val : Type :=
| VUndef : val
| VNum : Z → val
| VBand : Z → Z → val.

Global Instance val_eq_dec : EqDecision val.
Proof. solve_decision. Defined.

Record PlotDatum : Type := mkDatum {
  time : Z;
  fields : gmap string val;
}.

(** [d[k]] for a key [k] other than [time]: a property that is not there
    reads as [undefined].  The [time] property is read through [time]. *)
Definition get (d : PlotDatum) (k : string) : val := default VUndef (fields d !! k).

(** [{ ...a, ...d }]: every own property of [d], whatever it holds, replaces
    the property of [a]. *)
Definition spread (a d : PlotDatum) : PlotDatum :=
  {| time := time d; fields := fields d ∪ fields a |}.

(** [n || undefined] for a number [n]. *)
Definition orUndefined (n : Z) : val := if decide (n = 0) then VUndef else VNum n.

(** [o || undefined] for an optional count [o]. *)
Definition optOrUndefined (o : option Z) : val :=
  match o with
  | Some n => orUndefined n
  | None => VUndef
  end.

(** Truthiness of an optional count. *)
Definition truthy (o : option Z) : bool :=
  match o with
  | Some n => negb (n =? 0)
  | None => false
  end.

Definition truthyVal (v : val) : bool :=
  match v with
  | VUndef => false
  | VNum n => negb (n =? 0)
  | VBand _ _ => true
  end.

(** [Math.round]: the nearest integer, halves towards plus infinity. *)
Definition Math_round (x : Q) : Z := Qfloor (x + (1 # 2))%Q.

(** ** DATA_POINTS *)

Module DATA_POINTS.
Definition Exposed := "exposed".
Definition Susceptible := "susceptible".
Definition Infectious := "infectious".
Definition Severe := "severe".
Definition Critical := "critical".
Definition Overflow := "overflow".
Definition Recovered := "recovered".
Definition Fatalities := "fatality".
Definition CumulativeCases := "cumulativeCases".
Definition NewCases := "newCases".
Definition HospitalBeds := "hospitalBeds".
Definition ICUbeds := "ICUbeds".
Definition ObservedDeaths := "observedDeaths".
Definition ObservedCases := "cases".
Definition ObservedHospitalized := "currentHospitalized".
Definition ObservedICU := "ICU".
Definition ObservedNewCases := "newCases".

(** [Object.values(DATA_POINTS)], in the order of the literal. *)
Definition values : list string :=
  [ Exposed; Susceptible; Infectious; Severe; Critical; Overflow; Recovered;
    Fatalities; CumulativeCases; NewCases; HospitalBeds; ICUbeds;
    ObservedDeaths; ObservedCases; ObservedHospitalized; ObservedICU;
    ObservedNewCases ].
End DATA_POINTS.

(** [enabledPlots.includes(k)] *)
Definition includes (enabledPlots : list string) (k : string) : bool :=
  bool_decide (k ∈ enabledPlots).

(** ** Inputs *)

Record Compartment : Type := { total : Q }.

Record Current : Type := {
  susceptible : Compartment;
  infectious : Compartment;
  severe : Compartment;
  critical : Compartment;
  overflow : Compartment;
}.

Record Cumulative : Type := {
  recovered : Compartment;
  fatality : Compartment;
}.

(** One element of [trajectory.mean], [.lower] or [.upper]. *)
Record Sample : Type := {
  sampleTime : Z;
  current : Current;
  cumulative : Cumulative;
}.

Record Trajectory : Type := {
  mean : list Sample;
  lower : list Sample;
  upper : list Sample;
}.

(** One element of [caseCounts]; [obsTime] is [new Date(d.time).getTime()]. *)
Record EmpiricalDatum : Type := {
  obsTime : Z;
  cases : option Z;
  deaths : option Z;
  icu : option Z;
  hospitalized : option Z;
}.

Record MitigationInterval : Type := {
  tMinOf : Z;            (* interval.timeRange.tMin.getTime() *)
  tMaxOf : Z;            (* interval.timeRange.tMax.getTime() *)
  mitigationValue : Z;
}.

Record Props : Type := {
  data : option Trajectory;                 (* data?.trajectory *)
  populationHospitalBeds : Z;               (* params.population.hospitalBeds *)
  populationICUBeds : Z;                    (* params.population.ICUBeds *)
  mitigationIntervals : list MitigationInterval;
  caseCounts : option (list EmpiricalDatum);
}.

(** ** Observations *)

Definition verifyPositive (x : Z) : val := if 0 <? x then VNum x else VUndef.

Definition hasAny (d : EmpiricalDatum) : bool :=
  truthy (cases d) || truthy (deaths d) || truthy (icu d) || truthy (hospitalized d).

(** [caseCounts?.filter((d) => d.cases || d.deaths || d.icu || d.hospitalized)] *)
Definition nonEmptyCaseCounts (cc : list EmpiricalDatum) : list EmpiricalDatum :=
  List.filter hasAny cc.

Definition caseStep : nat := 3.

(** [newCases(cc, i)].  For [i < caseStep] nothing is read; otherwise [cc[i]]
    is dereferenced, and [cc[i - caseStep]] only when [cc[i].cases] is
    truthy. *)
Definition newCases (cc : list EmpiricalDatum) (i : nat) : outcome val :=
  if (caseStep <=? i)%nat then
    let! ci := deref cc i in
    if truthy (cases ci) then
      let! cj := deref cc (i - caseStep) in
      if truthy (cases cj) then
        Returned (verifyPositive (default 0 (cases ci) - default 0 (cases cj)))
      else Returned VUndef
    else Returned VUndef
  else Returned VUndef.

(** The number of records that carry a truthy value of one field. *)
Definition countTruthy (f : EmpiricalDatum → option Z) (cc : list EmpiricalDatum) : nat :=
  length (List.filter (λ d, truthy (f d)) cc).

Record Counts : Type := {
  countCases : nat;
  countICU : nat;
  countObservedDeaths : nat;
  countNewCases : nat;
  countHospitalized : nat;
}.

(** [countObservations]; the [newCases] entry filters by index,
    [filter((_, i) => newCases(nonEmptyCaseCounts, i))]. *)
Definition countObservations (caseCounts : option (list EmpiricalDatum)) : outcome Counts :=
  match caseCounts with
  | Some cc =>
      let filtered := nonEmptyCaseCounts cc in
      let! deltas := mapIdx (λ _ i, newCases filtered i) filtered in
      Returned {| countCases := countTruthy cases filtered;
                  countICU := countTruthy icu filtered;
                  countObservedDeaths := countTruthy deaths filtered;
                  countNewCases := length (List.filter truthyVal deltas);
                  countHospitalized := countTruthy hospitalized filtered |}
  | None =>
      Returned {| countCases := 0; countICU := 0; countObservedDeaths := 0;
                  countNewCases := 0; countHospitalized := 0 |}
  end.

(** The object literal of the [observations] callback. *)
Definition observationDatum (enabledPlots : list string) (nHospitalBeds nICUBeds : val)
    (cc : list EmpiricalDatum) (d : EmpiricalDatum) (i : nat) : outcome PlotDatum :=
  let! nc := (if includes enabledPlots DATA_POINTS.ObservedNewCases
              then newCases cc i else Returned VUndef) in
  Returned {|
    time := obsTime d;
    fields :=
      <["cases" := if includes enabledPlots DATA_POINTS.ObservedCases
                   then optOrUndefined (cases d) else VUndef]>
      (<["observedDeaths" := if includes enabledPlots DATA_POINTS.ObservedDeaths
                             then optOrUndefined (deaths d) else VUndef]>
      (<["currentHospitalized" := if includes enabledPlots DATA_POINTS.ObservedHospitalized
                                  then optOrUndefined (hospitalized d) else VUndef]>
      (<["ICU" := if includes enabledPlots DATA_POINTS.ObservedICU
                  then optOrUndefined (icu d) else VUndef]>
      (<["newCases" := nc]>
      (<["hospitalBeds" := nHospitalBeds]>
      (<["ICUbeds" := nICUBeds]> ∅))))))
  |}.

(** [nonEmptyCaseCounts?.map((d, i) => ({ ... })) ?? []] *)
Definition observations (enabledPlots : list string) (nHospitalBeds nICUBeds : val)
    (caseCounts : option (list EmpiricalDatum)) : outcome (list PlotDatum) :=
  match caseCounts with
  | Some cc =>
      let filtered := nonEmptyCaseCounts cc in
      mapIdx (observationDatum enabledPlots nHospitalBeds nICUBeds filtered) filtered
  | None => Returned []
  end.

(** ** The trajectory *)

(** [enabled ? Math.round(x) || undefined : undefined] *)
Definition pointValue (enabledPlots : list string) (k : string) (x : Q) : val :=
  if includes enabledPlots k then orUndefined (Math_round x) else VUndef.

(** [v || undefined] for an arbitrary value. *)
Definition valOrUndefined (v : val) : val := if truthyVal v then v else VUndef.

(** [enabled ? [Math.round(lower[i].f), Math.round(upper[i].f)] || undefined : undefined];
    [lower[i]] and [upper[i]] are read only when the metric is enabled. *)
Definition areaValue (enabledPlots : list string) (k : string) (f : Sample → Q)
    (lower upper : list Sample) (i : nat) : outcome val :=
  if includes enabledPlots k then
    let! l := deref lower i in
    let! u := deref upper i in
    Returned (valOrUndefined (VBand (Math_round (f l)) (Math_round (f u))))
  else Returned VUndef.

(** The seven computed metrics of the chart: their key and the compartment
    total they read. *)
Inductive Computed : Type :=
| Susceptible | Infectious | Severe | Critical | Overflow | Recovered | Fatalities.

Definition keyOf (m : Computed) : string :=
  match m with
  | Susceptible => DATA_POINTS.Susceptible
  | Infectious => DATA_POINTS.Infectious
  | Severe => DATA_POINTS.Severe
  | Critical => DATA_POINTS.Critical
  | Overflow => DATA_POINTS.Overflow
  | Recovered => DATA_POINTS.Recovered
  | Fatalities => DATA_POINTS.Fatalities
  end.

Definition totalOf (m : Computed) (x : Sample) : Q :=
  match m with
  | Susceptible => total (susceptible (current x))
  | Infectious => total (infectious (current x))
  | Severe => total (severe (current x))
  | Critical => total (critical (current x))
  | Overflow => total (overflow (current x))
  | Recovered => total (recovered (cumulative x))
  | Fatalities => total (fatality (cumulative x))
  end.

Definition areaKeyOf (m : Computed) : string := keyOf m +:+ "_area".

(** The object literal of the [data.trajectory.mean.map] callback. *)
Definition trajectoryDatum (enabledPlots : list string) (nHospitalBeds nICUBeds : val)
    (lower upper : list Sample) (x : Sample) (i : nat) : outcome PlotDatum :=
  let area m := areaValue enabledPlots (keyOf m) (totalOf m) lower upper i in
  let point m := pointValue enabledPlots (keyOf m) (totalOf m x) in
  let! susceptible_area := area Susceptible in
  let! infectious_area := area Infectious in
  let! severe_area := area Severe in
  let! critical_area := area Critical in
  let! overflow_area := area Overflow in
  let! recovered_area := area Recovered in
  let! fatality_area := area Fatalities in
  Returned {|
    time := sampleTime x;
    fields :=
      <["susceptible" := point Susceptible]>
      (<["infectious" := point Infectious]>
      (<["severe" := point Severe]>
      (<["critical" := point Critical]>
      (<["overflow" := point Overflow]>
      (<["recovered" := point Recovered]>
      (<["fatality" := point Fatalities]>
      (<["hospitalBeds" := nHospitalBeds]>
      (<["ICUbeds" := nICUBeds]>
      (<["susceptible_area" := susceptible_area]>
      (<["infectious_area" := infectious_area]>
      (<["severe_area" := severe_area]>
      (<["critical_area" := critical_area]>
      (<["overflow_area" := overflow_area]>
      (<["recovered_area" := recovered_area]>
      (<["fatality_area" := fatality_area]> ∅)))))))))))))))
  |}.

(** [data.trajectory.mean.map((x, i) => ({ ... }))] *)
Definition trajectoryData (enabledPlots : list string) (nHospitalBeds nICUBeds : val)
    (t : Trajectory) : outcome (list PlotDatum) :=
  mapIdx (trajectoryDatum enabledPlots nHospitalBeds nICUBeds (lower t) (upper t)) (mean t).

(** [plotData = [...mean.map(...), ...observations]] *)
Definition plotData (enabledPlots : list string) (nHospitalBeds nICUBeds : val)
    (t : Trajectory) (caseCounts : option (list EmpiricalDatum)) : outcome (list PlotDatum) :=
  let! obs := observations enabledPlots nHospitalBeds nICUBeds caseCounts in
  let! traj := trajectoryData enabledPlots nHospitalBeds nICUBeds t in
  Returned (traj ++ obs)%list.

(** ** Sorting and consolidation *)

(** The comparator of [plotData.sort]: [(a, b) => (a.time > b.time ? 1 : -1)]. *)
Definition byTime (a b : PlotDatum) : Z := if time a >? time b then 1 else -1.

(** A stable insertion sort driven by a comparator, one of the behaviours
    that [Array.prototype.sort] may have. *)
Fixpoint insertBy {A} (cmp : A → A → Z) (x : A) (l : list A) : list A :=
  match l with
  | [] => [x]
  | y :: l' => if 0 <? cmp x y then y :: insertBy cmp x l' else x :: l
  end.

Definition insertionSort {A} (cmp : A → A → Z) (l : list A) : list A :=
  foldr (insertBy cmp) [] l.

(** One step of the [forEach] that builds [consolidatedPlotData].  The
    array under construction is never empty; it is kept as the pair of its
    initial segment and its last element. *)
Definition consolidateStep (acc : list PlotDatum * PlotDatum) (d : PlotDatum)
  : list PlotDatum * PlotDatum :=
  let '(init, cur) := acc in
  if decide (time d = time cur) then (init, spread cur d)
  else ((init ++ [cur])%list, d).

(** [consolidatedPlotData], from the sorted [plotData]: the array starts as
    [[plotData[0]]] and the loop visits every element, the first one
    included.  The component has returned before when [plotData] is
    empty. *)
Definition consolidate (sorted : list PlotDatum) : list PlotDatum :=
  match sorted with
  | [] => []
  | d0 :: _ =>
      let '(init, cur) := fold_left consolidateStep sorted ([], d0) in
      (init ++ [cur])%list
  end.

(** ** The axis domains *)

(** [d[k]] for any key: the [time] property, or a property kept in
    [fields].  (The properties inherited from [Object.prototype] are outside
    the model.) *)
Definition prop (d : PlotDatum) (k : string) : val :=
  if decide (k = "time") then VNum (time d) else get d k.

(** [String(n)] for an integer [n] (the exponent notation of numbers from
    [1e21] on is outside the model). *)
Definition numberToString (n : Z) : string := NilZero.string_of_int (Z.to_int n).

(** [String([lo, hi])], that is [[lo, hi].join(',')]. *)
Definition bandToString (lo hi : Z) : string :=
  numberToString lo +:+ "," +:+ numberToString hi.

(** lodash's [baseGt], [value > other].  Two numbers are compared as
    numbers.  An array is converted to its string first: two arrays are
    compared as strings, code unit by code unit, and an array and a number
    are compared through [Number("lo,hi")], which is [NaN], so that neither
    is greater than the other. *)
Definition baseGt (value other : val) : bool :=
  match value, other with
  | VNum a, VNum b => b <? a
  | VBand a1 a2, VBand b1 b2 => String.ltb (bandToString b1 b2) (bandToString a1 a2)
  | _, _ => false
  end.

(** One step of lodash's [baseExtremum]: [current] replaces [computed] when
    [current != null] and either nothing has been kept so far or
    [baseGt(current, computed)]. *)
Definition maxStep (computed current : val) : val :=
  match current with
  | VUndef => computed
  | _ =>
      match computed with
      | VUndef => current
      | _ => if baseGt current computed then current else computed
      end
  end.

(** [_.max(array)]: [undefined] entries are skipped, the result is
    [undefined] when nothing is left, and an array that comes before every
    number is kept. *)
Definition lodashMax (xs : list val) : val := fold_left maxStep xs VUndef.

(** [enabledPlots.filter((d) => d !== HospitalBeds && d !== ICUbeds)] *)
Definition dataKeys (enabledPlots : list string) : list string :=
  List.filter (λ d, negb (String.eqb d DATA_POINTS.HospitalBeds)
                    && negb (String.eqb d DATA_POINTS.ICUbeds)) enabledPlots.

(** [_.max(consolidatedPlotData.map((d) => _.max(dataKeys.map((k) => d[k]))))] *)
Definition yDataMax (enabledPlots : list string) (consolidated : list PlotDatum) : val :=
  lodashMax (map (λ d, lodashMax (map (λ k, prop d k) (dataKeys enabledPlots))) consolidated).

(** The upper end of the [YAxis] domain, [yDataMax * 1.1]; [None] is the
    [NaN] that [undefined * 1.1] and [[lo, hi] * 1.1] evaluate to. *)
Definition yAxisMax (m : val) : option Q :=
  match m with
  | VNum v => Some (inject_Z v * (11 # 10))%Q
  | _ => None
  end.

(** [_.minBy(plotData, 'time')] and [_.maxBy(plotData, 'time')]: the first
    element with the least (greatest) time, [undefined] on an empty array. *)
Definition minByTime (l : list PlotDatum) : option PlotDatum :=
  fold_left (λ res d, match res with
                      | None => Some d
                      | Some r => if time d <? time r then Some d else res
                      end) l None.

Definition maxByTime (l : list PlotDatum) : option PlotDatum :=
  fold_left (λ res d, match res with
                      | None => Some d
                      | Some r => if time r <? time d then Some d else res
                      end) l None.

(** [x!.time]: the non-null assertion is erased, the property read throws
    on [undefined]. *)
Definition timeOf (o : option PlotDatum) : outcome Z :=
  match o with
  | Some d => Returned (time d)
  | None => Threw
  end.

(** ** The mitigation overlay *)

(** [_.clamp(number, lower, upper)] *)
Definition clamp (number lower upper : Z) : Z :=
  let number := if number <=? upper then number else upper in
  if lower <=? number then number else lower.

(** The coordinates handed to a [ReferenceArea]. *)
Record ReferenceArea : Type := {
  x1 : Z;
  x2 : Z;
  y1 : Z;
  y2 : Z;
}.

Definition referenceArea (tMin tMax : Z) (interval : MitigationInterval) : ReferenceArea :=
  {| x1 := clamp (tMinOf interval) tMin tMax;
     x2 := clamp (tMaxOf interval) tMin tMax;
     y1 := 0;
     y2 := clamp (mitigationValue interval) 0 100 |}.

(** ** The component *)

Record Chart : Type := {
  chartData : list PlotDatum;        (* consolidatedPlotData *)
  chartYDataMax : val;               (* yDataMax *)
  chartTMin : Z;
  chartTMax : Z;
  chartAreas : list ReferenceArea;
}.

(** The body of [DeterministicLinePlot] up to the values the charts are
    given.  [sort] stands for [Array.prototype.sort] called with [byTime];
    [Returned None] is [return null]. *)
Definition render (sort : list PlotDatum → list PlotDatum)
    (props : Props) (enabledPlots : list string) : outcome (option Chart) :=
  match data props with
  | None => Returned None
  | Some t =>
      let nHospitalBeds := verifyPositive (populationHospitalBeds props) in
      let nICUBeds := verifyPositive (populationICUBeds props) in
      let! plotData := plotData enabledPlots nHospitalBeds nICUBeds t (caseCounts props) in
      if (length plotData =? 0)%nat then Returned None
      else
        let plotData := sort plotData in
        let consolidatedPlotData := consolidate plotData in
        let yDataMax := yDataMax enabledPlots consolidatedPlotData in
        let! tMin := timeOf (minByTime plotData) in
        let! tMax := timeOf (maxByTime plotData) in
        Returned (Some {|
          chartData := consolidatedPlotData;
          chartYDataMax := yDataMax;
          chartTMin := tMin;
          chartTMax := tMax;
          chartAreas := map (referenceArea tMin tMax) (mitigationIntervals props)
        |})
  end.

(** ** The legend *)

(** [plots.indexOf(k)]; [None] is [-1]. *)
Fixpoint indexOf (plots : list string) (k : string) : option nat :=
  match plots with
  | [] => None
  | p :: plots' => if String.eqb p k then Some 0%nat else S <$> indexOf plots' k
  end.

(** [plots.splice(i, 1)], where a start of [-1] designates the last element. *)
Definition splice1 (plots : list string) (i : option nat) : list string :=
  match i with
  | Some i => delete i plots
  | None => removelast plots
  end.

(** The [onClick] handler of the legend: the next [enabledPlots]. *)
Definition onClick (enabledPlots : list string) (dataKey : string) : list string :=
  if includes enabledPlots dataKey
  then splice1 enabledPlots (indexOf enabledPlots dataKey)
  else (enabledPlots ++ [dataKey])%list.

(** The states of [enabledPlots]: [useState(Object.values(DATA_POINTS))]
    followed by clicks.  The key of a click is left arbitrary here, which
    covers more than the entries the legend shows ([legendReachable]
    below). *)
Inductive reachable : list string → Prop :=
| reachable_init : reachable DATA_POINTS.values
| reachable_click enabledPlots dataKey :
    reachable enabledPlots → reachable (onClick enabledPlots dataKey).

(** One admissible [sort]: the stable insertion sort with the component's
    comparator. *)
Definition sortByTime : list PlotDatum → list PlotDatum := insertionSort byTime.

(** ** Notions used in the statements *)

(** The alignment of the three arrays of a trajectory. *)
Definition aligned (t : Trajectory) : Prop :=
  length (lower t) = length (mean t) ∧ length (upper t) = length (mean t).

(** What the component relies on when it calls [plotData.sort(byTime)]: the
    result holds the same elements, and no element is followed by one that
    the comparator places before it. *)
Definition sortsByTime (sort : list PlotDatum → list PlotDatum) : Prop :=
  ∀ l, sort l ≡ₚ l ∧ StronglySorted (λ a b, byTime a b ≤ 0) (sort l).

(** The records of [caseCounts] that survive the filter. *)
Definition filteredCounts (caseCounts : option (list EmpiricalDatum)) : list EmpiricalDatum :=
  default [] (nonEmptyCaseCounts <$> caseCounts).

(** The timestamps that enter the merge. *)
Definition inputTimes (t : Trajectory) (caseCounts : option (list EmpiricalDatum)) : list Z :=
  (map sampleTime (mean t) ++ map obsTime (filteredCounts caseCounts))%list.

(** The loop of [consolidate], read as a recursion on the elements that
    remain to be visited: [cur] is the last element of the array. *)
Fixpoint consolidateFrom (cur : PlotDatum) (l : list PlotDatum) : list PlotDatum :=
  match l with
  | [] => [cur]
  | d :: l' =>
      if decide (time d = time cur) then consolidateFrom (spread cur d) l'
      else cur :: consolidateFrom d l'
  end.

(** The values that count for the value axis: the numbers held by some
    datum under a key that is enabled and is not one of the two reference
    metrics. *)
Definition qualifies (enabledPlots : list string) (series : list PlotDatum) (v : Z) : Prop :=
  ∃ d k, d ∈ series ∧ k ∈ enabledPlots ∧
         k ≠ DATA_POINTS.HospitalBeds ∧ k ≠ DATA_POINTS.ICUbeds ∧
         prop d k = VNum v.

(** Two data that differ at most in the reference metrics. *)
Definition sameButReference (d d' : PlotDatum) : Prop :=
  ∀ k, k ≠ DATA_POINTS.HospitalBeds → k ≠ DATA_POINTS.ICUbeds → prop d k = prop d' k.

(** The enabled keys other than the reference metrics hold no band in the
    series: what is read for the value axis is a number or [undefined]. *)
Definition numericUnder (enabledPlots : list string) (series : list PlotDatum) : Prop :=
  ∀ d k lo hi, d ∈ series → k ∈ enabledPlots →
    k ≠ DATA_POINTS.HospitalBeds → k ≠ DATA_POINTS.ICUbeds →
    prop d k ≠ VBand lo hi.

(** The rest of this section serves the proofs about [yDataMax]: on
    numbers and [undefined], [_.max] is the greatest number.

    The number a value holds, and the value of an optional number. *)
Definition numOf (v : val) : option Z :=
  match v with
  | VNum n => Some n
  | _ => None
  end.

Definition ofNum (o : option Z) : val :=
  match o with
  | Some n => VNum n
  | None => VUndef
  end.

(** The greatest of the numbers of a list of optional numbers. *)
Definition numMaxStep (computed current : option Z) : option Z :=
  match current, computed with
  | None, _ => computed
  | Some c, None => Some c
  | Some c, Some m => if m <? c then Some c else computed
  end.

Definition numMax (xs : list (option Z)) : option Z := fold_left numMaxStep xs None.

Definition numAt (d : PlotDatum) (k : string) : option Z := numOf (prop d k).

(** The greatest number held under an enabled key that is not a reference
    metric. *)
Definition numDataMax (enabledPlots : list string) (series : list PlotDatum) : option Z :=
  numMax (map (λ d, numMax (map (λ k, numAt d k) (dataKeys enabledPlots))) series).

(** ** Statements in the spec's words *)

(** The window delta law: the delta at [i] is defined exactly when
    [i >= 3], both counts are defined and their difference is positive, and
    it is that difference. *)
Definition windowDeltaLaw (cc : list EmpiricalDatum) (i : nat) : Prop :=
  ∀ v, newCases cc i = Returned (VNum v) ↔
       (3 ≤ i)%nat ∧
       ∃ a b, (cases <$> cc !! i) = Some (Some a) ∧
              (cases <$> cc !! (i - 3)%nat) = Some (Some b) ∧
              0 < a - b ∧ v = a - b.


(** Field-wise union: a defined value of the later point [b] overwrites or
    adds the field, and a field that [b] holds as undefined, or does not
    hold, leaves the value of [a] in place. *)
Definition fieldWiseUnion (a b m : PlotDatum) : Prop :=
  ∀ k, (get b k ≠ VUndef → get m k = get b k) ∧
       (get b k = VUndef → get m k = get a k).

(** Toggle safety: after the click that removes [k], the recomputation
    returns and no datum holds a value under [k]. *)
Definition toggleSafe (sort : list PlotDatum → list PlotDatum) (props : Props)
    (enabledPlots : list string) (k : string) : Prop :=
  ∃ r, render sort props (onClick enabledPlots k) = Returned r ∧
       ∀ chart, r = Some chart → ∀ d, d ∈ chartData chart → get d k = VUndef.

(** The non-zero display rule, for the value [v] a point holds under the
    key of a metric whose rounded total is [r]: the value is [r] when the
    metric is enabled and [r] is not zero, and there is no value when [r]
    is zero or the metric is disabled. *)
Definition nonZeroDisplay (enabled : bool) (r : Z) (v : val) : Prop :=
  (enabled = true → r ≠ 0 → v = VNum r) ∧
  (enabled = true → r = 0 → v = VUndef) ∧
  (enabled = false → v = VUndef).

(** ** Sample inputs *)

Definition compartment (n : Z) : Compartment := {| total := inject_Z n |}.

(** A sample at time [t] with [s] susceptible and [i] infectious. *)
Definition sample (t s i : Z) : Sample :=
  {| sampleTime := t;
     current := {| susceptible := compartment s; infectious := compartment i;
                   severe := compartment 0; critical := compartment 0;
                   overflow := compartment 0 |};
     cumulative := {| recovered := compartment 0; fatality := compartment 0 |} |}.

(** A record at time [t] with [c] cases and [d] deaths. *)
Definition record (t : Z) (c d : option Z) : EmpiricalDatum :=
  {| obsTime := t; cases := c; deaths := d; icu := None; hospitalized := None |}.

(** Four filtered records; the first counts no case and one death. *)
Definition windowSample : list EmpiricalDatum :=
  [ record 0 (Some 0) (Some 1); record 1 (Some 1) None;
    record 2 (Some 2) None; record 3 (Some 5) None ].

(** Four records with rising case counts. *)
Definition risingCounts : list EmpiricalDatum :=
  [ record 0 (Some 1) None; record 1 (Some 2) None;
    record 2 (Some 3) None; record 3 (Some 9) None ].

(** One sample whose mean counts no susceptible. *)
Definition flatTrajectory : Trajectory :=
  {| mean := [sample 0 0 7]; lower := [sample 0 0 5]; upper := [sample 0 3 9] |}.

(** One sample with a different total in every compartment: a half that
    rounds up, a zero, and a quarter that rounds to zero. *)
Definition mixedSample : Sample :=
  {| sampleTime := 2;
     current := {| susceptible := {| total := 21 # 2 |};
                   infectious := compartment 12;
                   severe := compartment 13;
                   critical := compartment 0;
                   overflow := {| total := 1 # 4 |} |};
     cumulative := {| recovered := compartment 16; fatality := compartment 17 |} |}.

Definition mixedTrajectory : Trajectory :=
  {| mean := [mixedSample]; lower := [mixedSample]; upper := [mixedSample] |}.

(** Every computed metric but [severe]. *)
Definition allButSevere : list string :=
  [ "susceptible"; "infectious"; "critical"; "overflow"; "recovered"; "fatality" ].

(** Two samples with the same timestamp. *)
Definition tiedTrajectory : Trajectory :=
  {| mean := [sample 0 100 0; sample 0 0 100];
     lower := [sample 0 90 0; sample 0 0 90];
     upper := [sample 0 110 0; sample 0 0 110] |}.

(** A trajectory whose [lower] and [upper] are too short. *)
Definition shortTrajectory : Trajectory :=
  {| mean := [sample 0 100 0]; lower := []; upper := [] |}.

(** Scenario A of the spec, with observations and an overlay added. *)
Definition sampleTrajectory : Trajectory :=
  {| mean := [sample 0 100 0; sample 1 90 0];
     lower := [sample 0 95 0; sample 1 80 0];
     upper := [sample 0 105 0; sample 1 95 0] |}.

Definition sampleProps : Props :=
  {| data := Some sampleTrajectory;
     populationHospitalBeds := 10;
     populationICUBeds := 0;
     mitigationIntervals := [ {| tMinOf := -5; tMaxOf := 7; mitigationValue := 120 |} ];
     caseCounts := Some [ record 1 (Some 10) None; record 2 None None;
                          record 3 (Some 0) (Some 1) ] |}.

Definition risingProps : Props :=
  {| data := Some sampleTrajectory;
     populationHospitalBeds := 10;
     populationICUBeds := 0;
     mitigationIntervals := [];
     caseCounts := Some risingCounts |}.

(** The merged series of scenario A, and the same with other capacities. *)
Definition scenarioA : list PlotDatum :=
  [ mkDatum 0 {[ "susceptible" := VNum 100; "hospitalBeds" := VNum 500 ]};
    mkDatum 1 {[ "susceptible" := VNum 90; "hospitalBeds" := VNum 500 ]} ].

Definition scenarioA' : list PlotDatum :=
  [ mkDatum 0 {[ "susceptible" := VNum 100; "hospitalBeds" := VNum 7000 ]};
    mkDatum 1 {[ "susceptible" := VNum 90 ]} ].

(** Scenario C of the spec: a computed and an observed datum at [t = 5]. *)
Definition computedAt5 : PlotDatum := mkDatum 5 {[ "infectious" := VNum 20 ]}.

Definition observedAt5 : PlotDatum := mkDatum 5 {[ "cases" := VNum 7 ]}.

(** Scenarios A, B and E of the spec. *)
Definition scenarioAProps : Props :=
  {| data := Some {| mean := [sample 0 100 0; sample 1 90 0];
                     lower := [sample 0 100 0; sample 1 90 0];
                     upper := [sample 0 100 0; sample 1 90 0] |};
     populationHospitalBeds := 0;
     populationICUBeds := 0;
     mitigationIntervals := [];
     caseCounts := None |}.

Definition scenarioB : list EmpiricalDatum :=
  [ record 0 (Some 10) None; record 1 (Some 20) None;
    record 2 (Some 30) None; record 3 (Some 50) None ].

Definition scenarioEProps : Props :=
  {| data := Some {| mean := []; lower := []; upper := [] |};
     populationHospitalBeds := 0;
     populationICUBeds := 0;
     mitigationIntervals := [];
     caseCounts := Some [] |}.

(** ** Further parts of the component *)

(** The class name [legendFormatter] gives the entry of [dataKey]. *)
Definition legendFormatter (enabledPlots : list string) (dataKey : string) : string :=
  if includes enabledPlots dataKey then "legend" else "legend-inactive".

(** The domain handed to the value axis:
    [logScale ? [1, yDataMax * 1.1] : [0, yDataMax * 1.1]]. *)
Definition yDomain (logScale : bool) (yDataMax : val) : Z * option Q :=
  (if logScale then 1 else 0, yAxisMax yDataMax).

(** No two neighbours of the array have the same timestamp. *)
Definition untied (l : list PlotDatum) : Prop :=
  Sorted (λ a b, time a ≠ time b) l.

(** Props without a negative total in the mean trajectory and without a
    negative count in the observations. *)
Definition nonNegativeCounts (d : EmpiricalDatum) : Prop :=
  ∀ n, cases d = Some n ∨ deaths d = Some n ∨ icu d = Some n ∨ hospitalized d = Some n →
       0 ≤ n.

Definition nonNegative (props : Props) : Prop :=
  (∀ t x m, data props = Some t → x ∈ mean t → (0 <= totalOf m x)%Q) ∧
  (∀ cc d, caseCounts props = Some cc → d ∈ cc → nonNegativeCounts d).

(** [scatterToPlot]: the keys of the scatter series offered to the chart,
    read off [observations.length] and [countObservations]. *)
Definition scatterToPlot (observations : list PlotDatum) (count : Counts) : list string :=
  if (length observations =? 0)%nat then []
  else
    ((if (countCases count =? 0)%nat then [] else [DATA_POINTS.ObservedCases]) ++
     (if (countNewCases count =? 0)%nat then [] else [DATA_POINTS.ObservedNewCases]) ++
     (if (countHospitalized count =? 0)%nat then [] else [DATA_POINTS.ObservedHospitalized]) ++
     (if (countICU count =? 0)%nat then [] else [DATA_POINTS.ObservedICU]) ++
     (if (countObservedDeaths count =? 0)%nat then [] else [DATA_POINTS.ObservedDeaths]))%list.

(** Some computed metric is enabled. *)
Definition someComputed (enabledPlots : list string) : Prop :=
  ∃ m : Computed, keyOf m ∈ enabledPlots.

(** [linesToPlot] and [areasToPlot]: the key and the legend type of each
    series (names and colours are left out). *)
Record LineProps : Type := {
  key : string;
  legendType : string;
}.

Definition linesToPlot : list LineProps :=
  [ {| key := DATA_POINTS.Susceptible; legendType := "line" |};
    {| key := DATA_POINTS.Recovered; legendType := "line" |};
    {| key := DATA_POINTS.Infectious; legendType := "line" |};
    {| key := DATA_POINTS.Severe; legendType := "line" |};
    {| key := DATA_POINTS.Critical; legendType := "line" |};
    {| key := DATA_POINTS.Overflow; legendType := "line" |};
    {| key := DATA_POINTS.Fatalities; legendType := "line" |};
    {| key := DATA_POINTS.HospitalBeds; legendType := "none" |};
    {| key := DATA_POINTS.ICUbeds; legendType := "none" |} ].

Definition areasToPlot : list LineProps :=
  [ {| key := DATA_POINTS.Susceptible +:+ "_area"; legendType := "none" |};
    {| key := DATA_POINTS.Infectious +:+ "_area"; legendType := "none" |};
    {| key := DATA_POINTS.Severe +:+ "_area"; legendType := "none" |};
    {| key := DATA_POINTS.Critical +:+ "_area"; legendType := "none" |};
    {| key := DATA_POINTS.Overflow +:+ "_area"; legendType := "none" |};
    {| key := DATA_POINTS.Recovered +:+ "_area"; legendType := "none" |};
    {| key := DATA_POINTS.Fatalities +:+ "_area"; legendType := "none" |} ].

(** No key of a band is enabled.  The bands have no entry in the legend,
    so that no click enables one of their keys. *)
Definition bandFree (enabledPlots : list string) : Prop :=
  ∀ k, k ∈ enabledPlots → k ∉ map key areasToPlot.

(** The own properties of a datum: [time] and the properties kept in
    [fields]. *)
Definition ownKey (d : PlotDatum) (k : string) : Prop :=
  k = "time" ∨ is_Some (fields d !! k).

(** The keys of the entries the legend shows: the lines whose legend type
    is not ['none'] and the scatter series.  (Which scatter series are
    there depends on the observations; all five are listed.) *)
Definition legendKeys : list string :=
  (map key (List.filter (λ l, negb (String.eqb (legendType l) "none")) linesToPlot) ++
   [ DATA_POINTS.ObservedCases; DATA_POINTS.ObservedNewCases;
     DATA_POINTS.ObservedHospitalized; DATA_POINTS.ObservedICU;
     DATA_POINTS.ObservedDeaths ])%list.

(** The states of [enabledPlots] when every click is a click on an entry
    the legend shows. *)
Inductive legendReachable : list string → Prop :=
| legendReachable_init : legendReachable DATA_POINTS.values
| legendReachable_click enabledPlots dataKey :
    legendReachable enabledPlots → dataKey ∈ legendKeys →
    legendReachable (onClick enabledPlots dataKey).

(** ** Tactics *)

(** Case analysis on the membership in a list given by its elements. *)
Ltac list_case H :=
  repeat (apply elem_of_cons in H as [->|H]); [..|by apply elem_of_nil in H].

Ltac unfold_keys :=
  cbv [DATA_POINTS.Exposed DATA_POINTS.Susceptible DATA_POINTS.Infectious
       DATA_POINTS.Severe DATA_POINTS.Critical DATA_POINTS.Overflow
       DATA_POINTS.Recovered DATA_POINTS.Fatalities DATA_POINTS.CumulativeCases
       DATA_POINTS.NewCases DATA_POINTS.HospitalBeds DATA_POINTS.ICUbeds
       DATA_POINTS.ObservedDeaths DATA_POINTS.ObservedCases
       DATA_POINTS.ObservedHospitalized DATA_POINTS.ObservedICU
       DATA_POINTS.ObservedNewCases] in *.

(** Membership of a given element in a given list. *)
Ltac in_list := apply (bool_decide_unpack _); by vm_compute.

(** * Properties *)

(** ** The outcome monad and indexed maps *)

Lemma deref_lookup {A} (xs : list A) i x : xs !! i = Some x → deref xs i = Returned x.
Proof. unfold deref. by intros ->. Qed.

Lemma deref_Returned {A} (xs : list A) i x : deref xs i = Returned x → xs !! i = Some x.
Proof. unfold deref. destruct (xs !! i); by inversion 1. Qed.

Lemma deref_lt {A} (xs : list A) i : (i < length xs)%nat → ∃ x, deref xs i = Returned x.
Proof.
  intros Hi. destruct (lookup_lt_is_Some_2 xs i Hi) as [x Hx].
  exists x. by apply deref_lookup.
Qed.

Lemma mapFrom_inv {A B} (f : A → nat → outcome B) xs : ∀ n ys,
  mapFrom f n xs = Returned ys →
  length ys = length xs ∧
  ∀ i x, xs !! i = Some x → ∃ y, ys !! i = Some y ∧ f x (n + i)%nat = Returned y.
Proof.
  induction xs as [|x xs IH]; intros n ys; simpl.
  - inversion 1. split; [done|]. intros i x Hx. by rewrite lookup_nil in Hx.
  - destruct (f x n) as [|y] eqn:Hy; simpl; [done|].
    destruct (mapFrom f (S n) xs) as [|ys'] eqn:Hys; simpl; [done|].
    inversion 1; subst. destruct (IH _ _ Hys) as [Hlen Hall].
    split; [simpl; by rewrite Hlen|].
    intros [|i] x' Hx'; simpl in *.
    + inversion Hx'; subst. exists y. by rewrite Nat.add_0_r.
    + destruct (Hall i x' Hx') as (y' & Hy' & Hf). exists y'.
      split; [done|]. by rewrite Nat.add_succ_r.
Qed.

Lemma mapFrom_total {A B} (f : A → nat → outcome B) xs : ∀ n,
  (∀ i x, xs !! i = Some x → ∃ y, f x (n + i)%nat = Returned y) →
  ∃ ys, mapFrom f n xs = Returned ys.
Proof.
  induction xs as [|x xs IH]; intros n Hf; simpl; [by eexists|].
  destruct (Hf 0%nat x eq_refl) as [y Hy]. rewrite Nat.add_0_r in Hy.
  rewrite Hy. simpl.
  destruct (IH (S n)) as [ys Hys].
  { intros i x' Hx'. destruct (Hf (S i) x' Hx') as [y' Hy'].
    exists y'. by rewrite Nat.add_succ_r in Hy'. }
  rewrite Hys. simpl. by eexists.
Qed.

Lemma mapIdx_inv {A B} (f : A → nat → outcome B) xs ys :
  mapIdx f xs = Returned ys →
  length ys = length xs ∧
  ∀ i x, xs !! i = Some x → ∃ y, ys !! i = Some y ∧ f x i = Returned y.
Proof. apply mapFrom_inv. Qed.

Lemma mapIdx_total {A B} (f : A → nat → outcome B) xs :
  (∀ i x, xs !! i = Some x → ∃ y, f x i = Returned y) →
  ∃ ys, mapIdx f xs = Returned ys.
Proof. intros Hf. apply mapFrom_total. intros i x Hx. simpl. eauto. Qed.

(** When the callback reads nothing but the element, the results are read
    off element by element. *)
Lemma mapIdx_map {A B C} (f : A → nat → outcome B) (g : B → C) (h : A → C) xs ys :
  mapIdx f xs = Returned ys →
  (∀ x i y, f x i = Returned y → g y = h x) →
  map g ys = map h xs.
Proof.
  intros Hm Hgh. destruct (mapIdx_inv _ _ _ Hm) as [Hlen Hall].
  apply list_eq. intros i. rewrite !list_lookup_fmap.
  destruct (xs !! i) as [x|] eqn:Hx; simpl.
  - destruct (Hall i x Hx) as (y & -> & Hy). simpl. f_equal. eauto.
  - apply lookup_ge_None in Hx. rewrite lookup_ge_None_2; [done|lia].
Qed.

(** ** Truthiness *)

Lemma truthy_Some o : truthy o = true ↔ ∃ n, o = Some n ∧ n ≠ 0.
Proof.
  destruct o as [n|]; simpl.
  - rewrite negb_true_iff, Z.eqb_neq. split; [eauto|]. by intros (? & [= <-] & ?).
  - split; [done|]. by intros (? & ? & ?).
Qed.

Lemma orUndefined_nonzero n : n ≠ 0 → orUndefined n = VNum n.
Proof. unfold orUndefined. intros. by case_decide. Qed.

Lemma orUndefined_zero : orUndefined 0 = VUndef.
Proof. done. Qed.

Lemma verifyPositive_VNum x v : verifyPositive x = VNum v ↔ 0 < x ∧ v = x.
Proof.
  unfold verifyPositive. destruct (0 <? x) eqn:H.
  - apply Z.ltb_lt in H. split; [by intros [= <-]|]. by intros [_ ->].
  - apply Z.ltb_ge in H. split; [done|]. lia.
Qed.

(** ** The rolling window *)

(** Inside the array [newCases] reads only elements that are there. *)
Lemma newCases_returns (cc : list EmpiricalDatum) (i : nat) :
  (i < length cc)%nat → ∃ v, newCases cc i = Returned v.
Proof.
  intros Hi. unfold newCases, caseStep.
  destruct (3 <=? i)%nat eqn:H3; [|by eexists].
  apply Nat.leb_le in H3.
  destruct (deref_lt cc i Hi) as [ci ->].
  destruct (deref_lt cc (i - 3) ltac:(lia)) as [cj ->]. simpl.
  destruct (truthy (cases ci)), (truthy (cases cj)); by eexists.
Qed.

(** C3, counterexample: on a filtered sequence whose first record counts
    zero cases and one death, the counts at indices 3 and 0 are both
    defined and differ by 5, yet [newCases] is [undefined] at index 3. *)
Lemma newCases_zero_count_counterexample :
  nonEmptyCaseCounts windowSample = windowSample ∧
  newCases windowSample 3 = Returned VUndef ∧
  ¬ windowDeltaLaw windowSample 3.
Proof.
  split; [reflexivity|]. split; [reflexivity|].
  intros H. destruct (H 5) as [_ H']. 
  assert (newCases windowSample 3 = Returned (VNum 5)) as Habs.
  { apply H'. split; [lia|]. exists 5, 0. repeat split; reflexivity || lia. }
  vm_compute in Habs. discriminate.
Qed.

(** C3, amended: at an index [i] of [cc], [newCases cc i] never throws; it
    is a number exactly when [i >= 3], [cc[i].cases] and [cc[i-3].cases]
    are both truthy (defined and not zero) and their difference is
    positive, and then it is that difference; otherwise it is [undefined]. *)
Theorem newCases_window_law (cc : list EmpiricalDatum) (i : nat) :
  (i < length cc)%nat →
  (∀ v, newCases cc i = Returned (VNum v) ↔
        (3 ≤ i)%nat ∧
        ∃ a b, (cases <$> cc !! i) = Some (Some a) ∧
               (cases <$> cc !! (i - 3)%nat) = Some (Some b) ∧
               a ≠ 0 ∧ b ≠ 0 ∧ 0 < a - b ∧ v = a - b) ∧
  (newCases cc i = Returned VUndef ∨ ∃ v, newCases cc i = Returned (VNum v)).
Proof.
  intros Hi. unfold newCases, caseStep.
  destruct (3 <=? i)%nat eqn:H3.
  2:{ apply Nat.leb_gt in H3. split; [|by left].
      intros v. split; [done|]. intros [? _]. lia. }
  apply Nat.leb_le in H3.
  destruct (lookup_lt_is_Some_2 cc i Hi) as [ci Hci].
  destruct (lookup_lt_is_Some_2 cc (i - 3)%nat ltac:(lia)) as [cj Hcj].
  rewrite (deref_lookup _ _ _ Hci), Hci, Hcj. simpl.
  destruct (cases ci) as [a|] eqn:Ha; simpl.
  2:{ split; [|by left]. intros v. split; [done|]. by intros (_ & ? & ? & [=] & _). }
  destruct (Z.eqb_spec a 0) as [->|Hna]; simpl.
  { split; [|by left]. intros v. split; [done|].
    intros (_ & ? & ? & [= <-] & _ & ? & _). done. }
  rewrite (deref_lookup _ _ _ Hcj). simpl.
  destruct (cases cj) as [b|] eqn:Hb; simpl.
  2:{ split; [|by left]. intros v. split; [done|]. by intros (_ & ? & ? & _ & [=] & _). }
  destruct (Z.eqb_spec b 0) as [->|Hnb]; simpl.
  { split; [|by left]. intros v. split; [done|].
    intros (_ & ? & ? & _ & [= <-] & _ & ? & _). done. }
  split.
  - intros v. split.
    + intros [= Hv]. apply verifyPositive_VNum in Hv as [Hpos ->].
      split; [done|]. exists a, b. by repeat split.
    + intros (_ & a' & b' & [= <-] & [= <-] & _ & _ & Hpos & ->).
      f_equal. by apply verifyPositive_VNum.
  - unfold verifyPositive. destruct (0 <? a - b); [right; by eexists|by left].
Qed.

Lemma newCases_window_law_witness :
  (∀ v, newCases windowSample 3 = Returned (VNum v) ↔
        (3 ≤ 3)%nat ∧
        ∃ a b, (cases <$> windowSample !! 3%nat) = Some (Some a) ∧
               (cases <$> windowSample !! (3 - 3)%nat) = Some (Some b) ∧
               a ≠ 0 ∧ b ≠ 0 ∧ 0 < a - b ∧ v = a - b) ∧
  (newCases windowSample 3 = Returned VUndef ∨
   ∃ v, newCases windowSample 3 = Returned (VNum v)).
Proof. apply (newCases_window_law windowSample 3). simpl. lia. Defined.

(** ** The filter on observation records *)

Lemma nonEmptyCaseCounts_elem (cc : list EmpiricalDatum) d :
  d ∈ nonEmptyCaseCounts cc ↔ d ∈ cc ∧ hasAny d = true.
Proof.
  unfold nonEmptyCaseCounts. rewrite !list_elem_of_In. apply filter_In.
Qed.

Lemma nonEmptyCaseCounts_idemp (cc : list EmpiricalDatum) :
  nonEmptyCaseCounts (nonEmptyCaseCounts cc) = nonEmptyCaseCounts cc.
Proof.
  unfold nonEmptyCaseCounts. induction cc as [|d cc IH]; simpl; [done|].
  destruct (hasAny d) eqn:Hd; simpl; [|done]. by rewrite Hd, IH.
Qed.

Lemma hasAny_true d :
  hasAny d = true ↔
  truthy (cases d) = true ∨ truthy (deaths d) = true ∨
  truthy (icu d) = true ∨ truthy (hospitalized d) = true.
Proof. unfold hasAny. rewrite !orb_true_iff. tauto. Qed.

Lemma observationDatum_returns en nH nI cc d i :
  (i < length cc)%nat →
  ∃ nc, newCases cc i = Returned nc ∧
        ∃ p, observationDatum en nH nI cc d i = Returned p ∧
             time p = obsTime d ∧
             get p "newCases" = (if includes en "newCases" then nc else VUndef).
Proof.
  intros Hi. destruct (newCases_returns cc i Hi) as [nc Hnc].
  exists nc. split; [done|]. unfold observationDatum.
  change DATA_POINTS.ObservedNewCases with "newCases".
  destruct (includes en "newCases"); [rewrite Hnc|]; simpl;
    (eexists; split; [done|]); split; done.
Qed.

Lemma observations_returns en nH nI (cc : list EmpiricalDatum) :
  ∃ obs, observations en nH nI (Some cc) = Returned obs.
Proof.
  unfold observations. apply mapIdx_total. intros i d Hd.
  apply lookup_lt_Some in Hd.
  destruct (observationDatum_returns en nH nI (nonEmptyCaseCounts cc) d i Hd)
    as (_ & _ & p & Hp & _). eauto.
Qed.

Lemma observations_time en nH nI (cc : list EmpiricalDatum) obs :
  observations en nH nI (Some cc) = Returned obs →
  map time obs = map obsTime (nonEmptyCaseCounts cc).
Proof.
  intros Hobs. eapply mapIdx_map; [exact Hobs|]. intros d i p.
  unfold observationDatum. destruct (includes _ _); [destruct (newCases _ _)|];
    simpl; try done; by intros [= <-].
Qed.

(** C9: a record whose [cases], [deaths], [icu] and [hospitalized] are all
    falsy is dropped by the filter and every surviving record has one of the
    four truthy; the observation data are one datum per surviving record, in
    order, so that a dropped record contributes none; the rolling window and
    the counts index the filtered sequence, and dropping the empty records
    beforehand changes neither the data nor the counts. *)
Theorem observations_over_filtered (enabledPlots : list string) (nHospitalBeds nICUBeds : val)
    (cc : list EmpiricalDatum) :
  (∀ d, d ∈ nonEmptyCaseCounts cc ↔
        d ∈ cc ∧ (truthy (cases d) = true ∨ truthy (deaths d) = true ∨
                  truthy (icu d) = true ∨ truthy (hospitalized d) = true)) ∧
  ∃ obs counts,
    observations enabledPlots nHospitalBeds nICUBeds (Some cc) = Returned obs ∧
    map time obs = map obsTime (nonEmptyCaseCounts cc) ∧
    (∀ i d, obs !! i = Some d →
       ∃ nc, newCases (nonEmptyCaseCounts cc) i = Returned nc ∧
             get d "newCases" = (if includes enabledPlots "newCases" then nc else VUndef)) ∧
    observations enabledPlots nHospitalBeds nICUBeds (Some (nonEmptyCaseCounts cc))
      = Returned obs ∧
    countObservations (Some cc) = Returned counts ∧
    countObservations (Some (nonEmptyCaseCounts cc)) = Returned counts.
Proof.
  split.
  { intros d. rewrite nonEmptyCaseCounts_elem. by rewrite hasAny_true. }
  destruct (observations_returns enabledPlots nHospitalBeds nICUBeds cc) as [obs Hobs].
  assert (∃ deltas, mapIdx (λ _ i, newCases (nonEmptyCaseCounts cc) i)
                      (nonEmptyCaseCounts cc) = Returned deltas) as [deltas Hdeltas].
  { apply mapIdx_total. intros i d Hd. apply lookup_lt_Some in Hd.
    by apply newCases_returns. }
  eexists obs, _. split; [done|].
  pose proof Hobs as Hmap. unfold observations in Hmap.
  destruct (mapIdx_inv _ _ _ Hmap) as [Hlen Hall].
  split; [|split; [|split; [|split]]].
  - by apply (observations_time _ _ _ _ _ Hobs).
  - intros i p Hp.
    assert (i < length (nonEmptyCaseCounts cc))%nat as Hi.
    { rewrite <- Hlen. by eapply lookup_lt_Some. }
    destruct (lookup_lt_is_Some_2 _ _ Hi) as [d Hd].
    destruct (Hall i d Hd) as (p' & Hp' & Hdat).
    assert (p' = p) as -> by congruence.
    destruct (observationDatum_returns enabledPlots nHospitalBeds nICUBeds
                (nonEmptyCaseCounts cc) d i Hi) as (nc & Hnc & p'' & Hp'' & _ & Hget).
    exists nc. split; [done|]. congruence.
  - unfold observations. by rewrite nonEmptyCaseCounts_idemp.
  - unfold countObservations. rewrite Hdeltas. simpl. reflexivity.
  - unfold countObservations. rewrite nonEmptyCaseCounts_idemp, Hdeltas. simpl. reflexivity.
Qed.

(** ** The trajectory data *)

Lemma areaValue_aligned en k f (lower upper : list Sample) i l u :
  lower !! i = Some l → upper !! i = Some u →
  areaValue en k f lower upper i
  = Returned (if includes en k
              then VBand (Math_round (f l)) (Math_round (f u)) else VUndef).
Proof.
  intros Hl Hu. unfold areaValue.
  rewrite (deref_lookup _ _ _ Hl), (deref_lookup _ _ _ Hu).
  by destruct (includes en k).
Qed.

(** With [lower[i]] and [upper[i]] in place the callback returns, and every
    property of its datum is known. *)
Lemma trajectoryDatum_aligned en nH nI (lower upper : list Sample) x i l u :
  lower !! i = Some l → upper !! i = Some u →
  ∃ d, trajectoryDatum en nH nI lower upper x i = Returned d ∧
       time d = sampleTime x ∧
       (∀ m, get d (keyOf m) = pointValue en (keyOf m) (totalOf m x)) ∧
       (∀ m, get d (areaKeyOf m)
             = if includes en (keyOf m)
               then VBand (Math_round (totalOf m l)) (Math_round (totalOf m u))
               else VUndef) ∧
       get d "hospitalBeds" = nH ∧ get d "ICUbeds" = nI ∧
       (∀ k, k ∈ [ "exposed"; "cumulativeCases"; "newCases"; "observedDeaths";
                   "cases"; "currentHospitalized"; "ICU" ] →
             fields d !! k = None).
Proof.
  intros Hl Hu. unfold trajectoryDatum.
  rewrite !(areaValue_aligned _ _ _ _ _ _ _ _ Hl Hu). simpl.
  eexists. split; [done|]. split; [done|].
  split; [by intros []|]. split; [by intros []|].
  split; [done|]. split; [done|].
  intros k Hk. repeat (apply elem_of_cons in Hk as [->|Hk]; [done|]).
  by apply elem_of_nil in Hk.
Qed.

Lemma trajectoryDatum_inv en nH nI (lower upper : list Sample) x i d :
  trajectoryDatum en nH nI lower upper x i = Returned d →
  time d = sampleTime x ∧
  (∀ m, get d (keyOf m) = pointValue en (keyOf m) (totalOf m x)) ∧
  get d "hospitalBeds" = nH ∧ get d "ICUbeds" = nI ∧
  (∀ m, includes en (keyOf m) = false → get d (areaKeyOf m) = VUndef) ∧
  (∀ k, k ∈ [ "exposed"; "cumulativeCases"; "newCases"; "observedDeaths";
              "cases"; "currentHospitalized"; "ICU" ] →
        fields d !! k = None).
Proof.
  unfold trajectoryDatum.
  destruct (areaValue en (keyOf Susceptible) _ _ _ _) as [|a1] eqn:H1; [done|].
  destruct (areaValue en (keyOf Infectious) _ _ _ _) as [|a2] eqn:H2; [done|].
  destruct (areaValue en (keyOf Severe) _ _ _ _) as [|a3] eqn:H3; [done|].
  destruct (areaValue en (keyOf Critical) _ _ _ _) as [|a4] eqn:H4; [done|].
  destruct (areaValue en (keyOf Overflow) _ _ _ _) as [|a5] eqn:H5; [done|].
  destruct (areaValue en (keyOf Recovered) _ _ _ _) as [|a6] eqn:H6; [done|].
  destruct (areaValue en (keyOf Fatalities) _ _ _ _) as [|a7] eqn:H7; [done|].
  simpl. intros [= <-]. split; [done|]. split; [by intros []|].
  split; [done|]. split; [done|]. split.
  - intros m Hm. unfold areaValue in *.
    destruct m; rewrite Hm in *; by simplify_eq.
  - intros k Hk. repeat (apply elem_of_cons in Hk as [->|Hk]; [done|]).
    by apply elem_of_nil in Hk.
Qed.

Lemma trajectoryData_returns en nH nI t :
  aligned t →
  ∃ pts, trajectoryData en nH nI t = Returned pts ∧
         length pts = length (mean t) ∧
         ∀ i x, mean t !! i = Some x →
           ∃ d l u, pts !! i = Some d ∧ lower t !! i = Some l ∧ upper t !! i = Some u ∧
                    trajectoryDatum en nH nI (lower t) (upper t) x i = Returned d.
Proof.
  intros [Hlo Hup]. unfold trajectoryData.
  destruct (mapIdx_total
              (trajectoryDatum en nH nI (lower t) (upper t)) (mean t)) as [pts Hpts].
  { intros i x Hx. apply lookup_lt_Some in Hx.
    destruct (lookup_lt_is_Some_2 (lower t) i ltac:(lia)) as [l Hl].
    destruct (lookup_lt_is_Some_2 (upper t) i ltac:(lia)) as [u Hu].
    destruct (trajectoryDatum_aligned en nH nI _ _ x i l u Hl Hu) as (d & Hd & _).
    eauto. }
  exists pts. split; [done|]. destruct (mapIdx_inv _ _ _ Hpts) as [Hlen Hall].
  split; [done|]. intros i x Hx. destruct (Hall i x Hx) as (d & Hd & Hdat).
  apply lookup_lt_Some in Hx.
  destruct (lookup_lt_is_Some_2 (lower t) i ltac:(lia)) as [l Hl].
  destruct (lookup_lt_is_Some_2 (upper t) i ltac:(lia)) as [u Hu].
  by exists d, l, u.
Qed.

(** C10: when [mean], [lower] and [upper] have the same length, [lower[i]]
    and [upper[i]] are in bounds at every index [i] of [mean], and the
    normalization returns, with one datum per index, whatever the enabled
    set is. *)
Theorem trajectoryData_total (t : Trajectory) :
  aligned t →
  (∀ i, (i < length (mean t))%nat →
        ∃ l u, deref (lower t) i = Returned l ∧ deref (upper t) i = Returned u) ∧
  ∀ enabledPlots nHospitalBeds nICUBeds,
    ∃ pts, trajectoryData enabledPlots nHospitalBeds nICUBeds t = Returned pts ∧
           length pts = length (mean t).
Proof.
  intros Hal. split.
  - intros i Hi. destruct Hal as [Hlo Hup].
    destruct (deref_lt (lower t) i ltac:(lia)) as [l Hl].
    destruct (deref_lt (upper t) i ltac:(lia)) as [u Hu]. eauto.
  - intros en nH nI.
    destruct (trajectoryData_returns en nH nI t Hal) as (pts & Hpts & Hlen & _). eauto.
Qed.

Lemma trajectoryData_total_witness :
  (∀ i, (i < length (mean flatTrajectory))%nat →
        ∃ l u, deref (lower flatTrajectory) i = Returned l ∧
               deref (upper flatTrajectory) i = Returned u) ∧
  ∀ enabledPlots nHospitalBeds nICUBeds,
    ∃ pts, trajectoryData enabledPlots nHospitalBeds nICUBeds flatTrajectory
           = Returned pts ∧
           length pts = length (mean flatTrajectory).
Proof.
  apply (trajectoryData_total flatTrajectory). split; reflexivity.
Defined.

(** The alignment is what keeps the reads in bounds: with a shorter
    [lower] the first enabled band throws, and with no computed metric
    enabled nothing is read at all. *)
Lemma trajectoryData_short_lower :
  trajectoryData DATA_POINTS.values VUndef VUndef shortTrajectory = Threw ∧
  ∃ pts, trajectoryData [] VUndef VUndef shortTrajectory = Returned pts.
Proof. split; [reflexivity|]. by eexists. Qed.

(** C5: at every index [i] of the trajectory, the datum holds under each
    of the seven keys of the computed metrics the rounded total of the
    compartment of [mean[i]] the source reads for that key, when the metric
    is enabled and the rounded total is not zero; it holds nothing when the
    rounded total is zero, and nothing when the metric is disabled. *)
Theorem pointValue_nonzero (t : Trajectory) (enabledPlots : list string)
    (nHospitalBeds nICUBeds : val) :
  aligned t →
  ∃ pts, trajectoryData enabledPlots nHospitalBeds nICUBeds t = Returned pts ∧
    ∀ i x, mean t !! i = Some x →
      ∃ d, pts !! i = Some d ∧ time d = sampleTime x ∧
        nonZeroDisplay (includes enabledPlots "susceptible")
          (Math_round (total (susceptible (current x)))) (get d "susceptible") ∧
        nonZeroDisplay (includes enabledPlots "infectious")
          (Math_round (total (infectious (current x)))) (get d "infectious") ∧
        nonZeroDisplay (includes enabledPlots "severe")
          (Math_round (total (severe (current x)))) (get d "severe") ∧
        nonZeroDisplay (includes enabledPlots "critical")
          (Math_round (total (critical (current x)))) (get d "critical") ∧
        nonZeroDisplay (includes enabledPlots "overflow")
          (Math_round (total (overflow (current x)))) (get d "overflow") ∧
        nonZeroDisplay (includes enabledPlots "recovered")
          (Math_round (total (recovered (cumulative x)))) (get d "recovered") ∧
        nonZeroDisplay (includes enabledPlots "fatality")
          (Math_round (total (fatality (cumulative x)))) (get d "fatality").
Proof.
  intros Hal.
  destruct (trajectoryData_returns enabledPlots nHospitalBeds nICUBeds t Hal)
    as (pts & Hpts & _ & Hall).
  exists pts. split; [done|]. intros i x Hx.
  destruct (Hall i x Hx) as (d & l & u & Hd & _ & _ & Hdat).
  exists d. split; [done|].
  destruct (trajectoryDatum_inv _ _ _ _ _ _ _ _ Hdat) as (Htime & Hpoint & _).
  split; [done|].
  assert (∀ m, nonZeroDisplay (includes enabledPlots (keyOf m))
                 (Math_round (totalOf m x)) (get d (keyOf m))) as Hrule.
  { intros m. rewrite Hpoint. unfold pointValue, nonZeroDisplay.
    repeat split; intros Hen; rewrite Hen; try done.
    - intros Hr. by apply orUndefined_nonzero.
    - by intros ->. }
  repeat split;
    first [ apply (Hrule Susceptible) | apply (Hrule Infectious) | apply (Hrule Severe)
          | apply (Hrule Critical) | apply (Hrule Overflow) | apply (Hrule Recovered)
          | apply (Hrule Fatalities) ].
Qed.

Lemma pointValue_nonzero_witness :
  ∃ pts, trajectoryData allButSevere VUndef VUndef mixedTrajectory = Returned pts ∧
    ∃ d, pts !! 0%nat = Some d ∧ time d = 2 ∧
      get d "susceptible" = VNum 11 ∧
      get d "infectious" = VNum 12 ∧
      get d "severe" = VUndef ∧
      get d "critical" = VUndef ∧
      get d "overflow" = VUndef ∧
      get d "recovered" = VNum 16 ∧
      get d "fatality" = VNum 17.
Proof.
  destruct (pointValue_nonzero mixedTrajectory allButSevere VUndef VUndef)
    as (pts & Hpts & Hall); [split; reflexivity|].
  exists pts. split; [exact Hpts|].
  destruct (Hall 0%nat mixedSample eq_refl)
    as (d & Hd & Ht & Hsus & Hinf & Hsev & Hcri & Hove & Hrec & Hfat).
  exists d. split; [exact Hd|]. split; [exact Ht|].
  split; [apply (proj1 Hsus); [reflexivity|discriminate]|].
  split; [apply (proj1 Hinf); [reflexivity|discriminate]|].
  split; [apply (proj2 (proj2 Hsev)); reflexivity|].
  split; [apply (proj1 (proj2 Hcri)); reflexivity|].
  split; [apply (proj1 (proj2 Hove)); reflexivity|].
  split; [apply (proj1 Hrec); [reflexivity|discriminate]|].
  apply (proj1 Hfat); [reflexivity|discriminate].
Defined.




(** ** Consolidation *)

Lemma spread_self d : spread d d = d.
Proof. destruct d as [t f]. unfold spread. simpl. f_equal. apply (idemp_L (∪)). Qed.

Lemma fields_spread a d k :
  fields (spread a d) !! k
  = match fields d !! k with Some v => Some v | None => fields a !! k end.
Proof.
  unfold spread. simpl. rewrite lookup_union.
  destruct (fields d !! k), (fields a !! k); done.
Qed.

Lemma get_spread a d k :
  get (spread a d) k
  = match fields d !! k with Some v => v | None => get a k end.
Proof. unfold get. rewrite fields_spread. by destruct (fields d !! k). Qed.

Lemma fold_consolidateStep l : ∀ init cur,
  (let '(init', cur') := fold_left consolidateStep l (init, cur) in init' ++ [cur'])%list
  = (init ++ consolidateFrom cur l)%list.
Proof.
  induction l as [|d l IH]; intros init cur; simpl; [done|].
  case_decide.
  - apply IH.
  - rewrite IH. by rewrite <- app_assoc.
Qed.

Lemma consolidate_cons d0 l : consolidate (d0 :: l) = consolidateFrom d0 l.
Proof.
  unfold consolidate.
  pose proof (fold_consolidateStep (d0 :: l) [] d0) as H.
  destruct (fold_left consolidateStep (d0 :: l) ([], d0)) as [init cur].
  rewrite H. simpl. rewrite decide_True by done. by rewrite spread_self.
Qed.

Lemma consolidateFrom_head l : ∀ cur,
  ∃ c rest, consolidateFrom cur l = c :: rest ∧ time c = time cur.
Proof.
  induction l as [|d l IH]; intros cur; simpl; [by eexists _, _|].
  case_decide as Ht.
  - destruct (IH (spread cur d)) as (c & rest & -> & Hc).
    exists c, rest. split; [done|]. by rewrite Hc.
  - by eexists _, _.
Qed.

Lemma consolidateFrom_times l : ∀ cur ts,
  ts ∈ map time (consolidateFrom cur l) ↔ ts = time cur ∨ ts ∈ map time l.
Proof.
  induction l as [|d l IH]; intros cur ts; simpl.
  - rewrite list_elem_of_singleton. split; [by left|]. intros [?|H]; [done|].
    by apply elem_of_nil in H.
  - case_decide as Ht.
    + rewrite IH. simpl. rewrite elem_of_cons. rewrite Ht. tauto.
    + simpl. rewrite !elem_of_cons, IH. tauto.
Qed.

Lemma consolidateFrom_ascending l : ∀ cur,
  Sorted (λ a b, time a ≤ time b) (cur :: l) →
  Sorted Z.lt (map time (consolidateFrom cur l)).
Proof.
  induction l as [|d l IH]; intros cur Hs; simpl.
  - repeat constructor.
  - apply Sorted_inv in Hs as [Hs Hhd]. apply HdRel_inv in Hhd.
    case_decide as Ht.
    + apply IH. apply Sorted_inv in Hs as [Hs Hhd'].
      constructor; [done|]. destruct Hhd'; constructor. simpl. lia.
    + simpl. constructor; [by apply IH|].
      destruct (consolidateFrom_head l d) as (c & rest & -> & Hc).
      simpl. constructor. lia.
Qed.

(** A property of data that spreads preserve holds of every consolidated
    datum as soon as it holds of every datum that enters the loop. *)
Lemma consolidateFrom_Forall (P : PlotDatum → Prop) l :
  (∀ a d, P a → P d → P (spread a d)) →
  ∀ cur, P cur → Forall P l → Forall P (consolidateFrom cur l).
Proof.
  intros Hspread. induction l as [|d l IH]; intros cur Hcur Hl; simpl.
  - by constructor.
  - apply Forall_cons in Hl as [Hd Hl]. case_decide.
    + apply IH; [by apply Hspread|done].
    + constructor; [done|]. by apply IH.
Qed.

Lemma Sorted_lt_StronglySorted (l : list Z) : Sorted Z.lt l → StronglySorted Z.lt l.
Proof. apply Sorted_StronglySorted. intros x y z. lia. Qed.

Lemma StronglySorted_lt_NoDup (l : list Z) : StronglySorted Z.lt l → NoDup l.
Proof.
  induction 1 as [|x l Hs IH Hall]; constructor; [|done].
  intros Hin. rewrite Forall_forall in Hall. specialize (Hall x Hin). lia.
Qed.

Lemma byTime_le a b : byTime a b ≤ 0 ↔ time a ≤ time b.
Proof. unfold byTime. destruct (Z.gtb_spec (time a) (time b)); lia. Qed.

Lemma sortsByTime_Sorted sort l :
  sortsByTime sort → Sorted (λ a b, time a ≤ time b) (sort l).
Proof.
  intros Hsort. destruct (Hsort l) as [_ Hs].
  apply StronglySorted_Sorted.
  induction Hs as [|x l' Hs IH Hall]; constructor; [done|].
  eapply Forall_impl; [exact Hall|]. intros y. apply byTime_le.
Qed.

(** The consolidation of a sorted array: strictly ascending timestamps,
    the same timestamps as the array. *)
Lemma consolidate_sorted (l : list PlotDatum) :
  Sorted (λ a b, time a ≤ time b) l →
  StronglySorted Z.lt (map time (consolidate l)) ∧
  NoDup (map time (consolidate l)) ∧
  ∀ ts, ts ∈ map time (consolidate l) ↔ ts ∈ map time l.
Proof.
  intros Hs. destruct l as [|d0 l].
  { simpl. split; [constructor|]. split; [constructor|done]. }
  rewrite consolidate_cons.
  assert (StronglySorted Z.lt (map time (consolidateFrom d0 l))) as Hss.
  { apply Sorted_lt_StronglySorted. by apply consolidateFrom_ascending. }
  split; [done|]. split; [by apply StronglySorted_lt_NoDup|].
  intros ts. rewrite consolidateFrom_times. simpl. by rewrite elem_of_cons.
Qed.

(** C1, counterexample: two samples of the mean trajectory carry the same
    timestamp; the first has 100 susceptible, the second none, so that its
    datum holds [susceptible: undefined].  The consolidated datum has lost
    the 100. *)
Lemma spread_erases_counterexample :
  ∃ a b m,
    plotData DATA_POINTS.values VUndef VUndef tiedTrajectory None = Returned [a; b] ∧
    time a = time b ∧
    get a "susceptible" = VNum 100 ∧
    get b "susceptible" = VUndef ∧
    consolidate [a; b] = [m] ∧
    get m "susceptible" = VUndef ∧
    ¬ fieldWiseUnion a b m.
Proof.
  eexists _, _, _. split; [reflexivity|].
  split; [reflexivity|]. split; [reflexivity|]. split; [reflexivity|].
  split; [reflexivity|]. split; [reflexivity|].
  intros H. destruct (H "susceptible") as [_ H']. specialize (H' eq_refl).
  vm_compute in H'. discriminate.
Qed.

(** C1, amended: when two data with the same timestamp are consolidated,
    every own property of the later one replaces the property of the
    accumulator, whether it holds a value or [undefined]; only a property
    that the later datum does not have keeps the value of the accumulator.
    In particular a defined value of the later datum always overwrites or
    adds the field. *)
Theorem consolidate_pair_spread (a b : PlotDatum) :
  time a = time b →
  ∃ m, consolidate [a; b] = [m] ∧
       consolidateStep ([], a) b = ([], m) ∧
       time m = time a ∧
       (∀ k v, fields b !! k = Some v → get m k = v) ∧
       (∀ k, fields b !! k = None → get m k = get a k) ∧
       (∀ k, get b k ≠ VUndef → get m k = get b k).
Proof.
  intros Ht. exists (spread a b).
  split; [|split; [|split; [|split; [|split]]]].
  - rewrite consolidate_cons. simpl. by rewrite decide_True.
  - unfold consolidateStep. by rewrite decide_True.
  - done.
  - intros k v Hk. by rewrite get_spread, Hk.
  - intros k Hk. by rewrite get_spread, Hk.
  - intros k Hk. rewrite get_spread. unfold get in *.
    by destruct (fields b !! k).
Qed.

Lemma consolidate_pair_spread_witness :
  ∃ m, consolidate [computedAt5; observedAt5] = [m] ∧
       consolidateStep ([], computedAt5) observedAt5 = ([], m) ∧
       time m = time computedAt5 ∧
       (∀ k v, fields observedAt5 !! k = Some v → get m k = v) ∧
       (∀ k, fields observedAt5 !! k = None → get m k = get computedAt5 k) ∧
       (∀ k, get observedAt5 k ≠ VUndef → get m k = get observedAt5 k).
Proof. exact (consolidate_pair_spread computedAt5 observedAt5 eq_refl). Defined.

(** The case the consolidation is written for: a datum of the trajectory
    followed by a datum of the observations.  The two literals share the
    keys [hospitalBeds] and [ICUbeds] only, with the same values, so that
    the spread is the field-wise union of the two. *)
Lemma observationDatum_own en nH nI cc o j b k v :
  observationDatum en nH nI cc o j = Returned b →
  fields b !! k = Some v →
  k ∈ [ "cases"; "observedDeaths"; "currentHospitalized"; "ICU"; "newCases" ] ∨
  (k = "hospitalBeds" ∧ v = nH) ∨ (k = "ICUbeds" ∧ v = nI).
Proof.
  unfold observationDatum. intros Hb.
  destruct (includes en DATA_POINTS.ObservedNewCases); [destruct (newCases cc j)|];
    simpl in Hb; simplify_eq; simpl; intros Hk;
    repeat (rewrite lookup_insert in Hk; case_decide;
            [subst k; simplify_eq;
             first [ left; in_list | right; left; done | right; right; done ]|]);
    by rewrite lookup_empty in Hk.
Qed.

Lemma trajectory_observation_union en nH nI lower upper x i cc o j a b :
  trajectoryDatum en nH nI lower upper x i = Returned a →
  observationDatum en nH nI cc o j = Returned b →
  fieldWiseUnion a b (spread a b).
Proof.
  intros Ha Hb k. rewrite get_spread. split.
  - unfold get. by destruct (fields b !! k).
  - unfold get at 1. destruct (fields b !! k) as [v|] eqn:Hk; [|done].
    simpl. intros ->.
    destruct (trajectoryDatum_inv _ _ _ _ _ _ _ _ Ha) as (_ & _ & Hh & Hi & _ & Habs).
    destruct (observationDatum_own _ _ _ _ _ _ _ _ _ Hb Hk)
      as [Hin|[[-> <-]|[-> <-]]]; [|done..].
    unfold get. rewrite Habs; [done|].
    list_case Hin; in_list.
Qed.

(** ** Sorting *)

Lemma insertBy_Permutation {A} (cmp : A → A → Z) x l : insertBy cmp x l ≡ₚ x :: l.
Proof.
  induction l as [|y l IH]; simpl; [done|].
  destruct (0 <? cmp x y); [|done]. rewrite IH. apply perm_swap.
Qed.

Lemma insertionSort_Permutation {A} (cmp : A → A → Z) l : insertionSort cmp l ≡ₚ l.
Proof.
  induction l as [|x l IH]; simpl; [done|].
  rewrite insertBy_Permutation. by rewrite IH.
Qed.

Lemma insertBy_byTime_sorted x l :
  StronglySorted (λ a b, byTime a b ≤ 0) l →
  StronglySorted (λ a b, byTime a b ≤ 0) (insertBy byTime x l).
Proof.
  induction 1 as [|y l Hs IH Hall]; simpl.
  - repeat constructor.
  - destruct (Z.ltb_spec 0 (byTime x y)) as [Hgt|Hle].
    + constructor; [done|]. rewrite insertBy_Permutation.
      constructor; [|done]. apply byTime_le.
      unfold byTime in Hgt. destruct (Z.gtb_spec (time x) (time y)); lia.
    + constructor; [by constructor|]. constructor; [done|].
      eapply Forall_impl; [exact Hall|]. intros z. rewrite !byTime_le.
      apply byTime_le in Hle. lia.
Qed.

Lemma sortByTime_sorts : sortsByTime sortByTime.
Proof.
  intros l. split; [apply insertionSort_Permutation|].
  unfold sortByTime, insertionSort. induction l as [|x l IH]; simpl.
  - constructor.
  - by apply insertBy_byTime_sorted.
Qed.

(** ** The time domain *)

Lemma clamp_max_min number lower upper :
  clamp number lower upper = Z.max lower (Z.min number upper).
Proof.
  unfold clamp. destruct (Z.leb_spec number upper).
  - destruct (Z.leb_spec lower number); lia.
  - destruct (Z.leb_spec lower upper); lia.
Qed.

Lemma minByTime_fold l : ∀ r,
  ∃ m, fold_left (λ res d, match res with
                           | None => Some d
                           | Some r => if time d <? time r then Some d else res
                           end) l (Some r) = Some m ∧
       (m = r ∨ m ∈ l) ∧ time m ≤ time r ∧ Forall (λ d, time m ≤ time d) l.
Proof.
  induction l as [|d l IH]; intros r; simpl.
  - exists r. split; [done|]. split; [by left|]. split; [lia|constructor].
  - destruct (Z.ltb_spec (time d) (time r)) as [Hlt|Hge].
    + destruct (IH d) as (m & -> & Hin & Hle & Hall). exists m.
      split; [done|]. split; [right; destruct Hin as [->|?]; [left|by right]|].
      split; [lia|]. constructor; [lia|done].
    + destruct (IH r) as (m & -> & Hin & Hle & Hall). exists m.
      split; [done|]. split; [destruct Hin as [->|?]; [by left|right; by right]|].
      split; [lia|]. constructor; [lia|done].
Qed.

Lemma maxByTime_fold l : ∀ r,
  ∃ m, fold_left (λ res d, match res with
                           | None => Some d
                           | Some r => if time r <? time d then Some d else res
                           end) l (Some r) = Some m ∧
       (m = r ∨ m ∈ l) ∧ time r ≤ time m ∧ Forall (λ d, time d ≤ time m) l.
Proof.
  induction l as [|d l IH]; intros r; simpl.
  - exists r. split; [done|]. split; [by left|]. split; [lia|constructor].
  - destruct (Z.ltb_spec (time r) (time d)) as [Hlt|Hge].
    + destruct (IH d) as (m & -> & Hin & Hle & Hall). exists m.
      split; [done|]. split; [right; destruct Hin as [->|?]; [left|by right]|].
      split; [lia|]. constructor; [lia|done].
    + destruct (IH r) as (m & -> & Hin & Hle & Hall). exists m.
      split; [done|]. split; [destruct Hin as [->|?]; [by left|right; by right]|].
      split; [lia|]. constructor; [lia|done].
Qed.

Lemma minByTime_least l :
  l ≠ [] → ∃ m, minByTime l = Some m ∧ m ∈ l ∧ ∀ d, d ∈ l → time m ≤ time d.
Proof.
  destruct l as [|d0 l]; [done|]. intros _. unfold minByTime. simpl.
  destruct (minByTime_fold l d0) as (m & Hm & Hin & Hle & Hall).
  exists m. split; [done|]. split.
  - destruct Hin as [->|?]; [left|by right].
  - intros d Hd. apply elem_of_cons in Hd as [->|Hd]; [done|].
    rewrite Forall_forall in Hall. by apply Hall.
Qed.

Lemma maxByTime_greatest l :
  l ≠ [] → ∃ m, maxByTime l = Some m ∧ m ∈ l ∧ ∀ d, d ∈ l → time d ≤ time m.
Proof.
  destruct l as [|d0 l]; [done|]. intros _. unfold maxByTime. simpl.
  destruct (maxByTime_fold l d0) as (m & Hm & Hin & Hle & Hall).
  exists m. split; [done|]. split.
  - destruct Hin as [->|?]; [left|by right].
  - intros d Hd. apply elem_of_cons in Hd as [->|Hd]; [done|].
    rewrite Forall_forall in Hall. by apply Hall.
Qed.

(** ** The component *)

Lemma observations_times en nH nI (cco : option (list EmpiricalDatum)) obs :
  observations en nH nI cco = Returned obs →
  map time obs = map obsTime (filteredCounts cco).
Proof.
  destruct cco as [cc|]; [apply observations_time|]. by intros [= <-].
Qed.

Lemma trajectoryData_times en nH nI t traj :
  trajectoryData en nH nI t = Returned traj →
  map time traj = map sampleTime (mean t).
Proof.
  intros Htraj. eapply mapIdx_map; [exact Htraj|].
  intros x i d Hd. by apply trajectoryDatum_inv in Hd as [? _].
Qed.

Lemma plotData_inv en nH nI t cco pd :
  plotData en nH nI t cco = Returned pd →
  ∃ traj obs,
    trajectoryData en nH nI t = Returned traj ∧
    observations en nH nI cco = Returned obs ∧
    pd = (traj ++ obs)%list ∧
    map time pd = inputTimes t cco.
Proof.
  unfold plotData. intros Hpd.
  destruct (observations en nH nI cco) as [|obs] eqn:Hobs; [done|].
  destruct (trajectoryData en nH nI t) as [|traj] eqn:Htraj; [done|].
  simpl in Hpd. simplify_eq. exists traj, obs. repeat (split; [done|]).
  unfold inputTimes.
  by rewrite map_app, (trajectoryData_times _ _ _ _ _ Htraj),
    (observations_times _ _ _ _ _ Hobs).
Qed.

Lemma plotData_returns en nH nI t cco :
  aligned t → ∃ pd, plotData en nH nI t cco = Returned pd.
Proof.
  intros Hal.
  destruct (trajectoryData_returns en nH nI t Hal) as (traj & Htraj & _).
  assert (∃ obs, observations en nH nI cco = Returned obs) as [obs Hobs].
  { destruct cco as [cc|]; [apply observations_returns|by exists []]. }
  exists (traj ++ obs)%list. unfold plotData. by rewrite Hobs, Htraj.
Qed.

(** What the component returns, read back from its result: [null] without
    data or without anything to plot, and otherwise the chart values
    computed from the sorted [plotData]. *)
Lemma render_inv sort props en r :
  render sort props en = Returned r →
  match data props with
  | None => r = None
  | Some t =>
      ∃ pd,
        plotData en (verifyPositive (populationHospitalBeds props))
          (verifyPositive (populationICUBeds props)) t (caseCounts props) = Returned pd ∧
        map time pd = inputTimes t (caseCounts props) ∧
        match r with
        | None => pd = []
        | Some chart =>
            pd ≠ [] ∧ ∃ mn mx,
              minByTime (sort pd) = Some mn ∧ maxByTime (sort pd) = Some mx ∧
              chart = {|
                chartData := consolidate (sort pd);
                chartYDataMax := yDataMax en (consolidate (sort pd));
                chartTMin := time mn;
                chartTMax := time mx;
                chartAreas :=
                  map (referenceArea (time mn) (time mx)) (mitigationIntervals props)
              |}
        end
  end.
Proof.
  unfold render. destruct (data props) as [t|]; [|by intros [= <-]].
  destruct (plotData _ _ _ _ _) as [|pd] eqn:Hpd; simpl; [done|].
  destruct (plotData_inv _ _ _ _ _ _ Hpd) as (_ & _ & _ & _ & _ & Htimes).
  intros Hr. exists pd. split; [done|]. split; [done|].
  destruct pd as [|d0 pd]; simpl in Hr; [by simplify_eq|].
  destruct (minByTime (sort (d0 :: pd))) as [mn|]; simpl in Hr; [|done].
  destruct (maxByTime (sort (d0 :: pd))) as [mx|]; simpl in Hr; [|done].
  simplify_eq. split; [done|]. by exists mn, mx.
Qed.

Lemma render_no_data sort props en :
  data props = None → render sort props en = Returned None.
Proof. unfold render. by intros ->. Qed.

Section WithSort.
Variable sort : list PlotDatum → list PlotDatum.
Hypothesis sort_ok : sortsByTime sort.

Lemma sort_nonempty pd : pd ≠ [] → sort pd ≠ [].
Proof.
  intros Hne Hnil. destruct (sort_ok pd) as [Hperm _]. rewrite Hnil in Hperm.
  by apply Permutation_nil_l in Hperm.
Qed.

(** With aligned arrays the component returns. *)
Lemma render_returns props en t :
  data props = Some t → aligned t →
  ∃ r, render sort props en = Returned r.
Proof.
  intros Hdata Hal. unfold render. rewrite Hdata.
  destruct (plotData_returns en (verifyPositive (populationHospitalBeds props))
              (verifyPositive (populationICUBeds props)) t (caseCounts props) Hal)
    as [pd ->]. simpl.
  destruct pd as [|d0 pd]; simpl; [by eexists|].
  destruct (minByTime_least _ (sort_nonempty (d0 :: pd) ltac:(done))) as (mn & -> & _).
  destruct (maxByTime_greatest _ (sort_nonempty (d0 :: pd) ltac:(done))) as (mx & -> & _).
  simpl. by eexists.
Qed.

(** C2: whenever the component returns a chart, the merged series has
    strictly ascending timestamps, none of them twice, and its timestamps
    are exactly those of the trajectory samples and of the observation
    records that survive the filter; and for every enabled set the
    component does return when the trajectory arrays are aligned, with
    [null] exactly when there is no timestamp at all. *)
Theorem merged_series_strictly_ascending props enabledPlots :
  (∀ chart, render sort props enabledPlots = Returned (Some chart) →
     ∃ t, data props = Some t ∧
          StronglySorted Z.lt (map time (chartData chart)) ∧
          NoDup (map time (chartData chart)) ∧
          ∀ ts, ts ∈ map time (chartData chart) ↔ ts ∈ inputTimes t (caseCounts props)) ∧
  (∀ t, data props = Some t → aligned t →
     ∃ r, render sort props enabledPlots = Returned r ∧
          (r = None ↔ inputTimes t (caseCounts props) = [])).
Proof.
  split.
  - intros chart Hr. apply render_inv in Hr.
    destruct (data props) as [t|]; [|done].
    destruct Hr as (pd & _ & Htimes & Hne & mn & mx & _ & _ & ->).
    exists t. split; [done|]. simpl.
    destruct (consolidate_sorted (sort pd)) as (Hss & Hnd & Hmem).
    { by apply sortsByTime_Sorted. }
    split; [done|]. split; [done|]. intros ts. rewrite Hmem, <- Htimes.
    destruct (sort_ok pd) as [Hperm _]. by rewrite Hperm.
  - intros t Hdata Hal.
    destruct (render_returns props enabledPlots t Hdata Hal) as [r Hr].
    exists r. split; [done|]. apply render_inv in Hr. rewrite Hdata in Hr.
    destruct Hr as (pd & _ & Htimes & Hr). rewrite <- Htimes.
    destruct r as [chart|].
    + destruct Hr as [Hne _]. split; [done|].
      intros Hnil. by apply map_eq_nil in Hnil.
    + by subst pd.
Qed.

(** C8: whenever the component returns a chart, its time domain is the
    least and the greatest timestamp of the merged series, which is not
    empty, and every mitigation interval, in or out of range, yields one
    overlay area whose ends are the interval's ends clamped to that domain
    and whose height is the strength clamped to 0..100; with aligned
    trajectory arrays the component does return. *)
Theorem referenceArea_clamped props enabledPlots :
  (∀ chart, render sort props enabledPlots = Returned (Some chart) →
     let tMin := chartTMin chart in
     let tMax := chartTMax chart in
     chartData chart ≠ [] ∧
     tMin ∈ map time (chartData chart) ∧
     tMax ∈ map time (chartData chart) ∧
     (∀ d, d ∈ chartData chart → tMin ≤ time d ≤ tMax) ∧
     Forall2 (λ interval area,
                x1 area = Z.max tMin (Z.min (tMinOf interval) tMax) ∧
                x2 area = Z.max tMin (Z.min (tMaxOf interval) tMax) ∧
                y1 area = 0 ∧
                y2 area = Z.max 0 (Z.min (mitigationValue interval) 100) ∧
                tMin ≤ x1 area ≤ tMax ∧ tMin ≤ x2 area ≤ tMax ∧
                0 ≤ y2 area ≤ 100)
             (mitigationIntervals props) (chartAreas chart)) ∧
  (∀ t, data props = Some t → aligned t →
     ∃ r, render sort props enabledPlots = Returned r).
Proof.
  split; [|apply render_returns].
  intros chart Hr. apply render_inv in Hr.
  destruct (data props) as [t|]; [|done].
  destruct Hr as (pd & _ & Htimes & Hne & mn & mx & Hmn & Hmx & ->). simpl.
  pose proof (sort_nonempty pd Hne) as Hsne.
  destruct (minByTime_least _ Hsne) as (mn' & Hmn' & Hmnin & Hleast).
  destruct (maxByTime_greatest _ Hsne) as (mx' & Hmx' & Hmxin & Hgreatest).
  assert (mn' = mn) as -> by congruence. assert (mx' = mx) as -> by congruence.
  destruct (consolidate_sorted (sort pd)) as (_ & _ & Hmem).
  { by apply sortsByTime_Sorted. }
  assert (∀ d, d ∈ consolidate (sort pd) → time mn ≤ time d ≤ time mx) as Hbounds.
  { intros d Hd. apply (list_elem_of_fmap_2 time) in Hd. apply Hmem in Hd.
    apply list_elem_of_fmap in Hd as (d' & -> & Hd'). split; eauto. }
  assert (time mn ≤ time mx) as Hle by (by apply Hleast).
  split; [|split; [|split; [|split]]].
  - intros Hnil. apply (list_elem_of_fmap_2 time) in Hmnin. apply Hmem in Hmnin.
    rewrite Hnil in Hmnin. by apply elem_of_nil in Hmnin.
  - apply Hmem. by apply list_elem_of_fmap_2.
  - apply Hmem. by apply list_elem_of_fmap_2.
  - done.
  - apply Forall2_fmap_r, Forall_Forall2_diag, Forall_forall.
    intros interval _. unfold referenceArea. simpl.
    rewrite !clamp_max_min. lia.
Qed.
End WithSort.

Lemma merged_series_strictly_ascending_witness :
  (∀ chart, render sortByTime sampleProps DATA_POINTS.values = Returned (Some chart) →
     ∃ t, data sampleProps = Some t ∧
          StronglySorted Z.lt (map time (chartData chart)) ∧
          NoDup (map time (chartData chart)) ∧
          ∀ ts, ts ∈ map time (chartData chart)
                ↔ ts ∈ inputTimes t (caseCounts sampleProps)) ∧
  (∀ t, data sampleProps = Some t → aligned t →
     ∃ r, render sortByTime sampleProps DATA_POINTS.values = Returned r ∧
          (r = None ↔ inputTimes t (caseCounts sampleProps) = [])).
Proof.
  exact (merged_series_strictly_ascending sortByTime sortByTime_sorts
           sampleProps DATA_POINTS.values).
Defined.

Lemma referenceArea_clamped_witness :
  ∃ chart, render sortByTime sampleProps DATA_POINTS.values = Returned (Some chart) ∧
    chartData chart ≠ [] ∧
    chartTMin chart ∈ map time (chartData chart) ∧
    chartTMax chart ∈ map time (chartData chart) ∧
    (∀ d, d ∈ chartData chart → chartTMin chart ≤ time d ≤ chartTMax chart) ∧
    Forall2 (λ interval area,
               x1 area = Z.max (chartTMin chart) (Z.min (tMinOf interval) (chartTMax chart)) ∧
               x2 area = Z.max (chartTMin chart) (Z.min (tMaxOf interval) (chartTMax chart)) ∧
               y1 area = 0 ∧
               y2 area = Z.max 0 (Z.min (mitigationValue interval) 100) ∧
               chartTMin chart ≤ x1 area ≤ chartTMax chart ∧
               chartTMin chart ≤ x2 area ≤ chartTMax chart ∧
               0 ≤ y2 area ≤ 100)
            (mitigationIntervals sampleProps) (chartAreas chart).
Proof.
  eexists. split; [by vm_compute|].
  apply (proj1 (referenceArea_clamped sortByTime sortByTime_sorts
                  sampleProps DATA_POINTS.values)).
  by vm_compute.
Defined.

(** ** The value axis *)

Lemma numMaxStep_fold xs : ∀ acc,
  match fold_left numMaxStep xs acc with
  | Some m => (acc = Some m ∨ Some m ∈ xs) ∧
              (∀ v, acc = Some v ∨ Some v ∈ xs → v ≤ m)
  | None => acc = None ∧ ∀ v, Some v ∉ xs
  end.
Proof.
  induction xs as [|x xs IH]; intros acc; simpl.
  - destruct acc as [m|].
    + split; [by left|]. intros v [[= ->]|H]; [lia|]. by apply elem_of_nil in H.
    + split; [done|]. intros v H. by apply elem_of_nil in H.
  - specialize (IH (numMaxStep acc x)).
    destruct (fold_left numMaxStep xs (numMaxStep acc x)) as [m|].
    + destruct IH as [Hin Hub]. split.
      * destruct Hin as [Hin|Hin]; [|right; by right].
        unfold numMaxStep in Hin. destruct x as [c|], acc as [a|]; simplify_eq;
          try (by left); try (right; by left).
        destruct (a <? c); simplify_eq; [right|]; by left.
      * intros v [Hv|Hv].
        -- subst acc. unfold numMaxStep in Hub. destruct x as [c|].
           ++ destruct (Z.ltb_spec v c).
              ** specialize (Hub c (or_introl eq_refl)). lia.
              ** apply Hub. by left.
           ++ apply Hub. by left.
        -- apply elem_of_cons in Hv as [<-|Hv]; [|apply Hub; by right].
           unfold numMaxStep in Hub. destruct acc as [a|].
           ++ destruct (Z.ltb_spec a v).
              ** apply Hub. by left.
              ** specialize (Hub a (or_introl eq_refl)). lia.
           ++ apply Hub. by left.
    + destruct IH as [Hacc Hno]. unfold numMaxStep in Hacc.
      destruct x as [c|], acc as [a|]; try done.
      * by destruct (a <? c).
      * split; [done|]. intros v Hv. apply elem_of_cons in Hv as [?|Hv]; [done|].
        by apply (Hno v).
Qed.

Lemma numMax_Some xs m :
  numMax xs = Some m ↔ Some m ∈ xs ∧ ∀ v, Some v ∈ xs → v ≤ m.
Proof.
  unfold numMax. pose proof (numMaxStep_fold xs None) as H. split.
  - intros Hm. rewrite Hm in H. destruct H as [[?|Hin] Hub]; [done|].
    split; [done|]. intros v Hv. apply Hub. by right.
  - intros [Hin Hub]. destruct (fold_left numMaxStep xs None) as [m'|].
    + destruct H as [[?|Hin'] Hub']; [done|]. f_equal.
      specialize (Hub m' Hin'). specialize (Hub' m (or_intror Hin)). lia.
    + destruct H as [_ Hno]. by destruct (Hno m).
Qed.

Lemma numMax_None xs : numMax xs = None ↔ ∀ v, Some v ∉ xs.
Proof.
  unfold numMax. pose proof (numMaxStep_fold xs None) as H. split.
  - intros Hm. rewrite Hm in H. by destruct H.
  - intros Hno. destruct (fold_left numMaxStep xs None) as [m|]; [|done].
    destruct H as [[?|Hin] _]; [done|]. by destruct (Hno m).
Qed.

Lemma dataKeys_elem en k :
  k ∈ dataKeys en ↔
  k ∈ en ∧ k ≠ DATA_POINTS.HospitalBeds ∧ k ≠ DATA_POINTS.ICUbeds.
Proof.
  unfold dataKeys. rewrite !list_elem_of_In, filter_In.
  rewrite andb_true_iff, !negb_true_iff, !String.eqb_neq. tauto.
Qed.

Lemma numAt_Some d k v : numAt d k = Some v ↔ prop d k = VNum v.
Proof. unfold numAt, numOf. destruct (prop d k); split; congruence. Qed.

Lemma inner_max_elem en series (o : option Z) :
  o ∈ map (λ d, numMax (map (λ k, numAt d k) (dataKeys en))) series ↔
  ∃ d, d ∈ series ∧ numMax (map (λ k, numAt d k) (dataKeys en)) = o.
Proof. rewrite list_elem_of_fmap. split; intros (d & ? & ?); exists d; by split. Qed.

Lemma qualifies_numAt en series v :
  qualifies en series v ↔
  ∃ d, d ∈ series ∧ Some v ∈ map (λ k, numAt d k) (dataKeys en).
Proof.
  unfold qualifies. split.
  - intros (d & k & Hd & Hk & Hh & Hi & Hget). exists d. split; [done|].
    apply list_elem_of_fmap. exists k. split; [symmetry; by apply numAt_Some|].
    by apply dataKeys_elem.
  - intros (d & Hd & Hin). apply list_elem_of_fmap in Hin as (k & Hk & Hkeys).
    apply dataKeys_elem in Hkeys as (? & ? & ?). exists d, k.
    repeat (split; [done|]). by apply numAt_Some.
Qed.

Lemma numDataMax_Some en series m :
  numDataMax en series = Some m ↔
  qualifies en series m ∧ ∀ v, qualifies en series v → v ≤ m.
Proof.
  unfold numDataMax. rewrite numMax_Some. split.
  - intros [Hin Hub]. apply inner_max_elem in Hin as (d & Hd & Hmax).
    apply numMax_Some in Hmax as [Hm _]. split.
    + apply qualifies_numAt. eauto.
    + intros v Hv. apply qualifies_numAt in Hv as (d' & Hd' & Hv).
      destruct (numMax (map (λ k, numAt d' k) (dataKeys en))) as [m'|] eqn:Hm'.
      * apply numMax_Some in Hm' as Hm''. destruct Hm'' as [_ Hub'].
        specialize (Hub' v Hv). assert (m' ≤ m); [|lia].
        apply Hub, inner_max_elem. eauto.
      * rewrite numMax_None in Hm'. by destruct (Hm' v).
  - intros [Hq Hub]. apply qualifies_numAt in Hq as (d & Hd & Hm).
    destruct (numMax (map (λ k, numAt d k) (dataKeys en))) as [m'|] eqn:Hm'.
    2:{ rewrite numMax_None in Hm'. by destruct (Hm' m). }
    apply numMax_Some in Hm' as Hm''. destruct Hm'' as [Hin' Hub'].
    assert (m' = m) as ->.
    { specialize (Hub' m Hm). assert (m' ≤ m); [|lia].
      apply Hub, qualifies_numAt. eauto. }
    split; [apply inner_max_elem; eauto|].
    intros v Hv. apply inner_max_elem in Hv as (d' & Hd' & Hv).
    apply numMax_Some in Hv as [Hv _]. apply Hub, qualifies_numAt. eauto.
Qed.

Lemma numDataMax_None en series :
  numDataMax en series = None ↔ ∀ v, ¬ qualifies en series v.
Proof.
  split.
  - intros Hnone v Hv.
    destruct (numDataMax en series) as [m|] eqn:Hm; [done|].
    unfold numDataMax in Hm. rewrite numMax_None in Hm.
    apply qualifies_numAt in Hv as (d & Hd & Hv).
    destruct (numMax (map (λ k, numAt d k) (dataKeys en))) as [m'|] eqn:Hm'.
    + apply (Hm m'), inner_max_elem. eauto.
    + rewrite numMax_None in Hm'. by destruct (Hm' v).
  - intros Hno. destruct (numDataMax en series) as [m|] eqn:Hm; [|done].
    apply numDataMax_Some in Hm as [Hq _]. by destruct (Hno m).
Qed.

Lemma numDataMax_sameButReference en series series' :
  Forall2 sameButReference series series' → numDataMax en series' = numDataMax en series.
Proof.
  intros HF. unfold numDataMax. f_equal.
  induction HF as [|d d' l l' Hd _ IH]; simpl; [done|]. f_equal; [|done].
  f_equal. apply map_ext_in. intros k Hk.
  apply list_elem_of_In, dataKeys_elem in Hk as (_ & ? & ?).
  unfold numAt. by rewrite (Hd k).
Qed.

(** On numbers and [undefined], [_.max] is the greatest number. *)
Lemma numOf_ofNum o : numOf (ofNum o) = o.
Proof. by destruct o. Qed.

Lemma ofNum_band o lo hi : ofNum o ≠ VBand lo hi.
Proof. by destruct o. Qed.

Lemma maxStep_numMaxStep acc x :
  (∀ lo hi, acc ≠ VBand lo hi) → (∀ lo hi, x ≠ VBand lo hi) →
  maxStep acc x = ofNum (numMaxStep (numOf acc) (numOf x)).
Proof.
  intros Hacc Hx. destruct acc as [|a|lo hi]; [| |by destruct (Hacc lo hi)];
    (destruct x as [|c|lo hi]; [| |by destruct (Hx lo hi)]); simpl; try done.
  by destruct (a <? c).
Qed.

Lemma fold_maxStep_numMaxStep xs : ∀ acc,
  (∀ lo hi, acc ≠ VBand lo hi) →
  Forall (λ v, ∀ lo hi, v ≠ VBand lo hi) xs →
  fold_left maxStep xs acc = ofNum (fold_left numMaxStep (map numOf xs) (numOf acc)).
Proof.
  induction xs as [|x xs IH]; intros acc Hacc HF; simpl.
  - destruct acc as [|a|lo hi]; try done. by destruct (Hacc lo hi).
  - apply Forall_cons in HF as [Hx HF].
    rewrite (maxStep_numMaxStep _ _ Hacc Hx).
    rewrite IH; [|intros lo hi; apply ofNum_band|done].
    by rewrite numOf_ofNum.
Qed.

Lemma lodashMax_numMax xs :
  Forall (λ v, ∀ lo hi, v ≠ VBand lo hi) xs →
  lodashMax xs = ofNum (numMax (map numOf xs)).
Proof. intros HF. unfold lodashMax, numMax. by apply fold_maxStep_numMaxStep. Qed.

Lemma yDataMax_numDataMax en series :
  numericUnder en series → yDataMax en series = ofNum (numDataMax en series).
Proof.
  intros Hnum. unfold yDataMax, numDataMax.
  rewrite (map_ext_in _ (λ d, ofNum (numMax (map (λ k, numAt d k) (dataKeys en))))).
  - rewrite lodashMax_numMax.
    + by rewrite map_map, (map_ext _ _ (λ d, numOf_ofNum _)).
    + apply Forall_forall. intros v Hv. apply list_elem_of_fmap in Hv as (d & -> & _).
      intros lo hi. apply ofNum_band.
  - intros d Hd. rewrite lodashMax_numMax; [by rewrite map_map|].
    apply Forall_forall. intros v Hv. apply list_elem_of_fmap in Hv as (k & -> & Hk).
    apply dataKeys_elem in Hk as (Hk & Hh & Hi). intros lo hi.
    apply (Hnum d k lo hi); [by apply list_elem_of_In|done..].
Qed.

Lemma numericUnder_sameButReference en series series' :
  Forall2 sameButReference series series' →
  numericUnder en series → numericUnder en series'.
Proof.
  intros HF Hnum d' k lo hi Hd' Hk Hh Hi.
  apply list_elem_of_lookup in Hd' as [i Hi'].
  destruct (Forall2_lookup_r _ _ _ _ _ HF Hi') as (d & Hd & Hsame).
  rewrite <- (Hsame k Hh Hi). apply (Hnum d k lo hi); [|done..].
  by apply (list_elem_of_lookup_2 _ i).
Qed.

Lemma yDataMax_VNum en series m :
  numericUnder en series →
  yDataMax en series = VNum m ↔
  qualifies en series m ∧ ∀ v, qualifies en series v → v ≤ m.
Proof.
  intros Hnum. rewrite (yDataMax_numDataMax _ _ Hnum), <- numDataMax_Some.
  destruct (numDataMax en series); simpl; split; congruence.
Qed.

Lemma yDataMax_VUndef en series :
  numericUnder en series →
  yDataMax en series = VUndef ↔ ∀ v, ¬ qualifies en series v.
Proof.
  intros Hnum. rewrite (yDataMax_numDataMax _ _ Hnum), <- numDataMax_None.
  destruct (numDataMax en series); simpl; split; congruence.
Qed.

(** The chart carries the maximum of its own merged series. *)
Lemma render_yDataMax sort props en chart :
  render sort props en = Returned (Some chart) →
  chartYDataMax chart = yDataMax en (chartData chart).
Proof.
  intros Hr. apply render_inv in Hr. destruct (data props); [|done].
  by destruct Hr as (pd & _ & _ & _ & mn & mx & _ & _ & ->).
Qed.

(** C7: for an enabled list of metric keys and a series that holds no band
    under an enabled key (a number or nothing is what a point holds under
    a metric key), the maximum handed to the value axis is the greatest
    number held, in any datum of the series, under a key that is enabled
    and is neither [hospitalBeds] nor [ICUbeds], times 1.1; it is undefined
    exactly when there is no such number, and it is never a band; and it is
    the same for two series that differ only in the reference metrics,
    enabled or not. *)
Theorem yDataMax_is_max (enabledPlots : list string) (series : list PlotDatum) :
  enabledPlots ⊆ DATA_POINTS.values →
  numericUnder enabledPlots series →
  (∀ m, yDataMax enabledPlots series = VNum m ↔
        qualifies enabledPlots series m ∧
        ∀ v, qualifies enabledPlots series v → v ≤ m) ∧
  (yDataMax enabledPlots series = VUndef ↔ ∀ v, ¬ qualifies enabledPlots series v) ∧
  (∀ lo hi, yDataMax enabledPlots series ≠ VBand lo hi) ∧
  (∀ m, yDataMax enabledPlots series = VNum m →
        yAxisMax (yDataMax enabledPlots series) = Some (inject_Z m * (11 # 10))%Q) ∧
  (yDataMax enabledPlots series = VUndef →
   yAxisMax (yDataMax enabledPlots series) = None) ∧
  (∀ series', Forall2 sameButReference series series' →
              yDataMax enabledPlots series' = yDataMax enabledPlots series).
Proof.
  intros _ Hnum.
  split; [intros m; by apply yDataMax_VNum|]. split; [by apply yDataMax_VUndef|].
  split; [intros lo hi; rewrite (yDataMax_numDataMax _ _ Hnum); apply ofNum_band|].
  split; [by intros m ->|]. split; [by intros ->|].
  intros series' HF.
  rewrite (yDataMax_numDataMax _ _ Hnum).
  rewrite (yDataMax_numDataMax _ _ (numericUnder_sameButReference _ _ _ HF Hnum)).
  f_equal. by apply numDataMax_sameButReference.
Qed.

Lemma yDataMax_is_max_witness :
  ["susceptible"; "hospitalBeds"] ⊆ DATA_POINTS.values ∧
  numericUnder ["susceptible"; "hospitalBeds"] scenarioA ∧
  yDataMax ["susceptible"; "hospitalBeds"] scenarioA = VNum 100 ∧
  yAxisMax (yDataMax ["susceptible"; "hospitalBeds"] scenarioA)
  = Some (inject_Z 100 * (11 # 10))%Q ∧
  (inject_Z 100 * (11 # 10) == 110)%Q ∧
  (∀ lo hi, yDataMax ["susceptible"; "hospitalBeds"] scenarioA ≠ VBand lo hi) ∧
  yDataMax ["susceptible"; "hospitalBeds"] scenarioA'
  = yDataMax ["susceptible"; "hospitalBeds"] scenarioA.
Proof.
  assert (numericUnder ["susceptible"; "hospitalBeds"] scenarioA) as Hnum.
  { intros d k lo hi Hd Hk Hh Hi. list_case Hd; list_case Hk;
      try (by destruct Hh); vm_compute; discriminate. }
  assert (["susceptible"; "hospitalBeds"] ⊆ DATA_POINTS.values) as Hsub.
  { intros k Hk. list_case Hk; in_list. }
  destruct (yDataMax_is_max ["susceptible"; "hospitalBeds"] scenarioA Hsub Hnum)
    as (_ & _ & Hband & Hpad & _ & Hsame).
  split; [exact Hsub|]. split; [exact Hnum|].
  split; [by vm_compute|]. split; [apply Hpad; by vm_compute|]. split; [reflexivity|].
  split; [exact Hband|]. apply Hsame.
  constructor; [|constructor; [|constructor]].
  all: intros k Hh Hi; unfold prop; case_decide; [done|].
  all: unfold get; simpl.
  all: destruct (decide (k = "susceptible")) as [->|Hs]; [done|].
  all: unfold_keys; rewrite ?lookup_insert_ne, ?lookup_singleton_ne by congruence.
  all: done.
Defined.

(** When a band is read, [_.max] keeps the array that comes first: with the
    key of a band enabled before the key of its metric the maximum is the
    band of the first datum and the upper end of the axis is [NaN]; with
    the two keys in the other order it is the number. *)
Lemma yDataMax_band_first :
  let series := [ mkDatum 0 {[ "susceptible" := VNum 100;
                               "susceptible_area" := VBand 95 105 ]};
                  mkDatum 1 {[ "susceptible" := VNum 90;
                               "susceptible_area" := VBand 80 95 ]} ] in
  yDataMax ["susceptible_area"; "susceptible"] series = VBand 95 105 ∧
  yAxisMax (yDataMax ["susceptible_area"; "susceptible"] series) = None ∧
  yDataMax ["susceptible"; "susceptible_area"] series = VNum 100.
Proof. by vm_compute. Qed.

(** ** The legend *)

Lemma includes_true en k : includes en k = true ↔ k ∈ en.
Proof. unfold includes. apply bool_decide_eq_true. Qed.

Lemma includes_false en k : includes en k = false ↔ k ∉ en.
Proof. unfold includes. apply bool_decide_eq_false. Qed.

(** The click on an enabled key removes its first occurrence. *)
Lemma splice1_indexOf en k :
  k ∈ en →
  ∃ l1 l2, en = (l1 ++ (k :: l2))%list ∧ (k ∉ l1) ∧
           splice1 en (indexOf en k) = (l1 ++ l2)%list.
Proof.
  induction en as [|p en IH]; intros Hin; [by apply elem_of_nil in Hin|].
  simpl. destruct (String.eqb_spec p k) as [->|Hne].
  - exists [], en. split; [done|]. split; [apply not_elem_of_nil|done].
  - apply elem_of_cons in Hin as [?|Hin]; [done|].
    destruct (IH Hin) as (l1 & l2 & Hen & Hl1 & Hsplice).
    exists (p :: l1), l2. split; [by rewrite Hen|]. split.
    + rewrite not_elem_of_cons. split; [done|done].
    + destruct (indexOf en k) as [i|] eqn:Hi; simpl in *.
      * by rewrite Hsplice.
      * exfalso. clear -Hin Hi. induction en as [|q en IH]; [by apply elem_of_nil in Hin|].
        simpl in Hi. destruct (String.eqb_spec q k); [done|].
        apply elem_of_cons in Hin as [?|Hin]; [done|].
        destruct (indexOf en k); [done|]. by apply IH.
Qed.

Lemma count_occ_zero (l : list string) k : k ∉ l ↔ count_occ String.string_dec l k = 0%nat.
Proof. rewrite list_elem_of_In. apply count_occ_not_In. Qed.

Lemma onClick_count en k k' :
  (count_occ String.string_dec (onClick en k') k ≤ count_occ String.string_dec en k)%nat ∨
  (k = k' ∧ (k ∉ en) ∧ count_occ String.string_dec (onClick en k') k = 1%nat).
Proof.
  unfold onClick. destruct (includes en k') eqn:Hinc.
  - left. apply includes_true in Hinc.
    destruct (splice1_indexOf en k' Hinc) as (l1 & l2 & -> & _ & ->).
    rewrite !count_occ_app. simpl. destruct (String.string_dec k' k); lia.
  - apply includes_false in Hinc. rewrite count_occ_app. simpl.
    destruct (String.string_dec k' k) as [->|Hne].
    + right. split; [done|]. split; [done|].
      apply count_occ_zero in Hinc. lia.
    + left. lia.
Qed.

(** After a click on a key that occurs once, the key is disabled. *)
Lemma onClick_removes en k :
  count_occ String.string_dec en k = 1%nat → k ∉ onClick en k.
Proof.
  intros Hone. assert (k ∈ en) as Hin.
  { apply list_elem_of_In, (count_occ_In String.string_dec). lia. }
  unfold onClick. rewrite (proj2 (includes_true en k) Hin).
  destruct (splice1_indexOf en k Hin) as (l1 & l2 & Hen & Hl1 & ->).
  rewrite Hen, count_occ_app in Hone. simpl in Hone.
  destruct (String.string_dec k k); [|done].
  rewrite not_elem_of_app. split; [done|]. apply count_occ_zero. lia.
Qed.

Lemma values_count k :
  k ≠ "newCases" → (count_occ String.string_dec DATA_POINTS.values k ≤ 1)%nat.
Proof.
  intros Hk. destruct (decide (k ∈ DATA_POINTS.values)) as [Hin|Hout].
  - unfold DATA_POINTS.values in Hin.
    repeat (apply elem_of_cons in Hin as [->|Hin]; [by vm_compute|]).
    by apply elem_of_nil in Hin.
  - apply count_occ_zero in Hout. lia.
Qed.

(** In every state of the legend, a key other than ["newCases"] occurs at
    most once in [enabledPlots]. *)
Lemma reachable_count en k :
  reachable en → k ≠ "newCases" → (count_occ String.string_dec en k ≤ 1)%nat.
Proof.
  intros Hr Hk. induction Hr as [|en k' Hr IH].
  - by apply values_count.
  - destruct (onClick_count en k k') as [Hle|(_ & _ & ->)]; lia.
Qed.

(** C4, the code at the failing input: from the initial enabled set and
    with four records of rising case counts, the click on the ["newCases"]
    entry of the legend does not disable the key.  [DATA_POINTS] lists
    ["newCases"] twice, under [NewCases] and under [ObservedNewCases], and
    the click removes the first occurrence only: the key is still enabled,
    the component returns what it returned before the click, and the datum
    of the fourth record still holds the 8 new cases, where the toggle
    should have left no datum with a value under the key. *)
Theorem newCases_listed_twice :
  count_occ String.string_dec DATA_POINTS.values "newCases" = 2%nat ∧
  "newCases" ∈ onClick DATA_POINTS.values "newCases" ∧
  render sortByTime risingProps (onClick DATA_POINTS.values "newCases")
  = render sortByTime risingProps DATA_POINTS.values ∧
  (∃ chart d, render sortByTime risingProps (onClick DATA_POINTS.values "newCases")
              = Returned (Some chart) ∧
              d ∈ chartData chart ∧ time d = 3 ∧ get d "newCases" = VNum 8) ∧
  ¬ toggleSafe sortByTime risingProps DATA_POINTS.values "newCases".
Proof.
  split; [reflexivity|]. split; [by apply includes_true|]. split; [by vm_compute|].
  split.
  - eexists _, _. split; [by vm_compute|]. simpl. split; [|split].
    + do 3 apply list_elem_of_further. apply list_elem_of_here.
    + reflexivity.
    + reflexivity.
  - intros (r & Hr & Hall). vm_compute in Hr. simplify_eq.
    specialize (Hall _ eq_refl _
                  (list_elem_of_further _ _ _
                     (list_elem_of_further _ _ _
                        (list_elem_of_further _ _ _ (list_elem_of_here _ _))))).
    by vm_compute in Hall.
Qed.

(** ** Disabled keys *)

Lemma trajectoryDatum_disabled en nH nI (lower upper : list Sample) x i d k :
  trajectoryDatum en nH nI lower upper x i = Returned d →
  k ∈ DATA_POINTS.values → k ≠ "hospitalBeds" → k ≠ "ICUbeds" → k ∉ en →
  get d k = VUndef.
Proof.
  intros Hd Hk Hh Hi Hen. apply includes_false in Hen.
  destruct (trajectoryDatum_inv _ _ _ _ _ _ _ _ Hd) as (_ & Hpoint & _ & _ & _ & Habsent).
  assert (∀ m, includes en (keyOf m) = false → get d (keyOf m) = VUndef) as Hcomp.
  { intros m Hm. rewrite Hpoint. unfold pointValue. by rewrite Hm. }
  assert (∀ k', k' ∈ [ "exposed"; "cumulativeCases"; "newCases"; "observedDeaths";
                       "cases"; "currentHospitalized"; "ICU" ] → get d k' = VUndef)
    as Hobs.
  { intros k' Hk'. unfold get. by rewrite (Habsent k' Hk'). }
  unfold DATA_POINTS.values in Hk. list_case Hk; try done;
    first [ by apply (Hcomp Susceptible) | by apply (Hcomp Infectious)
          | by apply (Hcomp Severe) | by apply (Hcomp Critical)
          | by apply (Hcomp Overflow) | by apply (Hcomp Recovered)
          | by apply (Hcomp Fatalities) | apply Hobs; in_list ].
Qed.

Lemma observationDatum_disabled en nH nI cc x i d k :
  observationDatum en nH nI cc x i = Returned d →
  k ∈ DATA_POINTS.values → k ≠ "hospitalBeds" → k ≠ "ICUbeds" → k ∉ en →
  get d k = VUndef.
Proof.
  intros Hd Hk Hh Hi Hen. apply includes_false in Hen.
  unfold observationDatum in Hd.
  unfold DATA_POINTS.ObservedNewCases, DATA_POINTS.ObservedCases,
    DATA_POINTS.ObservedDeaths, DATA_POINTS.ObservedHospitalized,
    DATA_POINTS.ObservedICU in Hd.
  unfold DATA_POINTS.values in Hk. list_case Hk; unfold_keys; try done;
    rewrite ?Hen in Hd;
    (destruct (includes en "newCases"); [destruct (newCases cc i)|]);
    simpl in Hd; simplify_eq; try done; unfold get; simpl;
    by rewrite ?Hen.
Qed.

Lemma get_spread_undefined a d k :
  get a k = VUndef → get d k = VUndef → get (spread a d) k = VUndef.
Proof.
  intros Ha Hd. rewrite get_spread. unfold get in Hd.
  by destruct (fields d !! k).
Qed.

Lemma plotData_disabled en nH nI t cco pd k :
  plotData en nH nI t cco = Returned pd →
  k ∈ DATA_POINTS.values → k ≠ "hospitalBeds" → k ≠ "ICUbeds" → k ∉ en →
  Forall (λ d, get d k = VUndef) pd.
Proof.
  intros Hpd Hk Hh Hi Hen. unfold plotData in Hpd.
  destruct (observations en nH nI cco) as [|obs] eqn:Hobs; [done|].
  destruct (trajectoryData en nH nI t) as [|traj] eqn:Htraj; [done|].
  simpl in Hpd. simplify_eq. apply Forall_app. split.
  - apply Forall_forall. intros d Hd. apply list_elem_of_lookup in Hd as [i Hd].
    destruct (mapIdx_inv _ _ _ Htraj) as [Hlen Hall].
    destruct (lookup_lt_is_Some_2 (mean t) i) as [x Hx].
    { rewrite <- Hlen. by eapply lookup_lt_Some. }
    destruct (Hall i x Hx) as (d' & Hd' & Hdat). simplify_eq.
    by eapply trajectoryDatum_disabled.
  - destruct cco as [cc|]; [|simpl in Hobs; simplify_eq; constructor].
    apply Forall_forall. intros d Hd. apply list_elem_of_lookup in Hd as [i Hd].
    unfold observations in Hobs.
    destruct (mapIdx_inv _ _ _ Hobs) as [Hlen Hall].
    destruct (lookup_lt_is_Some_2 (nonEmptyCaseCounts cc) i) as [x Hx].
    { rewrite <- Hlen. by eapply lookup_lt_Some. }
    destruct (Hall i x Hx) as (d' & Hd' & Hdat). simplify_eq.
    by eapply observationDatum_disabled.
Qed.

Lemma consolidate_Forall (P : PlotDatum → Prop) l :
  (∀ a d, P a → P d → P (spread a d)) → Forall P l → Forall P (consolidate l).
Proof.
  intros Hspread Hl. destruct l as [|d0 l]; [constructor|].
  rewrite consolidate_cons. apply Forall_cons in Hl as [? ?].
  by apply consolidateFrom_Forall.
Qed.

Section Toggle.
Variable sort : list PlotDatum → list PlotDatum.
Hypothesis sort_ok : sortsByTime sort.

(** With a key that is not enabled, the recomputation returns and no datum
    of the merged series holds a value under the key, the two reference
    keys apart. *)
Lemma render_disabled props en t k :
  data props = Some t → aligned t →
  k ∈ DATA_POINTS.values →
  k ≠ DATA_POINTS.HospitalBeds → k ≠ DATA_POINTS.ICUbeds →
  k ∉ en →
  ∃ r, render sort props en = Returned r ∧
       ∀ chart, r = Some chart → ∀ d, d ∈ chartData chart → get d k = VUndef.
Proof.
  intros Hdata Hal Hk Hh Hi Hout.
  destruct (render_returns sort sort_ok props en t Hdata Hal) as [r Hr].
  exists r. split; [done|]. intros chart -> d Hd.
  apply render_inv in Hr. rewrite Hdata in Hr.
  destruct Hr as (pd & Hpd & _ & _ & mn & mx & _ & _ & ->). simpl in Hd.
  pose proof (plotData_disabled _ _ _ _ _ _ k Hpd Hk Hh Hi Hout) as Hall.
  assert (Forall (λ d, get d k = VUndef) (sort pd)) as Hsorted.
  { destruct (sort_ok pd) as [Hperm _]. by rewrite Hperm. }
  assert (Forall (λ d, get d k = VUndef) (consolidate (sort pd))) as Hcons.
  { apply consolidate_Forall; [|done]. intros a b. apply get_spread_undefined. }
  rewrite Forall_forall in Hcons. by apply Hcons.
Qed.

(** X24: for every metric key other than [hospitalBeds] and [ICUbeds]
    that occurs exactly once in the enabled list, the click on its entry
    leaves a list without the key; the recomputation with that list
    returns, and no datum of the merged series holds a value under the
    key. *)
Theorem toggle_removes_key props enabledPlots t k :
  data props = Some t → aligned t →
  k ∈ DATA_POINTS.values →
  k ≠ DATA_POINTS.HospitalBeds → k ≠ DATA_POINTS.ICUbeds →
  count_occ String.string_dec enabledPlots k = 1%nat →
  (k ∉ onClick enabledPlots k) ∧ toggleSafe sort props enabledPlots k.
Proof.
  intros Hdata Hal Hk Hh Hi Hone.
  pose proof (onClick_removes enabledPlots k Hone) as Hout.
  split; [done|]. unfold toggleSafe.
  by apply (render_disabled props (onClick enabledPlots k) t k).
Qed.

(** In every state of the legend this covers every enabled metric key but
    the two reference keys and ["newCases"]. *)
Lemma reachable_toggle_safe props enabledPlots t k :
  data props = Some t → aligned t →
  reachable enabledPlots → k ∈ enabledPlots →
  k ∈ DATA_POINTS.values →
  k ≠ DATA_POINTS.HospitalBeds → k ≠ DATA_POINTS.ICUbeds → k ≠ "newCases" →
  (k ∉ onClick enabledPlots k) ∧ toggleSafe sort props enabledPlots k.
Proof.
  intros Hdata Hal Hr Hin Hk Hh Hi Hn.
  assert (k ∉ onClick enabledPlots k) as Hout.
  { apply onClick_removes.
    pose proof (reachable_count enabledPlots k Hr Hn).
    apply list_elem_of_In, (count_occ_In String.string_dec) in Hin. lia. }
  split; [done|]. unfold toggleSafe.
  by apply (render_disabled props (onClick enabledPlots k) t k).
Qed.
End Toggle.

Lemma toggle_removes_key_witness :
  ("susceptible" ∉ onClick DATA_POINTS.values "susceptible") ∧
  toggleSafe sortByTime sampleProps DATA_POINTS.values "susceptible".
Proof.
  apply (toggle_removes_key sortByTime sortByTime_sorts sampleProps
           DATA_POINTS.values sampleTrajectory "susceptible").
  - reflexivity.
  - split; reflexivity.
  - in_list.
  - discriminate.
  - discriminate.
  - reflexivity.
Defined.

(** ** The enabled set as a set *)

Lemma includes_ext en en' :
  (∀ k, k ∈ en ↔ k ∈ en') → ∀ k, includes en k = includes en' k.
Proof. intros H k. unfold includes. apply bool_decide_ext, H. Qed.

Lemma mapFrom_ext {A B} (f g : A → nat → outcome B) xs :
  (∀ x i, f x i = g x i) → ∀ n, mapFrom f n xs = mapFrom g n xs.
Proof.
  intros Hfg. induction xs as [|x xs IH]; intros n; simpl; [done|].
  by rewrite Hfg, IH.
Qed.

Lemma plotData_ext en en' nH nI t cco :
  (∀ k, k ∈ en ↔ k ∈ en') → plotData en nH nI t cco = plotData en' nH nI t cco.
Proof.
  intros H. pose proof (includes_ext en en' H) as Hinc.
  assert (observations en nH nI cco = observations en' nH nI cco) as Hobs.
  { unfold observations. destruct cco as [cc|]; [|done].
    apply mapFrom_ext. intros x i. unfold observationDatum. by rewrite !Hinc. }
  assert (trajectoryData en nH nI t = trajectoryData en' nH nI t) as Htraj.
  { unfold trajectoryData. apply mapFrom_ext. intros x i.
    unfold trajectoryDatum, areaValue, pointValue. by rewrite !Hinc. }
  unfold plotData. by rewrite Hobs, Htraj.
Qed.

Lemma qualifies_ext en en' series v :
  (∀ k, k ∈ en ↔ k ∈ en') → qualifies en series v ↔ qualifies en' series v.
Proof.
  intros H. unfold qualifies.
  split; intros (d & k & ? & ? & ?); exists d, k; (split; [done|]);
    (split; [by apply H|done]).
Qed.

Lemma numDataMax_ext en en' series :
  (∀ k, k ∈ en ↔ k ∈ en') → numDataMax en series = numDataMax en' series.
Proof.
  intros H. destruct (numDataMax en series) as [m|] eqn:Hm; symmetry.
  - apply numDataMax_Some. apply numDataMax_Some in Hm as [Hq Hub]. split.
    + by apply (qualifies_ext en en').
    + intros v Hv. apply Hub. by apply (qualifies_ext en en').
  - apply numDataMax_None. intros v Hv. rewrite numDataMax_None in Hm.
    apply (Hm v). by apply (qualifies_ext en en').
Qed.

(** Where no band is read, the maximum depends on the keys that are
    enabled, not on their order nor on how often they are listed. *)
Lemma yDataMax_ext en en' series :
  numericUnder en series →
  (∀ k, k ∈ en ↔ k ∈ en') → yDataMax en series = yDataMax en' series.
Proof.
  intros Hnum H.
  assert (numericUnder en' series) as Hnum'.
  { intros d k lo hi Hd Hk. apply (Hnum d k lo hi Hd). by apply H. }
  rewrite (yDataMax_numDataMax _ _ Hnum), (yDataMax_numDataMax _ _ Hnum').
  f_equal. by apply numDataMax_ext.
Qed.

(** ** Clicks on the legend *)

Lemma onClick_other en k k' : k' ≠ k → k' ∈ onClick en k ↔ k' ∈ en.
Proof.
  intros Hne. unfold onClick. destruct (includes en k) eqn:Hinc.
  - apply includes_true in Hinc.
    destruct (splice1_indexOf en k Hinc) as (l1 & l2 & -> & _ & ->).
    rewrite !elem_of_app, elem_of_cons. tauto.
  - rewrite elem_of_app, list_elem_of_singleton. tauto.
Qed.

Lemma splice1_appended en k :
  k ∉ en → splice1 (en ++ [k]) (indexOf (en ++ [k]) k) = en.
Proof.
  induction en as [|p en IH]; intros Hk; simpl.
  - by rewrite String.eqb_refl.
  - apply not_elem_of_cons in Hk as [Hne Hk].
    destruct (String.eqb_spec p k) as [->|_]; [done|].
    specialize (IH Hk). destruct (indexOf (en ++ [k]) k) as [i|]; simpl in *.
    + by rewrite IH.
    + destruct (en ++ [k])%list eqn:Happ; [by destruct en|]. by rewrite IH.
Qed.

Lemma onClick_append en k : k ∉ en → onClick en k = (en ++ [k])%list.
Proof. intros Hk. unfold onClick. by rewrite (proj2 (includes_false en k) Hk). Qed.

(** X2: a click on a key that is not enabled appends it, and a second
    click on it gives back the very list the first click started from. *)
Theorem onClick_enable_disable (enabledPlots : list string) (k : string) :
  k ∉ enabledPlots →
  onClick enabledPlots k = (enabledPlots ++ [k])%list ∧
  onClick (onClick enabledPlots k) k = enabledPlots.
Proof.
  intros Hk.
  assert (onClick enabledPlots k = (enabledPlots ++ [k])%list) as Hfirst.
  { unfold onClick. by rewrite (proj2 (includes_false enabledPlots k) Hk). }
  split; [done|]. rewrite Hfirst. unfold onClick.
  rewrite (proj2 (includes_true _ k)).
  - by apply splice1_appended.
  - rewrite elem_of_app, list_elem_of_singleton. by right.
Qed.

Lemma onClick_enable_disable_witness :
  onClick ["cases"; "ICU"] "severe" = ["cases"; "ICU"; "severe"] ∧
  onClick (onClick ["cases"; "ICU"] "severe") "severe" = ["cases"; "ICU"].
Proof. apply (onClick_enable_disable ["cases"; "ICU"] "severe"). by apply includes_false. Defined.

(** X3: a click on a key that occurs once removes it, and a second click
    puts it back at the end: the list is a permutation of the first one,
    with the same keys enabled. *)
Theorem onClick_disable_enable (enabledPlots : list string) (k : string) :
  count_occ String.string_dec enabledPlots k = 1%nat →
  (k ∉ onClick enabledPlots k) ∧
  onClick (onClick enabledPlots k) k ≡ₚ enabledPlots ∧
  ∀ k', k' ∈ onClick (onClick enabledPlots k) k ↔ k' ∈ enabledPlots.
Proof.
  intros Hone. pose proof (onClick_removes enabledPlots k Hone) as Hout.
  split; [done|].
  assert (onClick (onClick enabledPlots k) k ≡ₚ enabledPlots) as Hperm.
  { rewrite (onClick_append (onClick enabledPlots k) k Hout).
    assert (k ∈ enabledPlots) as Hin.
    { apply list_elem_of_In, (count_occ_In String.string_dec). lia. }
    unfold onClick. rewrite (proj2 (includes_true enabledPlots k) Hin).
    destruct (splice1_indexOf enabledPlots k Hin) as (l1 & l2 & -> & _ & ->).
    rewrite <- app_assoc. apply Permutation_app_head.
    symmetry. apply Permutation_cons_append. }
  split; [done|]. intros k'. by rewrite Hperm.
Qed.

Lemma onClick_disable_enable_witness :
  ("ICU" ∉ onClick ["cases"; "ICU"; "severe"] "ICU") ∧
  onClick (onClick ["cases"; "ICU"; "severe"] "ICU") "ICU" ≡ₚ ["cases"; "ICU"; "severe"] ∧
  ∀ k', k' ∈ onClick (onClick ["cases"; "ICU"; "severe"] "ICU") "ICU"
        ↔ k' ∈ ["cases"; "ICU"; "severe"].
Proof. apply (onClick_disable_enable ["cases"; "ICU"; "severe"] "ICU"). reflexivity. Defined.

(** X4: a click on an entry never changes the class of another entry; it
    flips the class of its own entry when the key occurs at most once in
    the enabled list, and leaves it active when the key occurs more often. *)
Theorem legendFormatter_click (enabledPlots : list string) (k : string) :
  (∀ k', k' ≠ k →
         legendFormatter (onClick enabledPlots k) k' = legendFormatter enabledPlots k') ∧
  ((count_occ String.string_dec enabledPlots k ≤ 1)%nat →
   legendFormatter (onClick enabledPlots k) k ≠ legendFormatter enabledPlots k) ∧
  ((2 ≤ count_occ String.string_dec enabledPlots k)%nat →
   legendFormatter (onClick enabledPlots k) k = "legend" ∧
   legendFormatter enabledPlots k = "legend").
Proof.
  unfold legendFormatter. split; [|split].
  - intros k' Hne. unfold includes.
    by rewrite (bool_decide_ext _ _ (onClick_other enabledPlots k k' Hne)).
  - intros Hle. destruct (decide (k ∈ enabledPlots)) as [Hin|Hout].
    + assert (count_occ String.string_dec enabledPlots k = 1%nat) as Hone.
      { apply list_elem_of_In, (count_occ_In String.string_dec) in Hin. lia. }
      rewrite (proj2 (includes_true enabledPlots k) Hin).
      by rewrite (proj2 (includes_false _ k) (onClick_removes _ _ Hone)).
    + rewrite (proj2 (includes_false enabledPlots k) Hout).
      rewrite (onClick_append enabledPlots k Hout).
      rewrite (proj2 (includes_true _ k)); [done|].
      rewrite elem_of_app, list_elem_of_singleton. by right.
  - intros Hge. assert (k ∈ enabledPlots) as Hin.
    { apply list_elem_of_In, (count_occ_In String.string_dec). lia. }
    rewrite (proj2 (includes_true enabledPlots k) Hin). split; [|done].
    rewrite (proj2 (includes_true _ k)); [done|].
    unfold onClick. rewrite (proj2 (includes_true enabledPlots k) Hin).
    destruct (splice1_indexOf enabledPlots k Hin) as (l1 & l2 & Hen & Hl1 & ->).
    rewrite Hen, count_occ_app in Hge. simpl in Hge.
    destruct (String.string_dec k k); [|done].
    apply count_occ_zero in Hl1. rewrite elem_of_app. right.
    apply list_elem_of_In, (count_occ_In String.string_dec). lia.
Qed.

(** X5: in every state the legend can reach from the initial one, a key
    other than ["newCases"] occurs at most once in [enabledPlots], and
    ["newCases"] at most twice. *)
Theorem enabledPlots_invariant (enabledPlots : list string) :
  reachable enabledPlots →
  (∀ k, k ≠ "newCases" → (count_occ String.string_dec enabledPlots k ≤ 1)%nat) ∧
  (count_occ String.string_dec enabledPlots "newCases" ≤ 2)%nat.
Proof.
  intros Hr. split; [intros k Hk; by apply reachable_count|].
  induction Hr as [|en k' Hr IH]; [by vm_compute|].
  destruct (onClick_count en "newCases" k') as [Hle|(_ & _ & ->)]; lia.
Qed.

Lemma enabledPlots_invariant_witness :
  (∀ k, k ≠ "newCases" →
        (count_occ String.string_dec (onClick DATA_POINTS.values "cases") k ≤ 1)%nat) ∧
  (count_occ String.string_dec (onClick DATA_POINTS.values "cases") "newCases" ≤ 2)%nat.
Proof.
  apply (enabledPlots_invariant (onClick DATA_POINTS.values "cases")).
  apply reachable_click, reachable_init.
Defined.

(** ** More on the consolidation *)

Lemma consolidateFrom_Forall_tied (P : PlotDatum → Prop) l :
  (∀ a d, time d = time a → P a → P d → P (spread a d)) →
  ∀ cur, P cur → Forall P l → Forall P (consolidateFrom cur l).
Proof.
  intros Hspread. induction l as [|d l IH]; intros cur Hcur Hl; simpl.
  - by constructor.
  - apply Forall_cons in Hl as [Hd Hl]. case_decide.
    + apply IH; [by apply Hspread|done].
    + constructor; [done|]. by apply IH.
Qed.

(** X7: the consolidation invents nothing: every own property of a
    consolidated datum, with its value, is an own property of a datum of
    the array that carries the same timestamp. *)
Theorem consolidate_no_invention (l : list PlotDatum) (d : PlotDatum) k v :
  d ∈ consolidate l →
  fields d !! k = Some v →
  ∃ d', d' ∈ l ∧ time d' = time d ∧ fields d' !! k = Some v.
Proof.
  intros Hd Hk.
  set (P := λ d : PlotDatum, ∀ k v, fields d !! k = Some v →
              ∃ d', d' ∈ l ∧ time d' = time d ∧ fields d' !! k = Some v).
  assert (Forall P l) as Hl.
  { apply Forall_forall. intros d' Hd' k' v' Hk'. by exists d'. }
  assert (Forall P (consolidate l)) as Hall.
  { destruct l as [|d0 l0] eqn:El; [constructor|]. rewrite consolidate_cons.
    apply Forall_cons in Hl as [Hd0 Hl0].
    apply consolidateFrom_Forall_tied; [|done..].
    intros a b Ht Ha Hb k' v' Hk'. rewrite fields_spread in Hk'. simpl.
    destruct (fields b !! k') as [w|] eqn:Hbk.
    - simplify_eq. by apply Hb.
    - destruct (Ha k' v' Hk') as (d' & ? & ? & ?). exists d'.
      split; [done|]. split; [congruence|done]. }
  rewrite Forall_forall in Hall. by apply (Hall d Hd).
Qed.

Lemma consolidate_no_invention_witness :
  ∃ d', d' ∈ [computedAt5; observedAt5] ∧
        time d' = time (spread computedAt5 observedAt5) ∧
        fields d' !! "cases" = Some (VNum 7).
Proof.
  apply (consolidate_no_invention [computedAt5; observedAt5]
           (spread computedAt5 observedAt5) "cases" (VNum 7)).
  - apply list_elem_of_here.
  - reflexivity.
Defined.

Lemma consolidateFrom_untied l : ∀ cur, untied (cur :: l) → consolidateFrom cur l = cur :: l.
Proof.
  induction l as [|d l IH]; intros cur Hs; simpl; [done|].
  apply Sorted_inv in Hs as [Hs Hhd]. apply HdRel_inv in Hhd.
  rewrite decide_False by done. by rewrite IH.
Qed.

Lemma consolidateFrom_is_untied l : ∀ cur, untied (consolidateFrom cur l).
Proof.
  induction l as [|d l IH]; intros cur; simpl.
  - repeat constructor.
  - case_decide as Ht; [apply IH|].
    constructor; [apply IH|].
    destruct (consolidateFrom_head l d) as (c & rest & -> & Hc).
    constructor. congruence.
Qed.

Lemma consolidate_is_untied l : untied (consolidate l).
Proof.
  destruct l as [|d0 l]; [constructor|].
  rewrite consolidate_cons. apply consolidateFrom_is_untied.
Qed.

Lemma consolidate_untied l : untied l → consolidate l = l.
Proof.
  destruct l as [|d0 l]; [done|]. rewrite consolidate_cons.
  apply consolidateFrom_untied.
Qed.

(** X8: the consolidation leaves an array unchanged exactly when no two
    neighbours of the array carry the same timestamp; in particular its
    own result never has two such neighbours. *)
Theorem consolidate_fixpoint (l : list PlotDatum) :
  (consolidate l = l ↔ untied l) ∧ untied (consolidate l).
Proof.
  split; [|apply consolidate_is_untied]. split.
  - intros <-. apply consolidate_is_untied.
  - apply consolidate_untied.
Qed.

Lemma consolidateFrom_length l : ∀ cur,
  (length (consolidateFrom cur l) ≤ S (length l))%nat.
Proof.
  induction l as [|d l IH]; intros cur; simpl; [done|].
  case_decide; [specialize (IH (spread cur d))|specialize (IH d); simpl]; lia.
Qed.

(** X9: consolidating twice is consolidating once, and the consolidation
    never yields more data than it is given. *)
Theorem consolidate_idempotent (l : list PlotDatum) :
  consolidate (consolidate l) = consolidate l ∧
  (length (consolidate l) ≤ length l)%nat.
Proof.
  split; [apply consolidate_untied, consolidate_is_untied|].
  destruct l as [|d0 l]; [done|]. rewrite consolidate_cons.
  apply consolidateFrom_length.
Qed.

(** The own properties of a trajectory datum. *)
Lemma trajectoryDatum_own en nH nI (lower upper : list Sample) x i a k v :
  trajectoryDatum en nH nI lower upper x i = Returned a →
  fields a !! k = Some v →
  (k ∈ [ "susceptible"; "infectious"; "severe"; "critical"; "overflow";
         "recovered"; "fatality" ] ∧
   (v = VUndef ∨ ∃ n, v = VNum n ∧ n ≠ 0 ∧
                      ∃ m, k = keyOf m ∧ n = Math_round (totalOf m x))) ∨
  (k ∈ [ "susceptible_area"; "infectious_area"; "severe_area"; "critical_area";
         "overflow_area"; "recovered_area"; "fatality_area" ] ∧
   (v = VUndef ∨ ∃ lo hi, v = VBand lo hi)) ∨
  (k = "hospitalBeds" ∧ v = nH) ∨ (k = "ICUbeds" ∧ v = nI).
Proof.
  assert (∀ m a, areaValue en (keyOf m) (totalOf m) lower upper i = Returned a →
                 a = VUndef ∨ ∃ lo hi, a = VBand lo hi) as Harea.
  { intros m a'. unfold areaValue. destruct (includes _ _); [|intros [= <-]; by left].
    destruct (deref lower i); [done|]. destruct (deref upper i); [done|].
    simpl. intros [= <-]. right. by eexists _, _. }
  assert (∀ m, pointValue en (keyOf m) (totalOf m x) = VUndef ∨
               ∃ n, pointValue en (keyOf m) (totalOf m x) = VNum n ∧ n ≠ 0 ∧
                    ∃ m', keyOf m = keyOf m' ∧ n = Math_round (totalOf m' x)) as Hpoint.
  { intros m. unfold pointValue, orUndefined. destruct (includes _ _); [|by left].
    case_decide; [by left|]. right. eexists. split; [done|]. split; [done|].
    by exists m. }
  unfold trajectoryDatum.
  destruct (areaValue en (keyOf Susceptible) _ _ _ _) as [|a1] eqn:H1; [done|].
  destruct (areaValue en (keyOf Infectious) _ _ _ _) as [|a2] eqn:H2; [done|].
  destruct (areaValue en (keyOf Severe) _ _ _ _) as [|a3] eqn:H3; [done|].
  destruct (areaValue en (keyOf Critical) _ _ _ _) as [|a4] eqn:H4; [done|].
  destruct (areaValue en (keyOf Overflow) _ _ _ _) as [|a5] eqn:H5; [done|].
  destruct (areaValue en (keyOf Recovered) _ _ _ _) as [|a6] eqn:H6; [done|].
  destruct (areaValue en (keyOf Fatalities) _ _ _ _) as [|a7] eqn:H7; [done|].
  apply Harea in H1, H2, H3, H4, H5, H6, H7.
  simpl. intros [= <-]. simpl. intros Hk.
  repeat (rewrite lookup_insert in Hk; case_decide;
          [subst k; simplify_eq;
           first [ left; split; [in_list|];
                   first [ exact (Hpoint Susceptible) | exact (Hpoint Infectious)
                         | exact (Hpoint Severe) | exact (Hpoint Critical)
                         | exact (Hpoint Overflow) | exact (Hpoint Recovered)
                         | exact (Hpoint Fatalities) ]
                 | right; left; split; [in_list|done]
                 | right; right; left; done
                 | right; right; right; done ]|]).
  by rewrite lookup_empty in Hk.
Qed.

Lemma observationDatum_lacks en nH nI cc o j b k :
  observationDatum en nH nI cc o j = Returned b →
  k ∈ [ "susceptible"; "infectious"; "severe"; "critical"; "overflow";
        "recovered"; "fatality";
        "susceptible_area"; "infectious_area"; "severe_area"; "critical_area";
        "overflow_area"; "recovered_area"; "fatality_area" ] →
  fields b !! k = None.
Proof.
  intros Hb Hk. destruct (fields b !! k) as [v|] eqn:Hv; [|done]. exfalso.
  destruct (observationDatum_own _ _ _ _ _ _ _ _ _ Hb Hv) as [Hin|[[-> _]|[-> _]]].
  - list_case Hin; apply list_elem_of_In in Hk; simpl in Hk; intuition discriminate.
  - apply list_elem_of_In in Hk; simpl in Hk; intuition discriminate.
  - apply list_elem_of_In in Hk; simpl in Hk; intuition discriminate.
Qed.

(** X10: when a datum of the trajectory and a datum of the observations
    meet at one timestamp, the order in which the sort leaves them does not
    matter: either spread holds, under every key, the value of the datum
    that has one, and no value is lost. *)
Theorem tie_order_irrelevant en nH nI lower upper x i cc o j a b :
  trajectoryDatum en nH nI lower upper x i = Returned a →
  observationDatum en nH nI cc o j = Returned b →
  ∀ k, get (spread a b) k = get (spread b a) k ∧
       (get b k ≠ VUndef → get (spread a b) k = get b k) ∧
       (get b k = VUndef → get (spread a b) k = get a k).
Proof.
  intros Ha Hb k.
  destruct (trajectory_observation_union _ _ _ _ _ _ _ _ _ _ _ _ Ha Hb k) as [Hdef Hundef].
  split; [|by split].
  rewrite (get_spread b a). destruct (fields a !! k) as [v|] eqn:Hak.
  - destruct (trajectoryDatum_own _ _ _ _ _ _ _ _ _ _ Ha Hak)
      as [[Hin _]|[[Hin _]|[[-> ->]|[-> ->]]]].
    + rewrite get_spread, (observationDatum_lacks _ _ _ _ _ _ _ k Hb).
      * unfold get. by rewrite Hak.
      * list_case Hin; in_list.
    + rewrite get_spread, (observationDatum_lacks _ _ _ _ _ _ _ k Hb).
      * unfold get. by rewrite Hak.
      * list_case Hin; in_list.
    + rewrite get_spread. unfold observationDatum in Hb.
      destruct (includes en _); [destruct (newCases cc j)|]; simpl in Hb;
        by simplify_eq.
    + rewrite get_spread. unfold observationDatum in Hb.
      destruct (includes en _); [destruct (newCases cc j)|]; simpl in Hb;
        by simplify_eq.
  - rewrite get_spread. unfold get. rewrite Hak.
    by destruct (fields b !! k).
Qed.

Lemma tie_order_irrelevant_witness :
  ∃ a b,
    trajectoryDatum DATA_POINTS.values (VNum 10) VUndef [sample 1 80 0] [sample 1 95 0]
      (sample 1 90 0) 0 = Returned a ∧
    observationDatum DATA_POINTS.values (VNum 10) VUndef [record 1 (Some 10) None]
      (record 1 (Some 10) None) 0 = Returned b ∧
    ∀ k, get (spread a b) k = get (spread b a) k ∧
         (get b k ≠ VUndef → get (spread a b) k = get b k) ∧
         (get b k = VUndef → get (spread a b) k = get a k).
Proof.
  eexists _, _. split; [reflexivity|]. split; [reflexivity|].
  apply (tie_order_irrelevant DATA_POINTS.values (VNum 10) VUndef
           [sample 1 80 0] [sample 1 95 0] (sample 1 90 0) 0%nat
           [record 1 (Some 10) None] (record 1 (Some 10) None) 0%nat);
    reflexivity.
Defined.

(** ** Invariants of the merged series *)

(** A property of every datum the two callbacks return holds of every
    datum of [plotData]. *)
Lemma plotData_Forall (P : PlotDatum → Prop) en nH nI t cco pd :
  plotData en nH nI t cco = Returned pd →
  (∀ x i d, x ∈ mean t →
            trajectoryDatum en nH nI (lower t) (upper t) x i = Returned d → P d) →
  (∀ cc x i d, cco = Some cc → x ∈ cc →
               observationDatum en nH nI (nonEmptyCaseCounts cc) x i = Returned d → P d) →
  Forall P pd.
Proof.
  intros Hpd Htraj Hobs.
  destruct (plotData_inv _ _ _ _ _ _ Hpd) as (traj & obs & Ht & Ho & -> & _).
  apply Forall_app. split; apply Forall_forall; intros d Hd;
    apply list_elem_of_lookup in Hd as [i Hd].
  - destruct (mapIdx_inv _ _ _ Ht) as [Hlen Hall].
    destruct (lookup_lt_is_Some_2 (mean t) i) as [x Hx].
    { rewrite <- Hlen. by eapply lookup_lt_Some. }
    destruct (Hall i x Hx) as (d' & Hd' & Hdat). simplify_eq.
    eapply Htraj; [|done]. by eapply list_elem_of_lookup_2.
  - destruct cco as [cc|]; [|simpl in Ho; simplify_eq; by rewrite lookup_nil in Hd].
    unfold observations in Ho. destruct (mapIdx_inv _ _ _ Ho) as [Hlen Hall].
    destruct (lookup_lt_is_Some_2 (nonEmptyCaseCounts cc) i) as [x Hx].
    { rewrite <- Hlen. by eapply lookup_lt_Some. }
    destruct (Hall i x Hx) as (d' & Hd' & Hdat). simplify_eq.
    eapply Hobs; [done| |done].
    apply list_elem_of_lookup_2, nonEmptyCaseCounts_elem in Hx. tauto.
Qed.

Lemma gated_newCases_shape (enabled : bool) cc j nc :
  (if enabled then newCases cc j else Returned VUndef) = Returned nc →
  nc = VUndef ∨ ∃ n, nc = VNum n ∧ 0 < n.
Proof.
  destruct enabled; [|intros [= <-]; by left].
  unfold newCases. destruct (caseStep <=? j)%nat; [|intros [= <-]; by left].
  destruct (deref cc j) as [|ci]; [done|]. simpl.
  destruct (truthy (cases ci)); [|intros [= <-]; by left].
  destruct (deref cc (j - caseStep)) as [|cj]; [done|]. simpl.
  destruct (truthy (cases cj)); [|intros [= <-]; by left].
  intros [= <-]. unfold verifyPositive.
  destruct (Z.ltb_spec 0 (default 0 (cases ci) - default 0 (cases cj)));
    [right; by eexists|by left].
Qed.

(** The values an observation datum holds. *)
Lemma observationDatum_values en nH nI cc o j b k v :
  observationDatum en nH nI cc o j = Returned b →
  fields b !! k = Some v →
  v = VUndef ∨
  (∃ n, v = VNum n ∧ n ≠ 0 ∧
        (cases o = Some n ∨ deaths o = Some n ∨ icu o = Some n ∨ hospitalized o = Some n)) ∨
  (∃ n, v = VNum n ∧ 0 < n ∧ k = "newCases") ∨
  (k = "hospitalBeds" ∧ v = nH) ∨ (k = "ICUbeds" ∧ v = nI).
Proof.
  assert (∀ f : EmpiricalDatum → option Z,
            optOrUndefined (f o) = VUndef ∨
            ∃ n, optOrUndefined (f o) = VNum n ∧ n ≠ 0 ∧ f o = Some n) as Hopt.
  { intros f. unfold optOrUndefined, orUndefined. destruct (f o) as [n|]; [|by left].
    case_decide; [by left|]. right. by exists n. }
  unfold observationDatum. intros Hb.
  destruct (if includes en DATA_POINTS.ObservedNewCases then _ else _) as [|nc] eqn:Hn;
    [done|]. apply gated_newCases_shape in Hn.
  simpl in Hb. simplify_eq. simpl. intros Hk.
  repeat (rewrite lookup_insert in Hk; case_decide;
          [subst k; simplify_eq|]); [..|by rewrite lookup_empty in Hk].
  - destruct (includes en _); [|by left].
    destruct (Hopt cases) as [->|(n & -> & ? & ?)]; [by left|].
    right; left. exists n. tauto.
  - destruct (includes en _); [|by left].
    destruct (Hopt deaths) as [->|(n & -> & ? & ?)]; [by left|].
    right; left. exists n. tauto.
  - destruct (includes en _); [|by left].
    destruct (Hopt hospitalized) as [->|(n & -> & ? & ?)]; [by left|].
    right; left. exists n. tauto.
  - destruct (includes en _); [|by left].
    destruct (Hopt icu) as [->|(n & -> & ? & ?)]; [by left|].
    right; left. exists n. tauto.
  - destruct Hn as [->|(n & -> & ?)]; [by left|]. right; right; left. by exists n.
  - tauto.
  - tauto.
Qed.

Lemma verifyPositive_shape x :
  verifyPositive x = VUndef ∨ (verifyPositive x = VNum x ∧ 0 < x).
Proof. unfold verifyPositive. destruct (Z.ltb_spec 0 x); [by right|by left]. Qed.

Lemma Math_round_nonneg x : (0 <= x)%Q → 0 ≤ Math_round x.
Proof.
  intros Hx. unfold Math_round. change 0 with (Qfloor 0).
  apply Qfloor_resp_le. apply Qle_trans with x; [done|].
  rewrite <- (Qplus_0_r x) at 1. by apply Qplus_le_r.
Qed.

Lemma Math_round_mono x y : (x <= y)%Q → Math_round x ≤ Math_round y.
Proof. intros Hxy. unfold Math_round. apply Qfloor_resp_le. by apply Qplus_le_l. Qed.

(** A datum of [plotData] holds a band only under the key of a band. *)
Lemma plotData_bands en (hospitalBeds icuBeds : Z) t cco pd :
  plotData en (verifyPositive hospitalBeds) (verifyPositive icuBeds) t cco = Returned pd →
  Forall (λ d, ∀ k lo hi, get d k = VBand lo hi → k ∈ map key areasToPlot) pd.
Proof.
  intros Hpd. eapply plotData_Forall; [exact Hpd| |].
  - intros x i a _ Ha k lo hi Hget. unfold get in Hget.
    destruct (fields a !! k) as [v|] eqn:Hv; [simpl in Hget; subst v|done].
    destruct (trajectoryDatum_own _ _ _ _ _ _ _ _ _ _ Ha Hv)
      as [[_ [?|(n & ? & _)]]|[[Hin _]|[[_ Hcap]|[_ Hcap]]]]; try done.
    + by destruct (verifyPositive_shape hospitalBeds) as [Hs|[Hs _]];
        rewrite Hs in Hcap.
    + by destruct (verifyPositive_shape icuBeds) as [Hs|[Hs _]];
        rewrite Hs in Hcap.
  - intros cc x i b _ _ Hb k lo hi Hget. unfold get in Hget.
    destruct (fields b !! k) as [v|] eqn:Hv; [simpl in Hget; subst v|done].
    destruct (observationDatum_values _ _ _ _ _ _ _ _ _ Hb Hv)
      as [?|[(n & ? & _)|[(n & ? & _)|[[_ Hcap]|[_ Hcap]]]]]; try done.
    + by destruct (verifyPositive_shape hospitalBeds) as [Hs|[Hs _]];
        rewrite Hs in Hcap.
    + by destruct (verifyPositive_shape icuBeds) as [Hs|[Hs _]];
        rewrite Hs in Hcap.
Qed.

Lemma bands_numericUnder en series :
  bandFree en →
  Forall (λ d, ∀ k lo hi, get d k = VBand lo hi → k ∈ map key areasToPlot) series →
  numericUnder en series.
Proof.
  intros Hfree HF d k lo hi Hd Hk _ _ Hp. unfold prop in Hp.
  case_decide; [done|]. rewrite Forall_forall in HF.
  apply (Hfree k Hk). by apply (HF d Hd k lo hi).
Qed.

(** No metric key is the key of a band, and none is [time]. *)
Lemma values_bandFree : bandFree DATA_POINTS.values.
Proof.
  intros k Hk Hin. apply list_elem_of_In in Hin. unfold DATA_POINTS.values in Hk.
  list_case Hk; unfold_keys; simpl in Hin; intuition discriminate.
Qed.

Lemma values_not_time k : k ∈ DATA_POINTS.values → k ≠ "time".
Proof.
  intros Hk ->. apply list_elem_of_In in Hk. unfold DATA_POINTS.values in Hk.
  unfold_keys. simpl in Hk. intuition discriminate.
Qed.

Lemma subseteq_bandFree en en' : en ⊆ en' → bandFree en' → bandFree en.
Proof. intros Hsub Hfree k Hk. apply Hfree. by apply Hsub. Qed.

Section Invariants.
Variable sort : list PlotDatum → list PlotDatum.
Hypothesis sort_ok : sortsByTime sort.

(** A property that spreads keep and that every datum of [plotData] has
    holds of every datum of the merged series. *)
Lemma chartData_Forall (P : PlotDatum → Prop) props en chart :
  render sort props en = Returned (Some chart) →
  (∀ a d, P a → P d → P (spread a d)) →
  (∀ t pd, data props = Some t →
           plotData en (verifyPositive (populationHospitalBeds props))
             (verifyPositive (populationICUBeds props)) t (caseCounts props)
           = Returned pd → Forall P pd) →
  Forall P (chartData chart).
Proof.
  intros Hr Hspread Hpd. apply render_inv in Hr.
  destruct (data props) as [t|]; [|done].
  destruct Hr as (pd & Hplot & _ & _ & mn & mx & _ & _ & ->). simpl.
  apply consolidate_Forall; [done|].
  destruct (sort_ok pd) as [Hperm _]. rewrite Hperm. by apply (Hpd t).
Qed.

Lemma consolidated_bands (pd : list PlotDatum) :
  Forall (λ d, ∀ k lo hi, get d k = VBand lo hi → k ∈ map key areasToPlot) pd →
  Forall (λ d, ∀ k lo hi, get d k = VBand lo hi → k ∈ map key areasToPlot)
    (consolidate (sort pd)).
Proof.
  intros HF. apply consolidate_Forall.
  - intros a b Ha Hb k lo hi. rewrite get_spread.
    destruct (fields b !! k) as [v|] eqn:Hv; [|apply Ha].
    intros ->. apply (Hb k lo hi). unfold get. by rewrite Hv.
  - destruct (sort_ok pd) as [Hperm _]. by rewrite Hperm.
Qed.

(** With no key of a band enabled, the merged series of the chart holds no
    band under an enabled key. *)
Lemma chartData_numeric props en chart en' :
  render sort props en = Returned (Some chart) →
  bandFree en' → numericUnder en' (chartData chart).
Proof.
  intros Hr Hfree. apply render_inv in Hr. destruct (data props) as [t|]; [|done].
  destruct Hr as (pd & Hpd & _ & _ & mn & mx & _ & _ & ->). simpl.
  apply bands_numericUnder; [done|]. apply consolidated_bands.
  by eapply plotData_bands.
Qed.

Lemma render_membership_set props (en en' : list string) :
  bandFree en →
  (∀ k, k ∈ en ↔ k ∈ en') → render sort props en = render sort props en'.
Proof.
  intros Hfree H. unfold render. destruct (data props) as [t|]; [|done].
  rewrite (plotData_ext en en' _ _ _ _ H).
  destruct (plotData en' _ _ _ _) as [|pd] eqn:Hpd; simpl; [done|].
  rewrite (yDataMax_ext en en' (consolidate (sort pd))); [done| |done].
  apply bands_numericUnder; [done|]. apply consolidated_bands.
  by eapply plotData_bands.
Qed.

(** X1: the component reads an enabled list of metric keys as a set: two
    lists that hold the same metric keys, in whatever order and however
    often, give the same result, be it a chart, [null] or an exception. *)
Theorem render_membership props (enabledPlots enabledPlots' : list string) :
  enabledPlots ⊆ DATA_POINTS.values →
  (∀ k, k ∈ enabledPlots ↔ k ∈ enabledPlots') →
  render sort props enabledPlots = render sort props enabledPlots'.
Proof.
  intros Hsub. apply render_membership_set.
  exact (subseteq_bandFree _ _ Hsub values_bandFree).
Qed.

(** X6: from the initial state the first click on the ["newCases"] entry
    changes nothing: the key stays enabled and the component returns what
    it returned before, whatever the props are; only the second click
    disables the key. *)
Theorem newCases_needs_two_clicks props :
  "newCases" ∈ onClick DATA_POINTS.values "newCases" ∧
  render sort props (onClick DATA_POINTS.values "newCases")
  = render sort props DATA_POINTS.values ∧
  "newCases" ∉ onClick (onClick DATA_POINTS.values "newCases") "newCases".
Proof.
  split; [by apply includes_true|]. split; [|by apply includes_false].
  symmetry. apply render_membership_set; [exact values_bandFree|]. intros k.
  destruct (decide (k = "newCases")) as [->|Hne].
  - split; intros _; by apply includes_true.
  - symmetry. by apply onClick_other.
Qed.

(** X11: no datum of the merged series holds the number zero under a key
    other than [time]: a zero total, a zero count and a capacity of zero
    are all written as [undefined]. *)
Theorem merged_series_never_zero props enabledPlots chart :
  render sort props enabledPlots = Returned (Some chart) →
  ∀ d k, d ∈ chartData chart → k ≠ "time" → prop d k ≠ VNum 0.
Proof.
  intros Hr d k Hd Hk. unfold prop. case_decide; [done|]. revert k Hk H.
  pose proof (chartData_Forall (λ d, ∀ k, k ≠ "time" → k ≠ "time" → get d k ≠ VNum 0)
                props enabledPlots chart Hr) as Hall.
  rewrite Forall_forall in Hall. apply Hall; [| |done].
  - intros a b Ha Hb k' Hk' _. rewrite get_spread. specialize (Hb k' Hk' Hk').
    unfold get in Hb. destruct (fields b !! k'); [done|by apply Ha].
  - intros t pd _ Hpd. eapply plotData_Forall; [exact Hpd| |].
    + intros x i a _ Ha k' _ _. unfold get.
      destruct (fields a !! k') as [v|] eqn:Hv; [|done]. simpl.
      destruct (trajectoryDatum_own _ _ _ _ _ _ _ _ _ _ Ha Hv)
        as [[_ [->|(n & -> & ? & _)]]|[[_ [->|(lo & hi & ->)]]|[[_ ->]|[_ ->]]]];
        try done; try congruence.
      * destruct (verifyPositive_shape (populationHospitalBeds props)) as [->|[-> ?]];
          [done|intros [=]; lia].
      * destruct (verifyPositive_shape (populationICUBeds props)) as [->|[-> ?]];
          [done|intros [=]; lia].
    + intros cc x i b _ _ Hb k' _ _. unfold get.
      destruct (fields b !! k') as [v|] eqn:Hv; [|done]. simpl.
      destruct (observationDatum_values _ _ _ _ _ _ _ _ _ Hb Hv)
        as [->|[(n & -> & ? & _)|[(n & -> & ? & _)|[[_ ->]|[_ ->]]]]];
        try done; try (intros [=]; lia).
      * destruct (verifyPositive_shape (populationHospitalBeds props)) as [->|[-> ?]];
          [done|intros [=]; lia].
      * destruct (verifyPositive_shape (populationICUBeds props)) as [->|[-> ?]];
          [done|intros [=]; lia].
Qed.

(** X12: when no total of the mean trajectory and no observed count is
    negative, every number the merged series holds under a key other than
    [time] is at least 1; and when the enabled keys are metric keys, the
    maximum of the value axis is a number or nothing, at least 1 when it is
    a number, and the domain of the logarithmic axis, from 1 to 1.1 times
    the maximum, is then not empty. *)
Theorem merged_series_at_least_one props enabledPlots chart :
  nonNegative props →
  render sort props enabledPlots = Returned (Some chart) →
  (∀ d k n, d ∈ chartData chart → k ≠ "time" → prop d k = VNum n → 1 ≤ n) ∧
  (enabledPlots ⊆ DATA_POINTS.values →
   (∀ lo hi, chartYDataMax chart ≠ VBand lo hi) ∧
   ∀ m, chartYDataMax chart = VNum m →
        1 ≤ m ∧
        ∃ top, yDomain true (chartYDataMax chart) = (1, Some top) ∧ (1 < top)%Q).
Proof.
  intros [Htot Hcnt] Hr.
  assert (∀ d k n, d ∈ chartData chart → get d k = VNum n → 1 ≤ n) as Hget.
  { intros d k n Hd.
    pose proof (chartData_Forall (λ d, ∀ k n, get d k = VNum n → 1 ≤ n)
                  props enabledPlots chart Hr) as Hall.
    rewrite Forall_forall in Hall. apply Hall; [| |done].
    - intros a b Ha Hb k' n'. rewrite get_spread. specialize (Hb k' n').
      unfold get in Hb. destruct (fields b !! k'); [done|apply Ha].
    - intros t pd Hdata Hpd. eapply plotData_Forall; [exact Hpd| |].
      + intros x i a Hx Ha k' n'. unfold get.
        destruct (fields a !! k') as [v|] eqn:Hv; [|done]. simpl.
        destruct (trajectoryDatum_own _ _ _ _ _ _ _ _ _ _ Ha Hv)
          as [[_ [->|(n0 & -> & ? & m & _ & ->)]]
             |[[_ [->|(lo & hi & ->)]]|[[_ ->]|[_ ->]]]]; try done.
        * intros [= <-]. pose proof (Math_round_nonneg _ (Htot t x m Hdata Hx)). lia.
        * destruct (verifyPositive_shape (populationHospitalBeds props)) as [->|[-> ?]];
            [done|]. intros [= <-]. lia.
        * destruct (verifyPositive_shape (populationICUBeds props)) as [->|[-> ?]];
            [done|]. intros [= <-]. lia.
      + intros cc x i b Hcc Hx Hb k' n'. unfold get.
        destruct (fields b !! k') as [v|] eqn:Hv; [|done]. simpl.
        destruct (observationDatum_values _ _ _ _ _ _ _ _ _ Hb Hv)
          as [->|[(n0 & -> & ? & Hsrc)|[(n0 & -> & ? & _)|[[_ ->]|[_ ->]]]]];
          try done.
        * intros [= <-]. pose proof (Hcnt cc x Hcc Hx n0 Hsrc). lia.
        * intros [= <-]. lia.
        * destruct (verifyPositive_shape (populationHospitalBeds props)) as [->|[-> ?]];
            [done|]. intros [= <-]. lia.
        * destruct (verifyPositive_shape (populationICUBeds props)) as [->|[-> ?]];
            [done|]. intros [= <-]. lia. }
  assert (∀ d k n, d ∈ chartData chart → k ≠ "time" → prop d k = VNum n → 1 ≤ n)
    as Hone.
  { intros d k n Hd Hk. unfold prop. case_decide; [done|]. by apply Hget. }
  split; [done|]. intros Hsub.
  pose proof (chartData_numeric props enabledPlots chart enabledPlots Hr
                (subseteq_bandFree _ _ Hsub values_bandFree)) as Hnum.
  rewrite (render_yDataMax _ _ _ _ Hr).
  split; [intros lo hi; rewrite (yDataMax_numDataMax _ _ Hnum); apply ofNum_band|].
  intros m Hm.
  assert (1 ≤ m) as Hle.
  { apply (yDataMax_VNum _ _ _ Hnum) in Hm as [(d & k & Hd & Hk & _ & _ & Hp) _].
    apply (Hone d k m Hd); [|done]. by apply values_not_time, Hsub. }
  split; [done|]. rewrite Hm. eexists. split; [reflexivity|].
  unfold Qlt, inject_Z, Qmult. simpl. lia.
Qed.

(** X13: every datum of the merged series holds the same capacities: the
    hospital beds and the ICU beds of the population when they are
    positive, and nothing otherwise, whatever the enabled set is. *)
Theorem merged_series_capacities props enabledPlots chart :
  render sort props enabledPlots = Returned (Some chart) →
  ∀ d, d ∈ chartData chart →
    get d "hospitalBeds" = verifyPositive (populationHospitalBeds props) ∧
    get d "ICUbeds" = verifyPositive (populationICUBeds props).
Proof.
  intros Hr d Hd.
  pose proof (chartData_Forall
    (λ d, get d "hospitalBeds" = verifyPositive (populationHospitalBeds props) ∧
          get d "ICUbeds" = verifyPositive (populationICUBeds props))
    props enabledPlots chart Hr) as Hall.
  rewrite Forall_forall in Hall. apply Hall; [| |done].
  - intros a b [Ha1 Ha2] [Hb1 Hb2]. rewrite !get_spread. unfold get in Hb1, Hb2.
    split.
    + destruct (fields b !! "hospitalBeds"); [done|apply Ha1].
    + destruct (fields b !! "ICUbeds"); [done|apply Ha2].
  - intros t pd _ Hpd. eapply plotData_Forall; [exact Hpd| |].
    + intros x i a _ Ha.
      by destruct (trajectoryDatum_inv _ _ _ _ _ _ _ _ Ha) as (_ & _ & ? & ? & _).
    + intros cc x i b _ _ Hb. unfold observationDatum in Hb.
      destruct (includes enabledPlots _); [destruct (newCases _ i)|];
        simpl in Hb; by simplify_eq.
Qed.
End Invariants.

Lemma nonNegative_sampleProps : nonNegative sampleProps.
Proof.
  split.
  - intros t x m [= <-] Hx. simpl in Hx. list_case Hx; destruct m; by vm_compute.
  - intros cc d [= <-] Hd n Hn. list_case Hd; simpl in Hn;
      destruct Hn as [Hn|[Hn|[Hn|Hn]]]; simplify_eq; lia.
Qed.

Lemma render_membership_witness :
  render sortByTime sampleProps ["cases"; "susceptible"; "cases"]
  = render sortByTime sampleProps ["susceptible"; "cases"].
Proof.
  apply (render_membership sortByTime sortByTime_sorts sampleProps).
  - intros k Hk. list_case Hk; in_list.
  - intros k. rewrite !elem_of_cons. tauto.
Defined.

Lemma newCases_needs_two_clicks_witness :
  "newCases" ∈ onClick DATA_POINTS.values "newCases" ∧
  render sortByTime risingProps (onClick DATA_POINTS.values "newCases")
  = render sortByTime risingProps DATA_POINTS.values ∧
  "newCases" ∉ onClick (onClick DATA_POINTS.values "newCases") "newCases".
Proof. exact (newCases_needs_two_clicks sortByTime sortByTime_sorts risingProps). Defined.

Lemma merged_series_never_zero_witness :
  ∃ chart, render sortByTime sampleProps DATA_POINTS.values = Returned (Some chart) ∧
           ∀ d k, d ∈ chartData chart → k ≠ "time" → prop d k ≠ VNum 0.
Proof.
  eexists. split; [by vm_compute|].
  apply (merged_series_never_zero sortByTime sortByTime_sorts sampleProps
           DATA_POINTS.values).
  by vm_compute.
Defined.

Lemma merged_series_at_least_one_witness :
  ∃ chart, render sortByTime sampleProps DATA_POINTS.values = Returned (Some chart) ∧
    (∀ d k n, d ∈ chartData chart → k ≠ "time" → prop d k = VNum n → 1 ≤ n) ∧
    (∀ lo hi, chartYDataMax chart ≠ VBand lo hi) ∧
    (∀ m, chartYDataMax chart = VNum m →
          1 ≤ m ∧
          ∃ top, yDomain true (chartYDataMax chart) = (1, Some top) ∧ (1 < top)%Q).
Proof.
  eexists. split; [by vm_compute|].
  destruct (merged_series_at_least_one sortByTime sortByTime_sorts sampleProps
              DATA_POINTS.values _ nonNegative_sampleProps ltac:(by vm_compute))
    as [Hone Hmax].
  split; [exact Hone|]. by apply Hmax.
Defined.

Lemma merged_series_capacities_witness :
  ∃ chart, render sortByTime sampleProps DATA_POINTS.values = Returned (Some chart) ∧
    ∀ d, d ∈ chartData chart →
      get d "hospitalBeds" = verifyPositive (populationHospitalBeds sampleProps) ∧
      get d "ICUbeds" = verifyPositive (populationICUBeds sampleProps).
Proof.
  eexists. split; [by vm_compute|].
  apply (merged_series_capacities sortByTime sortByTime_sorts sampleProps
           DATA_POINTS.values).
  by vm_compute.
Defined.

(** ** The states of the legend *)

Lemma legendKeys_values : legendKeys ⊆ DATA_POINTS.values.
Proof.
  intros k Hk. unfold legendKeys in Hk. simpl in Hk. list_case Hk; in_list.
Qed.

Lemma onClick_subseteq en k (l : list string) : en ⊆ l → k ∈ l → onClick en k ⊆ l.
Proof.
  intros Hsub Hk k' Hk'. destruct (decide (k' = k)) as [->|Hne]; [done|].
  apply Hsub. by apply (onClick_other en k k' Hne).
Qed.

Lemma legendReachable_values en : legendReachable en → en ⊆ DATA_POINTS.values.
Proof.
  induction 1 as [|en k Hr IH Hk]; [done|].
  apply onClick_subseteq; [done|]. by apply legendKeys_values.
Qed.

(** X25: in every state the clicks on the entries of the legend can reach,
    the enabled keys are metric keys; the merged series then holds no band
    under an enabled key, and the maximum handed to the value axis is the
    greatest number held under an enabled key other than the two reference
    keys, and is undefined exactly when there is none. *)
Theorem legend_states_numeric sort props enabledPlots chart :
  sortsByTime sort →
  legendReachable enabledPlots →
  render sort props enabledPlots = Returned (Some chart) →
  enabledPlots ⊆ DATA_POINTS.values ∧
  numericUnder enabledPlots (chartData chart) ∧
  (∀ m, chartYDataMax chart = VNum m ↔
        qualifies enabledPlots (chartData chart) m ∧
        ∀ v, qualifies enabledPlots (chartData chart) v → v ≤ m) ∧
  (chartYDataMax chart = VUndef ↔ ∀ v, ¬ qualifies enabledPlots (chartData chart) v).
Proof.
  intros Hsort Hreach Hr.
  pose proof (legendReachable_values _ Hreach) as Hsub.
  pose proof (chartData_numeric sort Hsort props enabledPlots chart enabledPlots Hr
                (subseteq_bandFree _ _ Hsub values_bandFree)) as Hnum.
  split; [done|]. split; [done|]. rewrite (render_yDataMax _ _ _ _ Hr).
  split; [intros m; by apply yDataMax_VNum|by apply yDataMax_VUndef].
Qed.

Lemma legend_states_numeric_witness :
  ∃ chart,
    render sortByTime sampleProps (onClick DATA_POINTS.values "susceptible")
    = Returned (Some chart) ∧
    onClick DATA_POINTS.values "susceptible" ⊆ DATA_POINTS.values ∧
    numericUnder (onClick DATA_POINTS.values "susceptible") (chartData chart) ∧
    (∀ m, chartYDataMax chart = VNum m ↔
          qualifies (onClick DATA_POINTS.values "susceptible") (chartData chart) m ∧
          ∀ v, qualifies (onClick DATA_POINTS.values "susceptible") (chartData chart) v
               → v ≤ m) ∧
    (chartYDataMax chart = VUndef ↔
     ∀ v, ¬ qualifies (onClick DATA_POINTS.values "susceptible") (chartData chart) v).
Proof.
  eexists. split; [by vm_compute|].
  apply (legend_states_numeric sortByTime sampleProps
           (onClick DATA_POINTS.values "susceptible")).
  - exact sortByTime_sorts.
  - apply legendReachable_click; [apply legendReachable_init|in_list].
  - by vm_compute.
Defined.

(** ** The time axis and the overlay *)

Lemma ascending_unique (l1 l2 : list Z) :
  StronglySorted Z.lt l1 → StronglySorted Z.lt l2 →
  (∀ x, x ∈ l1 ↔ x ∈ l2) → l1 = l2.
Proof.
  intros H1. revert l2. induction H1 as [|x l1 Hs1 IH Hall1]; intros l2 H2 Hmem.
  - destruct l2 as [|y l2]; [done|]. exfalso.
    apply (not_elem_of_nil y), Hmem. left.
  - destruct H2 as [|y l2 Hs2 Hall2].
    { exfalso. apply (not_elem_of_nil x), Hmem. left. }
    rewrite Forall_forall in Hall1, Hall2.
    assert (x = y) as ->.
    { assert (x ∈ y :: l2) as Hx by (apply Hmem; left).
      assert (y ∈ x :: l1) as Hy by (apply Hmem; left).
      apply elem_of_cons in Hx as [?|Hx]; [done|].
      apply elem_of_cons in Hy as [?|Hy]; [done|].
      specialize (Hall1 y Hy). specialize (Hall2 x Hx). lia. }
    f_equal. apply IH; [done|]. intros z. split; intros Hz.
    + assert (z ∈ y :: l2) as Hz' by (apply Hmem; by right).
      apply elem_of_cons in Hz' as [->|?]; [|done].
      specialize (Hall1 y Hz). lia.
    + assert (z ∈ y :: l1) as Hz' by (apply Hmem; by right).
      apply elem_of_cons in Hz' as [->|?]; [|done].
      specialize (Hall2 y Hz). lia.
Qed.

(** What a returned chart says of its time axis, for any admissible sort. *)
Lemma render_time_axis sort props en chart :
  sortsByTime sort →
  render sort props en = Returned (Some chart) →
  ∃ t, data props = Some t ∧
       StronglySorted Z.lt (map time (chartData chart)) ∧
       (∀ ts, ts ∈ map time (chartData chart) ↔ ts ∈ inputTimes t (caseCounts props)) ∧
       chartTMin chart ∈ map time (chartData chart) ∧
       chartTMax chart ∈ map time (chartData chart) ∧
       (∀ ts, ts ∈ map time (chartData chart) → chartTMin chart ≤ ts ≤ chartTMax chart) ∧
       chartAreas chart
       = map (referenceArea (chartTMin chart) (chartTMax chart)) (mitigationIntervals props).
Proof.
  intros sort_ok Hr. apply render_inv in Hr.
  destruct (data props) as [t|]; [|done].
  destruct Hr as (pd & _ & Htimes & Hne & mn & mx & Hmn & Hmx & ->).
  exists t. split; [done|]. simpl.
  destruct (consolidate_sorted (sort pd)) as (Hss & _ & Hmem).
  { by apply sortsByTime_Sorted. }
  assert (sort pd ≠ []) as Hsne by (by apply sort_nonempty).
  destruct (minByTime_least _ Hsne) as (mn' & Hmn' & Hmnin & Hleast).
  destruct (maxByTime_greatest _ Hsne) as (mx' & Hmx' & Hmxin & Hgreatest).
  assert (mn' = mn) as -> by congruence. assert (mx' = mx) as -> by congruence.
  split; [done|]. split.
  { intros ts. rewrite Hmem, <- Htimes.
    destruct (sort_ok pd) as [Hperm _]. by rewrite Hperm. }
  split; [apply Hmem; by apply list_elem_of_fmap_2|].
  split; [apply Hmem; by apply list_elem_of_fmap_2|].
  split; [|done].
  intros ts Hts. apply Hmem, list_elem_of_fmap in Hts as (d & -> & Hd).
  split; eauto.
Qed.

(** X14: the time axis does not depend on the enabled set, nor on how the
    sort orders data with the same timestamp: two runs on the same props
    that both return a chart have the same timestamps, the same time domain
    and the same overlay areas, and if one run returns [null], so does the
    other whenever it returns. *)
Theorem time_axis_independent sort sort' props (enabledPlots enabledPlots' : list string) :
  sortsByTime sort → sortsByTime sort' →
  (∀ chart chart',
     render sort props enabledPlots = Returned (Some chart) →
     render sort' props enabledPlots' = Returned (Some chart') →
     map time (chartData chart) = map time (chartData chart') ∧
     chartTMin chart = chartTMin chart' ∧
     chartTMax chart = chartTMax chart' ∧
     chartAreas chart = chartAreas chart') ∧
  (∀ r', render sort props enabledPlots = Returned None →
         render sort' props enabledPlots' = Returned r' → r' = None).
Proof.
  intros Hs Hs'. split.
  - intros chart chart' Hr Hr'.
    destruct (render_time_axis _ _ _ _ Hs Hr)
      as (t & Ht & Hss & Hmem & Hmin & Hmax & Hb & Ha).
    destruct (render_time_axis _ _ _ _ Hs' Hr')
      as (t' & Ht' & Hss' & Hmem' & Hmin' & Hmax' & Hb' & Ha').
    assert (t' = t) as -> by congruence.
    assert (map time (chartData chart) = map time (chartData chart')) as Heq.
    { apply ascending_unique; [done..|]. intros x. by rewrite Hmem, Hmem'. }
    rewrite <- Heq in Hmin', Hmax', Hb'.
    assert (chartTMin chart = chartTMin chart') as Hmn.
    { specialize (Hb _ Hmin'). specialize (Hb' _ Hmin). lia. }
    assert (chartTMax chart = chartTMax chart') as Hmx.
    { specialize (Hb _ Hmax'). specialize (Hb' _ Hmax). lia. }
    repeat (split; [done|]). by rewrite Ha, Ha', Hmn, Hmx.
  - intros r' Hr Hr'. apply render_inv in Hr. apply render_inv in Hr'.
    destruct (data props) as [t|]; [|done].
    destruct Hr as (pd & _ & Htimes & ->).
    destruct Hr' as (pd' & _ & Htimes' & Hr').
    destruct r' as [chart'|]; [|done]. destruct Hr' as [Hne _].
    exfalso. apply Hne. apply (map_eq_nil time). by rewrite Htimes', <- Htimes.
Qed.

Lemma time_axis_independent_witness :
  ∃ chart chart',
    render sortByTime sampleProps DATA_POINTS.values = Returned (Some chart) ∧
    render sortByTime sampleProps [] = Returned (Some chart') ∧
    map time (chartData chart) = map time (chartData chart') ∧
    chartTMin chart = chartTMin chart' ∧
    chartTMax chart = chartTMax chart' ∧
    chartAreas chart = chartAreas chart'.
Proof.
  eexists _, _. split; [by vm_compute|]. split; [by vm_compute|].
  apply (proj1 (time_axis_independent sortByTime sortByTime sampleProps
                  DATA_POINTS.values [] sortByTime_sorts sortByTime_sorts));
    by vm_compute.
Defined.

Lemma ascending_head (l : list Z) x :
  StronglySorted Z.lt l → x ∈ l → (∀ y, y ∈ l → x ≤ y) → head l = Some x.
Proof.
  intros Hs Hx Hle. destruct Hs as [|y l Hs Hall]; [by apply elem_of_nil in Hx|].
  simpl. f_equal. apply elem_of_cons in Hx as [->|Hx]; [done|].
  rewrite Forall_forall in Hall. specialize (Hall x Hx).
  specialize (Hle y (list_elem_of_here _ _)). lia.
Qed.

Lemma ascending_last (l : list Z) x :
  StronglySorted Z.lt l → x ∈ l → (∀ y, y ∈ l → y ≤ x) → last l = Some x.
Proof.
  intros Hs. revert x. induction Hs as [|y l Hs IH Hall]; intros x Hx Hle.
  { by apply elem_of_nil in Hx. }
  destruct l as [|z l]; simpl.
  - apply list_elem_of_singleton in Hx. by subst.
  - apply IH.
    + apply elem_of_cons in Hx as [->|Hx]; [|done]. exfalso.
      rewrite Forall_forall in Hall. specialize (Hall z (list_elem_of_here _ _)).
      specialize (Hle z ltac:(right; left)). lia.
    + intros w Hw. apply Hle. by right.
Qed.

(** X15: the time domain of a chart is spanned by its merged series: [tMin]
    is the timestamp of the first datum and [tMax] the timestamp of the
    last one. *)
Theorem time_domain_first_last sort props enabledPlots chart :
  sortsByTime sort →
  render sort props enabledPlots = Returned (Some chart) →
  head (map time (chartData chart)) = Some (chartTMin chart) ∧
  last (map time (chartData chart)) = Some (chartTMax chart).
Proof.
  intros Hs Hr.
  destruct (render_time_axis _ _ _ _ Hs Hr) as (t & _ & Hss & _ & Hmin & Hmax & Hb & _).
  split.
  - apply ascending_head; [done..|]. intros y Hy. by apply Hb.
  - apply ascending_last; [done..|]. intros y Hy. by apply Hb.
Qed.

Lemma time_domain_first_last_witness :
  ∃ chart, render sortByTime sampleProps DATA_POINTS.values = Returned (Some chart) ∧
    head (map time (chartData chart)) = Some (chartTMin chart) ∧
    last (map time (chartData chart)) = Some (chartTMax chart).
Proof.
  eexists. split; [by vm_compute|].
  apply (time_domain_first_last sortByTime sampleProps DATA_POINTS.values).
  - exact sortByTime_sorts.
  - by vm_compute.
Defined.

(** X16: an overlay area never has its ends in the wrong order when the
    interval has them in the right one; an end of the interval that lies
    within the time domain is drawn where it is, and an interval that lies
    before or after the domain is drawn with no width, on the edge of the
    domain. *)
Theorem referenceArea_shape sort props enabledPlots chart :
  sortsByTime sort →
  render sort props enabledPlots = Returned (Some chart) →
  let tMin := chartTMin chart in
  let tMax := chartTMax chart in
  Forall2 (λ interval area,
             (tMinOf interval ≤ tMaxOf interval → x1 area ≤ x2 area) ∧
             (tMin ≤ tMinOf interval ≤ tMax → x1 area = tMinOf interval) ∧
             (tMin ≤ tMaxOf interval ≤ tMax → x2 area = tMaxOf interval) ∧
             (tMinOf interval ≤ tMin → tMaxOf interval ≤ tMin →
              x1 area = tMin ∧ x2 area = tMin) ∧
             (tMax ≤ tMinOf interval → tMax ≤ tMaxOf interval →
              x1 area = tMax ∧ x2 area = tMax))
          (mitigationIntervals props) (chartAreas chart).
Proof.
  intros Hs Hr tMin tMax.
  destruct (render_time_axis _ _ _ _ Hs Hr) as (t & _ & _ & _ & Hmin & _ & Hb & ->).
  assert (tMin ≤ tMax) as Hle by (by apply (Hb _ Hmin)).
  apply Forall2_fmap_r, Forall_Forall2_diag, Forall_forall.
  intros interval _. unfold referenceArea. simpl. fold tMin tMax.
  rewrite !clamp_max_min. lia.
Qed.

Lemma referenceArea_shape_witness :
  ∃ chart, render sortByTime sampleProps DATA_POINTS.values = Returned (Some chart) ∧
    Forall2 (λ interval area,
               (tMinOf interval ≤ tMaxOf interval → x1 area ≤ x2 area) ∧
               (chartTMin chart ≤ tMinOf interval ≤ chartTMax chart →
                x1 area = tMinOf interval) ∧
               (chartTMin chart ≤ tMaxOf interval ≤ chartTMax chart →
                x2 area = tMaxOf interval) ∧
               (tMinOf interval ≤ chartTMin chart → tMaxOf interval ≤ chartTMin chart →
                x1 area = chartTMin chart ∧ x2 area = chartTMin chart) ∧
               (chartTMax chart ≤ tMinOf interval → chartTMax chart ≤ tMaxOf interval →
                x1 area = chartTMax chart ∧ x2 area = chartTMax chart))
            (mitigationIntervals sampleProps) (chartAreas chart).
Proof.
  eexists. split; [by vm_compute|].
  apply (referenceArea_shape sortByTime sampleProps DATA_POINTS.values).
  - exact sortByTime_sorts.
  - by vm_compute.
Defined.

(** ** When the component throws *)

Lemma mapFrom_Threw {A B} (f : A → nat → outcome B) xs : ∀ n,
  mapFrom f n xs = Threw ↔ ∃ i x, xs !! i = Some x ∧ f x (n + i)%nat = Threw.
Proof.
  induction xs as [|x xs IH]; intros n; simpl.
  - split; [done|]. intros (i & x & Hx & _). by rewrite lookup_nil in Hx.
  - destruct (f x n) as [|y] eqn:Hy; simpl.
    + split; [|done]. intros _. exists 0%nat, x. by rewrite Nat.add_0_r.
    + destruct (mapFrom f (S n) xs) as [|ys] eqn:Hys; simpl.
      * split; [|done]. intros _. apply IH in Hys as (i & x' & Hx' & Hf).
        exists (S i), x'. split; [done|]. by rewrite Nat.add_succ_r.
      * split; [done|]. intros ([|i] & x' & Hx' & Hf); simpl in Hx'.
        -- rewrite Nat.add_0_r in Hf. congruence.
        -- assert (mapFrom f (S n) xs = Threw); [|congruence].
           apply IH. exists i, x'. split; [done|]. by rewrite Nat.add_succ_r in Hf.
Qed.

Lemma areaValue_Threw en k f (lower upper : list Sample) i :
  areaValue en k f lower upper i = Threw ↔
  includes en k = true ∧ (lower !! i = None ∨ upper !! i = None).
Proof.
  unfold areaValue, deref. destruct (includes en k); [|split; [done|by intros [? _]]].
  destruct (lower !! i) as [l|]; simpl; [|split; [by split; [|left]|done]].
  destruct (upper !! i) as [u|]; simpl; [|split; [by split; [|right]|done]].
  split; [done|]. by intros [_ [?|?]].
Qed.

Lemma trajectoryDatum_Threw en nH nI (lower upper : list Sample) x i :
  trajectoryDatum en nH nI lower upper x i = Threw ↔
  someComputed en ∧ (lower !! i = None ∨ upper !! i = None).
Proof.
  assert (trajectoryDatum en nH nI lower upper x i = Threw ↔
          ∃ m, areaValue en (keyOf m) (totalOf m) lower upper i = Threw) as ->.
  { unfold trajectoryDatum. split.
    - destruct (areaValue en (keyOf Susceptible) _ _ _ _) eqn:H1;
        [intros _; by exists Susceptible|].
      destruct (areaValue en (keyOf Infectious) _ _ _ _) eqn:H2;
        [intros _; by exists Infectious|].
      destruct (areaValue en (keyOf Severe) _ _ _ _) eqn:H3;
        [intros _; by exists Severe|].
      destruct (areaValue en (keyOf Critical) _ _ _ _) eqn:H4;
        [intros _; by exists Critical|].
      destruct (areaValue en (keyOf Overflow) _ _ _ _) eqn:H5;
        [intros _; by exists Overflow|].
      destruct (areaValue en (keyOf Recovered) _ _ _ _) eqn:H6;
        [intros _; by exists Recovered|].
      destruct (areaValue en (keyOf Fatalities) _ _ _ _) eqn:H7;
        [intros _; by exists Fatalities|].
      done.
    - intros [m Hm].
      destruct (areaValue en (keyOf Susceptible) _ _ _ _) eqn:H1; [done|].
      destruct (areaValue en (keyOf Infectious) _ _ _ _) eqn:H2; [done|].
      destruct (areaValue en (keyOf Severe) _ _ _ _) eqn:H3; [done|].
      destruct (areaValue en (keyOf Critical) _ _ _ _) eqn:H4; [done|].
      destruct (areaValue en (keyOf Overflow) _ _ _ _) eqn:H5; [done|].
      destruct (areaValue en (keyOf Recovered) _ _ _ _) eqn:H6; [done|].
      destruct (areaValue en (keyOf Fatalities) _ _ _ _) eqn:H7; [done|].
      destruct m; congruence. }
  unfold someComputed. split.
  - intros [m Hm]. apply areaValue_Threw in Hm as [Hen Hi].
    split; [|done]. exists m. by apply includes_true.
  - intros [[m Hen] Hi]. exists m. apply areaValue_Threw.
    split; [by apply includes_true|done].
Qed.

Lemma trajectoryData_Threw en nH nI t :
  trajectoryData en nH nI t = Threw ↔
  someComputed en ∧
  (length (lower t) < length (mean t) ∨ length (upper t) < length (mean t))%nat.
Proof.
  unfold trajectoryData, mapIdx. rewrite mapFrom_Threw. split.
  - intros (i & x & Hx & Hthrew). simpl in Hthrew.
    apply trajectoryDatum_Threw in Hthrew as [Hsome Hnone]. split; [done|].
    apply lookup_lt_Some in Hx.
    destruct Hnone as [Hl|Hu]; [left|right];
      match goal with H : _ !! _ = None |- _ => apply lookup_ge_None in H end; lia.
  - intros [Hsome Hshort].
    assert (∃ i, (i < length (mean t))%nat ∧
                 (lower t !! i = None ∨ upper t !! i = None)) as (i & Hi & Hnone).
    { destruct Hshort as [Hl|Hu].
      - exists (length (lower t)). split; [done|]. left. by apply lookup_ge_None.
      - exists (length (upper t)). split; [done|]. right. by apply lookup_ge_None. }
    destruct (lookup_lt_is_Some_2 (mean t) i Hi) as [x Hx].
    exists i, x. split; [done|]. simpl. by apply trajectoryDatum_Threw.
Qed.

(** X17: the normalization throws exactly when some computed metric is
    enabled and [lower] or [upper] is shorter than [mean]; with every
    computed metric disabled neither array is read, whatever its length
    is.  When it returns, it returns one datum per sample. *)
Theorem trajectoryData_throws (enabledPlots : list string) (nHospitalBeds nICUBeds : val)
    (t : Trajectory) :
  (trajectoryData enabledPlots nHospitalBeds nICUBeds t = Threw ↔
   someComputed enabledPlots ∧
   (length (lower t) < length (mean t) ∨ length (upper t) < length (mean t))%nat) ∧
  (∀ pts, trajectoryData enabledPlots nHospitalBeds nICUBeds t = Returned pts →
          map time pts = map sampleTime (mean t)).
Proof.
  split; [apply trajectoryData_Threw|intros pts; apply trajectoryData_times].
Qed.

(** X18: with a sort that sorts, the component throws exactly when the
    normalization does: there are data, some computed metric is enabled,
    and [lower] or [upper] is shorter than [mean].  Neither the
    observations, however sparse, nor the legend state, nor the
    mitigation intervals can make it throw. *)
Theorem render_throws sort props (enabledPlots : list string) :
  sortsByTime sort →
  (render sort props enabledPlots = Threw ↔
   ∃ t, data props = Some t ∧ someComputed enabledPlots ∧
        (length (lower t) < length (mean t) ∨ length (upper t) < length (mean t))%nat).
Proof.
  intros Hs.
  assert (render sort props enabledPlots = Threw ↔
          ∃ t, data props = Some t ∧
               trajectoryData enabledPlots (verifyPositive (populationHospitalBeds props))
                 (verifyPositive (populationICUBeds props)) t = Threw) as ->.
  { unfold render. destruct (data props) as [t|]; [|split; [done|by intros (? & ? & _)]].
    unfold plotData.
    assert (∃ obs, observations enabledPlots (verifyPositive (populationHospitalBeds props))
                     (verifyPositive (populationICUBeds props)) (caseCounts props)
                   = Returned obs) as [obs ->].
    { destruct (caseCounts props) as [cc|]; [apply observations_returns|by exists []]. }
    simpl. destruct (trajectoryData _ _ _ t) as [|traj] eqn:Htraj; simpl.
    - split; [|done]. intros _. by exists t.
    - split; [|intros (? & [= <-] & ?); congruence].
      destruct (traj ++ obs)%list as [|d0 pd] eqn:Hpd; simpl; [done|].
      destruct (minByTime_least _ (sort_nonempty sort Hs (d0 :: pd) ltac:(done)))
        as (mn & -> & _).
      destruct (maxByTime_greatest _ (sort_nonempty sort Hs (d0 :: pd) ltac:(done)))
        as (mx & -> & _).
      done. }
  split; intros (t & Ht & H); exists t; (split; [done|]);
    by eapply trajectoryData_Threw.
Qed.

Lemma render_throws_witness :
  render sortByTime sampleProps DATA_POINTS.values = Threw ↔
  ∃ t, data sampleProps = Some t ∧ someComputed DATA_POINTS.values ∧
       (length (lower t) < length (mean t) ∨ length (upper t) < length (mean t))%nat.
Proof. exact (render_throws sortByTime sampleProps DATA_POINTS.values sortByTime_sorts). Defined.

(** ** Counts and scatter series *)

Lemma filter_length_le {A} (f : A → bool) (l : list A) :
  (length (List.filter f l) ≤ length l)%nat.
Proof. induction l as [|x l IH]; simpl; [done|]. destruct (f x); simpl; lia. Qed.

Lemma filter_length_pos {A} (f : A → bool) (l : list A) :
  length (List.filter f l) ≠ 0%nat ↔ ∃ i x, l !! i = Some x ∧ f x = true.
Proof.
  induction l as [|x l IH]; simpl.
  - split; [done|]. intros (i & x & Hx & _). by rewrite lookup_nil in Hx.
  - destruct (f x) eqn:Hfx; simpl.
    + split; [|done]. intros _. by exists 0%nat, x.
    + rewrite IH. split.
      * intros (i & y & Hy & Hf). by exists (S i), y.
      * intros ([|i] & y & Hy & Hf); simpl in Hy; [congruence|]. by exists i, y.
Qed.

Lemma filter_length_Forall2 {A B} (f : A → bool) (g : B → bool) l k :
  Forall2 (λ x y, g y = true → f x = true) l k →
  (length (List.filter g k) ≤ length (List.filter f l))%nat.
Proof.
  induction 1 as [|x y l k Hxy _ IH]; simpl; [done|].
  destruct (g y) eqn:Hg; [rewrite (Hxy eq_refl); simpl; lia|].
  destruct (f x); simpl; lia.
Qed.

Lemma filter_length_skip3 {A} (f : A → bool) (l : list A) :
  (∀ i x, (i < 3)%nat → l !! i = Some x → f x = false) →
  (length (List.filter f l) ≤ length l - 3)%nat.
Proof.
  intros H.
  destruct l as [|a [|b [|c l]]]; simpl;
    rewrite ?(H 0%nat a), ?(H 1%nat b), ?(H 2%nat c) by (lia || done); simpl;
    try lia.
  pose proof (filter_length_le f l). lia.
Qed.

Lemma hasAny_counted (l : list EmpiricalDatum) :
  Forall (λ d, hasAny d = true) l →
  (length l ≤ countTruthy cases l + countTruthy icu l
              + countTruthy deaths l + countTruthy hospitalized l)%nat.
Proof.
  unfold countTruthy. induction 1 as [|d l Hd _ IH]; simpl; [done|].
  apply hasAny_true in Hd.
  destruct (truthy (cases d)), (truthy (icu d)), (truthy (deaths d)),
    (truthy (hospitalized d)); simpl; first [lia | intuition discriminate].
Qed.

Lemma newCases_truthy cc i v :
  newCases cc i = Returned v → truthyVal v = true →
  (3 ≤ i)%nat ∧ ∃ d, cc !! i = Some d ∧ truthy (cases d) = true.
Proof.
  unfold newCases, caseStep. destruct (Nat.leb_spec 3 i); [|by intros [= <-]].
  unfold deref at 1. destruct (cc !! i) as [d|]; [|done]. simpl.
  destruct (truthy (cases d)) eqn:Hd; [|by intros [= <-]].
  intros _ _. split; [done|]. by exists d.
Qed.

Lemma deltas_returns (cc : list EmpiricalDatum) :
  ∃ deltas, mapIdx (λ _ i, newCases cc i) cc = Returned deltas ∧
            length deltas = length cc ∧
            ∀ i v, deltas !! i = Some v → newCases cc i = Returned v.
Proof.
  destruct (mapIdx_total (λ (_ : EmpiricalDatum) i, newCases cc i) cc) as [deltas Hd].
  { intros i d Hi. apply lookup_lt_Some in Hi. by apply newCases_returns. }
  exists deltas. split; [done|]. destruct (mapIdx_inv _ _ _ Hd) as [Hlen Hall].
  split; [done|]. intros i v Hv.
  destruct (lookup_lt_is_Some_2 cc i) as [d Hi].
  { rewrite <- Hlen. by eapply lookup_lt_Some. }
  destruct (Hall i d Hi) as (v' & Hv' & Hn). congruence.
Qed.

(** X19: the counts of the observed metrics.  None exceeds the number of
    records that survive the filter; every surviving record is counted
    under [cases], [ICU], [observedDeaths] or [hospitalized]; and the
    records with a windowed delta are among those with a case count and
    leave out the first three. *)
Theorem countObservations_bounds (cc : list EmpiricalDatum) :
  ∃ count, countObservations (Some cc) = Returned count ∧
    let n := length (nonEmptyCaseCounts cc) in
    (countCases count ≤ n ∧ countICU count ≤ n ∧ countObservedDeaths count ≤ n ∧
     countHospitalized count ≤ n ∧
     n ≤ countCases count + countICU count + countObservedDeaths count
         + countHospitalized count ∧
     countNewCases count ≤ countCases count ∧
     countNewCases count ≤ n - 3)%nat.
Proof.
  unfold countObservations.
  destruct (deltas_returns (nonEmptyCaseCounts cc)) as (deltas & -> & Hlen & Hdel).
  simpl. eexists. split; [done|]. simpl. unfold countTruthy.
  repeat (split; [apply filter_length_le|]). split; [|split].
  - apply hasAny_counted, Forall_forall. intros d Hd.
    by apply nonEmptyCaseCounts_elem in Hd as [_ ?].
  - apply filter_length_Forall2. apply Forall2_same_length_lookup_2; [done|].
    intros i d v Hd Hv Ht. apply Hdel in Hv.
    destruct (newCases_truthy _ _ _ Hv Ht) as (_ & d' & Hd' & ?). congruence.
  - rewrite <- Hlen. apply filter_length_skip3. intros i v Hi Hv.
    apply Hdel in Hv. destruct (truthyVal v) eqn:Ht; [|done].
    destruct (newCases_truthy _ _ _ Hv Ht) as [? _]. lia.
Qed.

Lemma scatterToPlot_elem obs count k :
  k ∈ scatterToPlot obs count ↔
  length obs ≠ 0%nat ∧
  ((k = "cases" ∧ countCases count ≠ 0%nat) ∨
   (k = "newCases" ∧ countNewCases count ≠ 0%nat) ∨
   (k = "currentHospitalized" ∧ countHospitalized count ≠ 0%nat) ∨
   (k = "ICU" ∧ countICU count ≠ 0%nat) ∨
   (k = "observedDeaths" ∧ countObservedDeaths count ≠ 0%nat)).
Proof.
  unfold scatterToPlot. unfold_keys.
  destruct (Nat.eqb_spec (length obs) 0);
    [rewrite elem_of_nil; tauto|].
  rewrite !elem_of_app.
  destruct (Nat.eqb_spec (countCases count) 0),
    (Nat.eqb_spec (countNewCases count) 0),
    (Nat.eqb_spec (countHospitalized count) 0),
    (Nat.eqb_spec (countICU count) 0),
    (Nat.eqb_spec (countObservedDeaths count) 0);
    rewrite ?list_elem_of_singleton, ?elem_of_nil; tauto.
Qed.

Lemma optOrUndefined_defined o : optOrUndefined o ≠ VUndef ↔ truthy o = true.
Proof.
  unfold optOrUndefined, orUndefined, truthy. destruct o as [n|]; [|done].
  case_decide as Hn; [subst; done|].
  split; [|done]. intros _. by apply negb_true_iff, Z.eqb_neq.
Qed.

Lemma observationDatum_get en nH nI cc x i d :
  observationDatum en nH nI cc x i = Returned d →
  (includes en "cases" = true → get d "cases" = optOrUndefined (cases x)) ∧
  (includes en "observedDeaths" = true →
   get d "observedDeaths" = optOrUndefined (deaths x)) ∧
  (includes en "currentHospitalized" = true →
   get d "currentHospitalized" = optOrUndefined (hospitalized x)) ∧
  (includes en "ICU" = true → get d "ICU" = optOrUndefined (icu x)) ∧
  (includes en "newCases" = true → newCases cc i = Returned (get d "newCases")).
Proof.
  unfold observationDatum. unfold_keys.
  destruct (includes en "newCases") eqn:Hn; [destruct (newCases cc i) eqn:Hnc|];
    simpl; intros Hd; simplify_eq; unfold get; simpl;
    repeat split; try done; by intros ->.
Qed.

Lemma newCases_defined cc i v :
  newCases cc i = Returned v → v ≠ VUndef ↔ truthyVal v = true.
Proof.
  intros Hv. destruct (gated_newCases_shape true cc i v Hv) as [->|(n & -> & ?)].
  - done.
  - simpl. split; [|done]. intros _. apply negb_true_iff, Z.eqb_neq. lia.
Qed.

(** X20: a scatter series is offered exactly when its data are there: for
    an enabled key, the key is in [scatterToPlot] if and only if it is one
    of the five observed keys and some observation datum holds a value
    under it. *)
Theorem scatterToPlot_offered (enabledPlots : list string) (nHospitalBeds nICUBeds : val)
    (cc : list EmpiricalDatum) :
  ∃ obs count,
    observations enabledPlots nHospitalBeds nICUBeds (Some cc) = Returned obs ∧
    countObservations (Some cc) = Returned count ∧
    ∀ k, k ∈ enabledPlots →
      (k ∈ scatterToPlot obs count ↔
       k ∈ [ "cases"; "newCases"; "currentHospitalized"; "ICU"; "observedDeaths" ] ∧
       ∃ d, d ∈ obs ∧ get d k ≠ VUndef).
Proof.
  destruct (observations_returns enabledPlots nHospitalBeds nICUBeds cc) as [obs Hobs].
  unfold countObservations.
  destruct (deltas_returns (nonEmptyCaseCounts cc)) as (deltas & -> & Hlen & Hdel).
  simpl. eexists obs, _. split; [done|]. split; [done|].
  pose proof Hobs as Hmap. unfold observations in Hmap.
  destruct (mapIdx_inv _ _ _ Hmap) as [Hlo Hall].
  set (filtered := nonEmptyCaseCounts cc) in *.
  assert (∀ d, d ∈ obs → length obs ≠ 0%nat) as Hnonempty.
  { intros d Hd Hnil. apply nil_length_inv in Hnil. subst obs.
    by apply elem_of_nil in Hd. }
  assert (∀ (f : EmpiricalDatum → option Z) key,
            (∀ x i d, observationDatum enabledPlots nHospitalBeds nICUBeds filtered x i
                      = Returned d → get d key = optOrUndefined (f x)) →
            (countTruthy f filtered ≠ 0%nat ↔ ∃ d, d ∈ obs ∧ get d key ≠ VUndef)) as Hkey.
  { intros f key Hget. unfold countTruthy. rewrite filter_length_pos. split.
    - intros (i & x & Hx & Hf). destruct (Hall i x Hx) as (d & Hd & Hdat).
      exists d. split; [by eapply list_elem_of_lookup_2|].
      rewrite (Hget _ _ _ Hdat). by apply optOrUndefined_defined.
    - intros (d & Hd & Hdef). apply list_elem_of_lookup in Hd as [i Hd].
      destruct (lookup_lt_is_Some_2 filtered i) as [x Hx].
      { rewrite <- Hlo. by eapply lookup_lt_Some. }
      destruct (Hall i x Hx) as (d' & Hd' & Hdat). simplify_eq.
      exists i, x. split; [done|]. apply optOrUndefined_defined.
      by rewrite <- (Hget _ _ _ Hdat). }
  assert (includes enabledPlots "newCases" = true →
          (length (List.filter truthyVal deltas) ≠ 0%nat ↔
           ∃ d, d ∈ obs ∧ get d "newCases" ≠ VUndef)) as Hnew.
  { intros Hen. rewrite filter_length_pos. split.
    - intros (i & v & Hv & Ht). pose proof (Hdel _ _ Hv) as Hn.
      destruct (lookup_lt_is_Some_2 filtered i) as [x Hx].
      { rewrite <- Hlen. by eapply lookup_lt_Some. }
      destruct (Hall i x Hx) as (d & Hd & Hdat).
      exists d. split; [by eapply list_elem_of_lookup_2|].
      destruct (observationDatum_get _ _ _ _ _ _ _ Hdat) as (_ & _ & _ & _ & Hnc).
      specialize (Hnc Hen). assert (get d "newCases" = v) as -> by congruence.
      by apply (newCases_defined _ _ _ Hn).
    - intros (d & Hd & Hdef). apply list_elem_of_lookup in Hd as [i Hd].
      destruct (lookup_lt_is_Some_2 filtered i) as [x Hx].
      { rewrite <- Hlo. by eapply lookup_lt_Some. }
      destruct (Hall i x Hx) as (d' & Hd' & Hdat). simplify_eq.
      destruct (observationDatum_get _ _ _ _ _ _ _ Hdat) as (_ & _ & _ & _ & Hnc).
      specialize (Hnc Hen).
      destruct (lookup_lt_is_Some_2 deltas i) as [v Hv].
      { rewrite Hlen. by eapply lookup_lt_Some. }
      pose proof (Hdel _ _ Hv) as Hn. assert (v = get d "newCases") as -> by congruence.
      exists i, (get d "newCases"). split; [done|].
      by apply (newCases_defined _ _ _ Hn). }
  intros k Hk. apply includes_true in Hk. rewrite scatterToPlot_elem. simpl.
  assert (∀ x i d, observationDatum enabledPlots nHospitalBeds nICUBeds filtered x i
                   = Returned d →
                   (includes enabledPlots "cases" = true →
                    get d "cases" = optOrUndefined (cases x)) ∧
                   (includes enabledPlots "observedDeaths" = true →
                    get d "observedDeaths" = optOrUndefined (deaths x)) ∧
                   (includes enabledPlots "currentHospitalized" = true →
                    get d "currentHospitalized" = optOrUndefined (hospitalized x)) ∧
                   (includes enabledPlots "ICU" = true →
                    get d "ICU" = optOrUndefined (icu x))) as Hget.
  { intros x i d Hd.
    destruct (observationDatum_get _ _ _ _ _ _ _ Hd) as (? & ? & ? & ? & _). done. }
  split.
  - intros (_ & [[-> Hc]|[[-> Hc]|[[-> Hc]|[[-> Hc]|[-> Hc]]]]]); (split; [in_list|]).
    + apply (Hkey cases "cases"); [|done]. intros x i d Hd. by apply (Hget x i d Hd).
    + by apply (Hnew Hk).
    + apply (Hkey hospitalized "currentHospitalized"); [|done].
      intros x i d Hd. by apply (Hget x i d Hd).
    + apply (Hkey icu "ICU"); [|done]. intros x i d Hd. by apply (Hget x i d Hd).
    + apply (Hkey deaths "observedDeaths"); [|done].
      intros x i d Hd. by apply (Hget x i d Hd).
  - intros [Hin Hex]. split; [destruct Hex as (d & Hd & _); by eapply Hnonempty|].
    list_case Hin.
    + left. split; [done|]. apply (Hkey cases "cases"); [|done].
      intros x i d Hd. by apply (Hget x i d Hd).
    + right; left. split; [done|]. by apply (Hnew Hk).
    + do 2 right; left. split; [done|].
      apply (Hkey hospitalized "currentHospitalized"); [|done].
      intros x i d Hd. by apply (Hget x i d Hd).
    + do 3 right; left. split; [done|]. apply (Hkey icu "ICU"); [|done].
      intros x i d Hd. by apply (Hget x i d Hd).
    + do 4 right. split; [done|]. apply (Hkey deaths "observedDeaths"); [|done].
      intros x i d Hd. by apply (Hget x i d Hd).
Qed.

(** ** More on the window and the bands *)

(** X21: with case counts that are never negative, a windowed delta that
    is defined is positive and smaller than the count it is taken at: the
    count three records earlier is itself positive and smaller. *)
Theorem newCases_below_count (cc : list EmpiricalDatum) (i : nat) (v : Z) :
  (∀ d n, d ∈ cc → cases d = Some n → 0 ≤ n) →
  newCases cc i = Returned (VNum v) →
  ∃ a b, (cases <$> cc !! i) = Some (Some a) ∧
         (cases <$> cc !! (i - 3)%nat) = Some (Some b) ∧
         v = a - b ∧ 0 < b < a ∧ 0 < v < a.
Proof.
  intros Hpos. unfold newCases, caseStep.
  destruct (3 <=? i)%nat; [|done].
  unfold deref. destruct (cc !! i) as [ci|] eqn:Hci; [|done]. simpl.
  destruct (cases ci) as [a|] eqn:Ha; simpl; [|done].
  destruct (Z.eqb_spec a 0); simpl; [done|].
  destruct (cc !! (i - 3)%nat) as [cj|] eqn:Hcj; [|done]. simpl.
  destruct (cases cj) as [b|] eqn:Hb; simpl; [|done].
  destruct (Z.eqb_spec b 0); simpl; [done|].
  intros [= Hv]. apply verifyPositive_VNum in Hv as [Hlt ->].
  exists a, b. repeat (split; [done|]).
  pose proof (Hpos cj b (list_elem_of_lookup_2 _ _ _ Hcj) Hb). lia.
Qed.

Lemma newCases_below_count_witness :
  ∃ a b, (cases <$> risingCounts !! 3%nat) = Some (Some a) ∧
         (cases <$> risingCounts !! (3 - 3)%nat) = Some (Some b) ∧
         8 = a - b ∧ 0 < b < a ∧ 0 < 8 < a.
Proof.
  apply (newCases_below_count risingCounts 3 8); [|reflexivity].
  intros d n Hd Hn. unfold risingCounts in Hd. list_case Hd; simpl in Hn; simplify_eq; lia.
Defined.

(** X22: a band the normalization stores is in order whenever the totals
    it is rounded from are: if the lower total does not exceed the upper
    one, the stored pair [[lo, hi]] has [lo <= hi]. *)
Theorem band_ordered (enabledPlots : list string) (nHospitalBeds nICUBeds : val)
    (t : Trajectory) pts i d l u (m : Computed) lo hi :
  trajectoryData enabledPlots nHospitalBeds nICUBeds t = Returned pts →
  pts !! i = Some d → lower t !! i = Some l → upper t !! i = Some u →
  (totalOf m l <= totalOf m u)%Q →
  get d (areaKeyOf m) = VBand lo hi →
  lo = Math_round (totalOf m l) ∧ hi = Math_round (totalOf m u) ∧ lo ≤ hi.
Proof.
  intros Hpts Hd Hl Hu Hle Hband.
  destruct (mapIdx_inv _ _ _ Hpts) as [Hlen Hall].
  destruct (lookup_lt_is_Some_2 (mean t) i) as [x Hx].
  { rewrite <- Hlen. by eapply lookup_lt_Some. }
  destruct (Hall i x Hx) as (d' & Hd' & Hdat). simplify_eq.
  destruct (trajectoryDatum_aligned enabledPlots nHospitalBeds nICUBeds
              _ _ x i l u Hl Hu) as (d' & Hd' & _ & _ & Harea & _).
  assert (d' = d) as -> by congruence.
  rewrite Harea in Hband. destruct (includes enabledPlots (keyOf m)); [|done].
  simplify_eq. repeat split. by apply Math_round_mono.
Qed.

Lemma band_ordered_witness :
  ∃ d, trajectoryData DATA_POINTS.values VUndef VUndef flatTrajectory = Returned [d] ∧
       0 = Math_round (totalOf Susceptible (sample 0 0 5)) ∧
       3 = Math_round (totalOf Susceptible (sample 0 3 9)) ∧ 0 ≤ 3.
Proof.
  eexists. split; [reflexivity|].
  eapply (band_ordered DATA_POINTS.values VUndef VUndef flatTrajectory _ 0%nat _
            (sample 0 0 5) (sample 0 3 9) Susceptible 0 3);
    try reflexivity. by vm_compute.
Defined.

(** ** Series and data keys *)

(** X23: the data and the series agree on their keys: the own properties
    of a datum of the trajectory are exactly [time] and the keys of
    [linesToPlot] and [areasToPlot], so that no line or area is without its
    property and no property but [time] without its series; [time] holds
    the timestamp of the sample, a band is only ever held under a key of
    [areasToPlot], and a number only under [time] or a key of
    [linesToPlot]. *)
Theorem series_keys en (hospitalBeds icuBeds : Z) (lower upper : list Sample) x i d :
  trajectoryDatum en (verifyPositive hospitalBeds) (verifyPositive icuBeds)
    lower upper x i = Returned d →
  prop d "time" = VNum (sampleTime x) ∧
  ∀ k, (ownKey d k ↔
        k = "time" ∨ k ∈ map key linesToPlot ∨ k ∈ map key areasToPlot) ∧
       (∀ lo hi, prop d k = VBand lo hi → k ∈ map key areasToPlot) ∧
       (∀ n, prop d k = VNum n → k = "time" ∨ k ∈ map key linesToPlot).
Proof.
  intros Hd.
  assert (∀ k, is_Some (fields d !! k) ↔
               k ∈ map key linesToPlot ∨ k ∈ map key areasToPlot) as Hown.
  { intros k. split.
    - intros [v Hv].
      destruct (trajectoryDatum_own _ _ _ _ _ _ _ _ _ _ Hd Hv)
        as [[Hin _]|[[Hin _]|[[-> _]|[-> _]]]].
      + left. list_case Hin; in_list.
      + right. list_case Hin; in_list.
      + left. in_list.
      + left. in_list.
    - unfold trajectoryDatum in Hd.
      destruct (areaValue en (keyOf Susceptible) _ _ _ _) as [|a1]; [done|].
      destruct (areaValue en (keyOf Infectious) _ _ _ _) as [|a2]; [done|].
      destruct (areaValue en (keyOf Severe) _ _ _ _) as [|a3]; [done|].
      destruct (areaValue en (keyOf Critical) _ _ _ _) as [|a4]; [done|].
      destruct (areaValue en (keyOf Overflow) _ _ _ _) as [|a5]; [done|].
      destruct (areaValue en (keyOf Recovered) _ _ _ _) as [|a6]; [done|].
      destruct (areaValue en (keyOf Fatalities) _ _ _ _) as [|a7]; [done|].
      simpl in Hd. simplify_eq. simpl. unfold_keys.
      intros [Hin|Hin]; apply list_elem_of_In in Hin; simpl in Hin;
        repeat destruct Hin as [<-|Hin]; try done; by eexists. }
  split.
  { unfold prop. rewrite decide_True by done.
    by destruct (trajectoryDatum_inv _ _ _ _ _ _ _ _ Hd) as (-> & _). }
  intros k. split; [|split].
  - unfold ownKey. rewrite Hown. tauto.
  - intros lo hi Hget. unfold prop in Hget. case_decide; [done|]. unfold get in Hget.
    destruct (fields d !! k) as [v|] eqn:Hv; [simpl in Hget; subst v|done].
    destruct (trajectoryDatum_own _ _ _ _ _ _ _ _ _ _ Hd Hv)
      as [[_ [?|(n & ? & _)]]|[[Hin _]|[[_ Hcap]|[_ Hcap]]]]; try done.
    + by destruct (verifyPositive_shape hospitalBeds) as [Hs|[Hs _]];
        rewrite Hs in Hcap.
    + by destruct (verifyPositive_shape icuBeds) as [Hs|[Hs _]];
        rewrite Hs in Hcap.
  - intros n Hget. unfold prop in Hget. case_decide; [by left|]. right.
    unfold get in Hget.
    destruct (fields d !! k) as [v|] eqn:Hv; [simpl in Hget; subst v|done].
    destruct (trajectoryDatum_own _ _ _ _ _ _ _ _ _ _ Hd Hv)
      as [[Hin _]|[[_ [?|(lo & hi & ?)]]|[[-> _]|[-> _]]]]; try done.
    + list_case Hin; in_list.
    + in_list.
    + in_list.
Qed.

Lemma series_keys_witness :
  ∃ d, trajectoryDatum DATA_POINTS.values (verifyPositive 10) (verifyPositive 0)
         [sample 1 80 0] [sample 1 95 0] (sample 1 90 0) 0 = Returned d ∧
    prop d "time" = VNum 1 ∧
    ∀ k, (ownKey d k ↔
          k = "time" ∨ k ∈ map key linesToPlot ∨ k ∈ map key areasToPlot) ∧
         (∀ lo hi, prop d k = VBand lo hi → k ∈ map key areasToPlot) ∧
         (∀ n, prop d k = VNum n → k = "time" ∨ k ∈ map key linesToPlot).
Proof.
  eexists. split; [reflexivity|].
  apply (series_keys DATA_POINTS.values 10 0 [sample 1 80 0] [sample 1 95 0]
           (sample 1 90 0) 0%nat).
  reflexivity.
Defined.

(** ** The scenarios of the spec *)

(** Scenario A: two samples, no observation, [susceptible] enabled. *)
Example scenario_A :
  ∃ chart, render sortByTime scenarioAProps ["susceptible"] = Returned (Some chart) ∧
    map (λ d, (time d, get d "susceptible")) (chartData chart)
    = [(0, VNum 100); (1, VNum 90)] ∧
    chartYDataMax chart = VNum 100 ∧
    yAxisMax (chartYDataMax chart) = Some (inject_Z 100 * (11 # 10))%Q.
Proof. eexists. split; [by vm_compute|]. by vm_compute. Qed.

(** Scenario B: the window is reached at index 3 only. *)
Example scenario_B :
  map (newCases scenarioB) [1; 2; 3]%nat
  = [Returned VUndef; Returned VUndef; Returned (VNum 40)].
Proof. reflexivity. Qed.

(** Scenario C: a computed and an observed datum at the same time. *)
Example scenario_C :
  map (λ d, (time d, get d "infectious", get d "cases"))
      (consolidate [computedAt5; observedAt5])
  = [(5, VNum 20, VNum 7)].
Proof. reflexivity. Qed.

(** Scenario D: a record without any count yields no datum. *)
Example scenario_D :
  observations DATA_POINTS.values VUndef VUndef
    (Some [ {| obsTime := 4; cases := Some 0; deaths := Some 0;
               icu := Some 0; hospitalized := Some 0 |} ]) = Returned [].
Proof. reflexivity. Qed.

(** Scenario E: nothing to plot, the component returns [null]. *)
Example scenario_E :
  render sortByTime scenarioEProps DATA_POINTS.values = Returned None.
Proof. reflexivity. Qed.
